(** * tensorflow/lite/python/lite_v2_test_util.py

    A shallow embedding of the [ModelTest] base class and a verification of
    the statements its specification makes about it.

    The class is a set of short helper methods around the TensorFlow Lite
    interpreter and the TensorFlow variable and tracing API.  The embedding
    keeps that shape:

    - Python objects (the test instance, the trackable models, variables and
      interpreters) live in a heap of cells, so that aliasing and the
      question of which object an attribute is written to are explicit;
    - every call into the wrapped library is recorded, with its outcome, in
      a log, so that "how often" and "in which order" can be stated;
    - exceptions are the error side of a result type that every helper
      returns; the library operations are fields of a record that the
      development is parameterised over, each of them free to raise;
    - what a helper is meant to do with the library is written a second
      time as a function of the library alone, without objects or heap,
      and the embedded method is proved to come to the same. *)

From Stdlib Require Import ZArith List Ascii String PrimFloat.
From stdpp Require Import gmap strings list fin_maps.

Local Open Scope string_scope.
Local Open Scope Z_scope.
Local Open Scope list_scope.

(** ** Python values, exceptions and results *)

(** The exception classes that occur in the embedded code. *)
Inductive exn : Type :=
| AssertionError   (* self.assertTrue / assertIn / assertNotIn *)
| IndexError       (* list subscript out of range *)
| AttributeError   (* attribute lookup on an object without it *)
| TypeError
| ValueError
| RuntimeError.

#[global] Instance exn_eq_dec : EqDecision exn.
Proof. solve_decision. Defined.

Inductive result (A : Type) : Type :=
| Ok (a : A)
| Raised (e : exn).
Arguments Ok {A} a.
Arguments Raised {A} e.

(** What a caller sees of a result when it keeps only part of the value. *)
Definition result_map {A B} (f : A -> B) (r : result A) : result B :=
  match r with
  | Ok a => Ok (f a)
  | Raised e => Raised e
  end.

(** Heap addresses of Python objects. *)
Abbreviation loc := positive.

(** What an attribute or a local name can hold.  A function object is kept
    by the place of its definition in the file (there is one lambda). *)
Inductive fn : Type :=
| Lambda_f (root : loc).   (* lambda x: root.v1 * root.v2 * x *)

Inductive value : Type :=
| VNone
| VRef (l : loc)
| VFunction (f : fn).

Definition is_None (v : value) : bool :=
  match v with VNone => true | _ => false end.

(** ** numpy: [(a == b).all()] on one-dimensional integer arrays

    A shape signature is a one-dimensional integer array, the expected one
    a list or tuple of integers.  [==] is element-wise with broadcasting:
    equal lengths compare position by position, an operand of length one
    is stretched to the other's length.  With any other pair of lengths
    the comparison is not element-wise: numpy of the code's time answers
    the bare Python [False], on which [.all()] is an [AttributeError]
    (later releases raise [ValueError] from [==] itself). *)
Fixpoint all_eq2 (a b : list Z) : bool :=
  match a, b with
  | x :: a', y :: b' => (x =? y) && all_eq2 a' b'
  | _, _ => true
  end.

Definition np_eq_all (a b : list Z) : result bool :=
  if (length a =? length b)%nat then Ok (all_eq2 a b)
  else match a, b with
       | [x], _ => Ok (forallb (fun y => x =? y) b)
       | _, [y] => Ok (forallb (fun x => x =? y) a)
       | _, _ => Raised AttributeError
       end.

(** ** os.path.basename (posixpath)

    [i = p.rfind('/') + 1; return p[i:]]: what follows the last slash. *)
Fixpoint basename_from (acc : string) (p : string) : string :=
  match p with
  | EmptyString => acc
  | String c p' =>
      if Ascii.eqb c "/"%char then basename_from p' p'
      else basename_from acc p'
  end.

Definition basename (p : string) : string := basename_from p p.

(** ** The wrapped libraries

    [tensor] is a TensorFlow (eager) tensor, [ndarray] a numpy array,
    [interp] the internal state of a TensorFlow Lite interpreter and
    [runner] a signature runner.  Every operation the helpers call is a
    field; those that the interpreter mutates return its next state.

    The state a new interpreter starts in is not a function of the model
    content alone: the buffers of its tensors hold whatever the memory they
    are placed in held before, until something is written to them.  The
    constructor therefore also depends on the address the new object gets,
    which stands for that memory: two interpreters loaded from the same
    content at different addresses may differ in what their unset tensors
    read as. *)

(** One entry of [get_input_details()] / [get_output_details()]: the two
    keys the helpers read. *)
Record detail : Type := Detail {
  index : Z;
  shape_signature : list Z;
}.

Abbreviation bytes := (list Byte.byte).

Record Library (tensor ndarray interp runner : Type) : Type := {
  (* tensorflow.lite.python.interpreter.Interpreter *)
  Interpreter_init : bytes -> loc -> result interp;
  Interpreter_get_input_details : interp -> result (list detail);
  Interpreter_get_output_details : interp -> result (list detail);
  Interpreter_resize_tensor_input :
    Z -> list Z -> bool -> interp -> result interp;
  Interpreter_allocate_tensors : interp -> result interp;
  Interpreter_set_tensor : Z -> ndarray -> interp -> result interp;
  Interpreter_invoke : interp -> result interp;
  Interpreter_get_tensor : Z -> interp -> result ndarray;
  Interpreter_get_signature_runner : string -> interp -> result runner;
  SignatureRunner_call :
    runner -> gmap string tensor -> interp ->
    result (gmap string ndarray * interp);
  (* tensorflow.python.ops.variables.Variable(initial_value): the exception
     the constructor raises on this initial value, if any *)
  Variable_init : tensor -> option exn;
  (* tensors *)
  numpy : tensor -> ndarray;
  convert_to_tensor : float -> tensor;
  zeros : list Z -> string -> tensor;
  tensor_add : tensor -> tensor -> tensor;
  tensor_sub : tensor -> tensor -> tensor;
  tensor_mul : tensor -> tensor -> tensor;
}.
Arguments Interpreter_init {_ _ _ _} _ _ _.
Arguments Interpreter_get_input_details {_ _ _ _} _ _.
Arguments Interpreter_get_output_details {_ _ _ _} _ _.
Arguments Interpreter_resize_tensor_input {_ _ _ _} _ _ _ _ _.
Arguments Interpreter_allocate_tensors {_ _ _ _} _ _.
Arguments Interpreter_set_tensor {_ _ _ _} _ _ _ _.
Arguments Interpreter_invoke {_ _ _ _} _ _.
Arguments Interpreter_get_tensor {_ _ _ _} _ _ _.
Arguments Interpreter_get_signature_runner {_ _ _ _} _ _ _.
Arguments SignatureRunner_call {_ _ _ _} _ _ _ _.
Arguments Variable_init {_ _ _ _} _ _.
Arguments numpy {_ _ _ _} _ _.
Arguments convert_to_tensor {_ _ _ _} _ _.
Arguments zeros {_ _ _ _} _ _ _.
Arguments tensor_add {_ _ _ _} _ _ _.
Arguments tensor_sub {_ _ _ _} _ _ _.
Arguments tensor_mul {_ _ _ _} _ _ _.

(** ** The world: heap and call log *)

(** A library call as the log records it: which operation, on which
    arguments. *)
Inductive call (tensor ndarray : Type) : Type :=
| Call_Interpreter (model_content : bytes)
| Call_get_input_details
| Call_get_output_details
| Call_resize_tensor_input (idx : Z) (shape : list Z) (strict : bool)
| Call_allocate_tensors
| Call_set_tensor (idx : Z) (data : ndarray)
| Call_invoke
| Call_get_tensor (idx : Z)
| Call_get_signature_runner (method_name : string)
| Call_signature_runner (inputs : gmap string tensor)
| Call_Variable (initial_value : tensor).
Arguments Call_Interpreter {_ _} _.
Arguments Call_get_input_details {_ _}.
Arguments Call_get_output_details {_ _}.
Arguments Call_resize_tensor_input {_ _} _ _ _.
Arguments Call_allocate_tensors {_ _}.
Arguments Call_set_tensor {_ _} _ _.
Arguments Call_invoke {_ _}.
Arguments Call_get_tensor {_ _} _.
Arguments Call_get_signature_runner {_ _} _.
Arguments Call_signature_runner {_ _} _.
Arguments Call_Variable {_ _} _.

(** What a library call gave back, as far as the helpers can observe it:
    objects (interpreters, runners) are opaque. *)
Inductive retval (ndarray : Type) : Type :=
| R_none
| R_object
| R_details (ds : list detail)
| R_array (a : ndarray)
| R_dict (d : gmap string ndarray).
Arguments R_none {_}.
Arguments R_object {_}.
Arguments R_details {_} _.
Arguments R_array {_} _.
Arguments R_dict {_} _.

Inductive outcome (ndarray : Type) : Type :=
| Returned (v : retval ndarray)
| Raises (e : exn).
Arguments Returned {_} _.
Arguments Raises {_} _.

(** A log entry: the call and how it ended. *)
Record event (tensor ndarray : Type) : Type := Event {
  ev_call : call tensor ndarray;
  ev_outcome : outcome ndarray;
}.
Arguments Event {_ _} _ _.
Arguments ev_call {_ _} _.
Arguments ev_outcome {_ _} _.

(** A heap cell: an instance with its attribute dictionary, a variable
    with its current value, or an interpreter. *)
Inductive cell (tensor interp : Type) : Type :=
| Instance (attrs : gmap string value)
| VariableCell (v : tensor)
| InterpreterCell (i : interp).
Arguments Instance {_ _} _.
Arguments VariableCell {_ _} _.
Arguments InterpreterCell {_ _} _.

Record world (tensor ndarray interp : Type) : Type := mkWorld {
  heap : gmap loc (cell tensor interp);
  log : list (event tensor ndarray);
}.
Arguments mkWorld {_ _ _} _ _.
Arguments heap {_ _ _} _.
Arguments log {_ _ _} _.

Section ModelTest.
Context {tensor ndarray interp runner : Type}.
Context (L : Library tensor ndarray interp runner).

Local Abbreviation World := (world tensor ndarray interp).
Local Abbreviation Cell := (cell tensor interp).
Local Abbreviation Call := (call tensor ndarray).
Local Abbreviation Ev := (event tensor ndarray).

(** ** The monad of Python code: state and exceptions *)

Definition M (A : Type) : Type := World -> result A * World.

Definition ret {A} (a : A) : M A := fun w => (Ok a, w).

Definition raise {A} (e : exn) : M A := fun w => (Raised e, w).

Definition bind {A B} (m : M A) (k : A -> M B) : M B :=
  fun w =>
    match m w with
    | (Ok a, w') => k a w'
    | (Raised e, w') => (Raised e, w')
    end.

(** Python's [try: m except Exception as e: h e].  No helper of the file
    uses it; it is here so that "no local error handling" says something
    about the code and not about the monad. *)
Definition try_except {A} (m : M A) (h : exn -> M A) : M A :=
  fun w =>
    match m w with
    | (Ok a, w') => (Ok a, w')
    | (Raised e, w') => h e w'
    end.

Notation "x <- m ;; k" := (bind m (fun x => k))
  (at level 100, m at next level, right associativity).
Notation "m ;;; k" := (bind m (fun _ => k))
  (at level 100, right associativity).

(** [for x in xs: body x] *)
Fixpoint for_each {A} (xs : list A) (body : A -> M unit) : M unit :=
  match xs with
  | [] => ret tt
  | x :: xs' => body x ;;; for_each xs' body
  end.

(** [[f x for x in xs]] *)
Fixpoint comprehension {A B} (xs : list A) (f : A -> M B) : M (list B) :=
  match xs with
  | [] => ret []
  | x :: xs' => y <- f x ;; ys <- comprehension xs' f ;; ret (y :: ys)
  end.

(** [enumerate(xs)] *)
Fixpoint enumerate_from {A} (n : nat) (xs : list A) : list (nat * A) :=
  match xs with
  | [] => []
  | x :: xs' => (n, x) :: enumerate_from (S n) xs'
  end.
Definition enumerate {A} (xs : list A) : list (nat * A) :=
  enumerate_from 0 xs.

(** [xs[i]] for a non-negative [i] *)
Definition subscript {A} (xs : list A) (i : nat) : M A :=
  match xs !! i with
  | Some x => ret x
  | None => raise IndexError
  end.

(** Truth value of an optional list argument: [None] and [[]] are false. *)
Definition truthy {A} (o : option (list A)) : bool :=
  match o with
  | Some (_ :: _) => true
  | _ => false
  end.

(** *** Objects *)

Definition new_object (c : Cell) : M loc :=
  fun w =>
    let l := fresh (dom (heap w)) in
    (Ok l, mkWorld (<[l := c]> (heap w)) (log w)).

Definition getattr (o : loc) (name : string) : M value :=
  fun w =>
    match heap w !! o with
    | Some (Instance attrs) =>
        match attrs !! name with
        | Some v => (Ok v, w)
        | None => (Raised AttributeError, w)
        end
    | _ => (Raised AttributeError, w)
    end.

Definition setattr (o : loc) (name : string) (v : value) : M unit :=
  fun w =>
    match heap w !! o with
    | Some (Instance attrs) =>
        (Ok tt, mkWorld (<[o := Instance (<[name := v]> attrs)]> (heap w)) (log w))
    | _ => (Raised AttributeError, w)
    end.

(** *** unittest assertions *)

Definition assertTrue (self : loc) (b : bool) : M unit :=
  if b then ret tt else raise AssertionError.

Definition assertIn (self : loc) (x : string) (s : gset string) : M unit :=
  if decide (x ∈ s) then ret tt else raise AssertionError.

Definition assertNotIn (self : loc) (x : string) (s : gset string) : M unit :=
  if decide (x ∈ s) then raise AssertionError else ret tt.

(** *** Calls into the library *)

(** Run a library operation and log it with its outcome; [obs] is what
    of the returned value the log keeps. *)
Definition library {A} (c : Call) (obs : A -> retval ndarray)
    (r : result A) : M A :=
  fun w =>
    let o := match r with
             | Ok a => Returned (obs a)
             | Raised e => Raises e
             end in
    (r, mkWorld (heap w) (log w ++ [Event c o])).

Definition interp_state (interpreter : loc) : M interp :=
  fun w =>
    match heap w !! interpreter with
    | Some (InterpreterCell i) => (Ok i, w)
    | _ => (Raised AttributeError, w)
    end.

Definition store (l : loc) (c : Cell) : M unit :=
  fun w => (Ok tt, mkWorld (<[l := c]> (heap w)) (log w)).

(** A method that reads the interpreter. *)
Definition query {A} (interpreter : loc) (c : Call)
    (obs : A -> retval ndarray) (op : interp -> result A) : M A :=
  i <- interp_state interpreter ;;
  library c obs (op i).

(** A method that changes the interpreter. *)
Definition mutate (interpreter : loc) (c : Call)
    (op : interp -> result interp) : M unit :=
  i <- interp_state interpreter ;;
  i' <- library c (fun _ => R_none) (op i) ;;
  store interpreter (InterpreterCell i').

(** The address the next new object gets. *)
Definition next_address : M loc :=
  fun w => (Ok (fresh (dom (heap w))), w).

(** [Interpreter(model_content=...)]: the constructor runs on the memory
    of the object being made. *)
Definition Interpreter (model_content : bytes) : M loc :=
  l <- next_address ;;
  i <- library (Call_Interpreter model_content) (fun _ => R_object)
         (Interpreter_init L model_content l) ;;
  new_object (InterpreterCell i).

Definition get_input_details (interpreter : loc) : M (list detail) :=
  query interpreter Call_get_input_details R_details
    (Interpreter_get_input_details L).

Definition get_output_details (interpreter : loc) : M (list detail) :=
  query interpreter Call_get_output_details R_details
    (Interpreter_get_output_details L).

Definition resize_tensor_input (interpreter : loc) (idx : Z)
    (shape : list Z) (strict : bool) : M unit :=
  mutate interpreter (Call_resize_tensor_input idx shape strict)
    (Interpreter_resize_tensor_input L idx shape strict).

Definition allocate_tensors (interpreter : loc) : M unit :=
  mutate interpreter Call_allocate_tensors
    (Interpreter_allocate_tensors L).

Definition set_tensor (interpreter : loc) (idx : Z) (data : ndarray)
    : M unit :=
  mutate interpreter (Call_set_tensor idx data)
    (Interpreter_set_tensor L idx data).

Definition invoke (interpreter : loc) : M unit :=
  mutate interpreter Call_invoke (Interpreter_invoke L).

Definition get_tensor (interpreter : loc) (idx : Z) : M ndarray :=
  query interpreter (Call_get_tensor idx) R_array
    (Interpreter_get_tensor L idx).

(** [interpreter.get_signature_runner(name)]: a runner, which keeps a
    reference to its interpreter. *)
Definition get_signature_runner (interpreter : loc) (method_name : string)
    : M (loc * runner) :=
  r <- query interpreter (Call_get_signature_runner method_name)
         (fun _ => R_object)
         (Interpreter_get_signature_runner L method_name) ;;
  ret (interpreter, r).

(** The runner called with [inputs] unpacked as keyword arguments. *)
Definition signature_runner_call (signature_runner : loc * runner)
    (inputs : gmap string tensor) : M (gmap string ndarray) :=
  let '(interpreter, r) := signature_runner in
  i <- interp_state interpreter ;;
  out <- library (Call_signature_runner inputs)
           (fun out => R_dict (fst out))
           (SignatureRunner_call L r inputs i) ;;
  store interpreter (InterpreterCell (snd out)) ;;;
  ret (fst out).

(** [variables.Variable(initial_value)] *)
Definition tf_Variable (initial_value : tensor) : M value :=
  library (Call_Variable initial_value) (fun _ => R_object)
    (match Variable_init L initial_value with
     | None => Ok tt
     | Some e => Raised e
     end) ;;;
  l <- new_object (VariableCell initial_value) ;;
  ret (VRef l).

(** The value of a variable where an operator needs a tensor. *)
Definition read_value (v : value) : M tensor :=
  fun w =>
    match v with
    | VRef l =>
        match heap w !! l with
        | Some (VariableCell t) => (Ok t, w)
        | _ => (Raised TypeError, w)
        end
    | _ => (Raised TypeError, w)
    end.

(** [var.assign_add(x)] *)
Definition assign_add (v : value) (x : tensor) : M unit :=
  t <- read_value v ;;
  match v with
  | VRef l => store l (VariableCell (tensor_add L t x))
  | _ => raise TypeError
  end.

(** ** class ModelTest *)

(** [_evaluateTFLiteModel(self, tflite_model, input_data, input_shapes=None)] *)
Definition _evaluateTFLiteModel (self : loc) (tflite_model : bytes)
    (input_data : list tensor)
    (input_shapes : option (list (list Z * list Z))) : M (list ndarray) :=
  interpreter <- Interpreter tflite_model ;;
  input_details <- get_input_details interpreter ;;
  (if truthy input_shapes then
     for_each (enumerate (default [] input_shapes))
       (fun '(idx, (expected_signature, final_shape)) =>
          d <- subscript input_details idx ;;
          same <- (fun w => (np_eq_all (shape_signature d) expected_signature, w)) ;;
          assertTrue self same ;;;
          d' <- subscript input_details idx ;;
          resize_tensor_input interpreter (index d') final_shape true)
   else ret tt) ;;;
  allocate_tensors interpreter ;;;
  output_details <- get_output_details interpreter ;;
  input_details <- get_input_details interpreter ;;
  for_each (zip input_details input_data)
    (fun '(input_tensor, tensor_data) =>
       set_tensor interpreter (index input_tensor) (numpy L tensor_data)) ;;;
  invoke interpreter ;;;
  comprehension output_details
    (fun details => get_tensor interpreter (index details)).

(** [_evaluateTFLiteModelUsingSignatureDef(self, tflite_model, method_name,
    inputs)] *)
Definition _evaluateTFLiteModelUsingSignatureDef (self : loc)
    (tflite_model : bytes) (method_name : string)
    (inputs : gmap string tensor) : M (gmap string ndarray) :=
  interpreter <- Interpreter tflite_model ;;
  signature_runner <- get_signature_runner interpreter method_name ;;
  signature_runner_call signature_runner inputs.

(** [_getSimpleVariableModel(self)] *)
Definition _getSimpleVariableModel (self : loc) : M loc :=
  root <- new_object (Instance ∅) ;;
  v1 <- tf_Variable (convert_to_tensor L 3%float) ;;
  setattr root "v1" v1 ;;;
  v2 <- tf_Variable (convert_to_tensor L 2%float) ;;
  setattr root "v2" v2 ;;;
  setattr root "f" (VFunction (Lambda_f root)) ;;;
  ret root.

(** Calling a function object: the body of the lambda,
    [root.v1 * root.v2 * x], evaluated left to right. *)
Definition call_function (f : fn) (x : tensor) : M tensor :=
  match f with
  | Lambda_f root =>
      v1 <- getattr root "v1" ;;
      v2 <- getattr root "v2" ;;
      a <- read_value v1 ;;
      b <- read_value v2 ;;
      ret (tensor_mul L (tensor_mul L a b) x)
  end.

(** [obj.f(x)] for an attribute that holds a function object. *)
Definition call_attr (obj : loc) (name : string) (x : tensor) : M tensor :=
  f <- getattr obj name ;;
  match f with
  | VFunction f => call_function f x
  | _ => raise TypeError
  end.

(** [SimpleModelWithOneVariable.__init__(self)] *)
Definition SimpleModelWithOneVariable___init__ (self : loc) : M unit :=
  var <- tf_Variable (zeros L [1; 10] "var") ;;
  setattr self "var" var.

(** [SimpleModelWithOneVariable.assign_add(self, x)] *)
Definition SimpleModelWithOneVariable_assign_add (self : loc) (x : tensor)
    : M tensor :=
  var <- getattr self "var" ;;
  assign_add var x ;;;
  var <- getattr self "var" ;;
  read_value var.

(** [_getSimpleModelWithVariables(self)] *)
Definition _getSimpleModelWithVariables (self : loc) : M loc :=
  obj <- new_object (Instance ∅) ;;
  SimpleModelWithOneVariable___init__ obj ;;;
  ret obj.

(** [BasicModel.__init__(self)] *)
Definition BasicModel___init__ (self : loc) : M unit :=
  setattr self "y" VNone ;;;
  setattr self "z" VNone.

(** [BasicModel.add(self, x)] *)
Definition BasicModel_add (self : loc) (x : tensor) : M tensor :=
  y <- getattr self "y" ;;
  (if is_None y then
     v <- tf_Variable (convert_to_tensor L 2%float) ;;
     setattr self "y" v
   else ret tt) ;;;
  y <- getattr self "y" ;;
  y <- read_value y ;;
  ret (tensor_add L x y).

(** [BasicModel.sub(self, x)] *)
Definition BasicModel_sub (self : loc) (x : tensor) : M tensor :=
  z <- getattr self "z" ;;
  (if is_None z then
     v <- tf_Variable (convert_to_tensor L 3%float) ;;
     setattr self "z" v
   else ret tt) ;;;
  z <- getattr self "z" ;;
  z <- read_value z ;;
  ret (tensor_sub L x z).

(** [BasicModel.mul_add(self, x, y)] *)
Definition BasicModel_mul_add (self : loc) (x y : tensor) : M tensor :=
  z <- getattr self "z" ;;
  (if is_None z then
     v <- tf_Variable (convert_to_tensor L 3%float) ;;
     setattr self "z" v
   else ret tt) ;;;
  z <- getattr self "z" ;;
  z <- read_value z ;;
  ret (tensor_add L (tensor_mul L x z) y).

(** [_getMultiFunctionModel(self)] *)
Definition _getMultiFunctionModel (self : loc) : M loc :=
  obj <- new_object (Instance ∅) ;;
  BasicModel___init__ obj ;;;
  ret obj.

(** [_assertValidDebugInfo(self, debug_info)], on [debug_info.files] *)
Definition _assertValidDebugInfo (self : loc) (files : list string) : M unit :=
  let file_names :=
    foldl (fun (s : gset string) file_path => s ∪ {[ basename file_path ]})
      ∅ files in
  assertIn self "lite_v2_test.py" file_names ;;;
  assertNotIn self "lite_test.py" file_names.

End ModelTest.

Arguments M : clear implicits.

(** ** Using the returned models *)

Section Models.
Context {tensor ndarray interp runner : Type}.
Context (L : Library tensor ndarray interp runner).

Local Abbreviation World := (world tensor ndarray interp).
Local Abbreviation Ev := (event tensor ndarray).
Local Abbreviation Call := (call tensor ndarray).
Local Abbreviation Mon := (M tensor ndarray interp).

(** Whether a value is a reference to a variable. *)
Definition is_variable (w : world tensor ndarray interp) (v : value)
    : bool :=
  match v with
  | VRef l =>
      match heap w !! l with
      | Some (VariableCell _) => true
      | _ => false
      end
  | _ => false
  end.

(** The attributes of an object that hold a variable. *)
Definition variable_attrs (w : world tensor ndarray interp)
    (obj : loc) : gset string :=
  match heap w !! obj with
  | Some (Instance attrs) =>
      dom (filter (fun kv => is_variable w (snd kv) = true) attrs)
  | _ => ∅
  end.

(** The value of the variable an attribute refers to. *)
Definition variable_value (w : world tensor ndarray interp)
    (obj : loc) (name : string) : option tensor :=
  match heap w !! obj with
  | Some (Instance attrs) =>
      match attrs !! name with
      | Some (VRef l) =>
          match heap w !! l with
          | Some (VariableCell t) => Some t
          | _ => None
          end
      | _ => None
      end
  | _ => None
  end.

(** A call of one of the three traced methods of a [BasicModel]. *)
Inductive model_call : Type :=
| Do_add (x : tensor)
| Do_sub (x : tensor)
| Do_mul_add (x y : tensor).

Definition perform (obj : loc) (c : model_call)
    : M tensor ndarray interp tensor :=
  match c with
  | Do_add x => BasicModel_add L obj x
  | Do_sub x => BasicModel_sub L obj x
  | Do_mul_add x y => BasicModel_mul_add L obj x y
  end.

(** A client's use of the model: the calls one after the other. *)
Definition perform_all (obj : loc) (cs : list model_call)
    : M tensor ndarray interp (list tensor) :=
  comprehension cs (perform obj).

Definition is_add (c : model_call) : bool :=
  match c with Do_add _ => true | _ => false end.

Definition uses_z (c : model_call) : bool :=
  match c with Do_add _ => false | _ => true end.

(** What the specification says the calls return: [add(x) = x + 2.0],
    [sub(x) = x - 3.0], [mul_add(x, y) = x * 3.0 + y]. *)
Definition expected (c : model_call) : tensor :=
  match c with
  | Do_add x => tensor_add L x (convert_to_tensor L 2%float)
  | Do_sub x => tensor_sub L x (convert_to_tensor L 3%float)
  | Do_mul_add x y =>
      tensor_add L (tensor_mul L x (convert_to_tensor L 3%float)) y
  end.

(** The variable constructions the specification allows a sequence of
    calls: one for [y] at the first [add], one for [z] at the first [sub]
    or [mul_add], given which of the two exist already. *)
Fixpoint creations (have_y have_z : bool) (cs : list model_call)
    : list (call tensor ndarray) :=
  match cs with
  | [] => []
  | c :: cs' =>
      if is_add c then
        (if have_y then [] else [Call_Variable (convert_to_tensor L 2%float)])
        ++ creations true have_z cs'
      else
        (if have_z then [] else [Call_Variable (convert_to_tensor L 3%float)])
        ++ creations have_y true cs'
  end.

(** ** Vocabulary of the statements *)

(** The log entry of [set_tensor] for an input detail paired with a
    datum. *)
Definition set_event (p : detail * tensor) : Ev :=
  Event (Call_set_tensor (index (fst p)) (numpy L (snd p)))
    (Returned R_none).

(** The log entry of [get_tensor] on output [d] returning [v]. *)
Definition get_event (d : detail) (v : ndarray) : Ev :=
  Event (Call_get_tensor (index d)) (Returned (R_array v)).

(** The log entry of the strict resize of input [d]. *)
Definition resize_event (d : detail) (final_shape : list Z) : Ev :=
  Event (Call_resize_tensor_input (index d) final_shape true)
    (Returned R_none).

(** The log entry of a constructor call that returned. *)
Definition returned_object (c : Call) : Ev := Event c (Returned R_object).

(** Which call a log entry is of. *)
Definition is_set_tensor (ev : Ev) : bool :=
  match ev_call ev with Call_set_tensor _ _ => true | _ => false end.

Definition is_invoke (ev : Ev) : bool :=
  match ev_call ev with Call_invoke => true | _ => false end.

(** A computation lets library exceptions through when, in each of its
    runs, a logged call that raised is the last thing the run did and its
    exception is the run's result. *)
Definition uncaught {A} (m : Mon A) : Prop :=
  forall w r w', m w = (r, w') ->
  exists evs,
    log w' = log w ++ evs /\
    forall n ev e,
      evs !! n = Some ev -> ev_outcome ev = Raises e ->
      S n = length evs /\ r = Raised e.

(** Steps that log nothing. *)
Definition silent {A} (m : Mon A) : Prop :=
  forall w, log (snd (m w)) = log w.

(** [guards D m Q]: run from a heap that has the objects [D], [m] leaves
    each of them as it is, and a value it returns satisfies [Q]. *)
Definition guards (D : gset loc) {A} (m : Mon A) (Q : A -> Prop) : Prop :=
  forall w r w',
    D ⊆ dom (heap w) -> m w = (r, w') ->
    D ⊆ dom (heap w') /\
    (forall l, l ∈ D -> heap w' !! l = heap w !! l) /\
    (forall a, r = Ok a -> Q a).

(** The postcondition that asks nothing. *)
Definition anything {A} : A -> Prop := fun _ => True.

(** [obj] is an instance with no attribute besides [y] and [z]. *)
Definition basic_shape (obj : loc) (w : World) : Prop :=
  exists attrs,
    heap w !! obj = Some (Instance attrs) /\
    dom attrs ⊆ ({["y"; "z"]} : gset string).

(** [m] keeps it so. *)
Definition keeps_shape (obj : loc) {A} (m : Mon A) : Prop :=
  forall w r w', basic_shape obj w -> m w = (r, w') -> basic_shape obj w'.

(** The state of a [BasicModel]: which variables its [y] and [z] refer
    to, if any, and that they hold 2.0 and 3.0. *)
Definition model_state (obj : loc) (oy oz : option loc) (w : World) : Prop :=
  exists attrs,
    heap w !! obj = Some (Instance attrs) /\
    attrs !! "y" = Some (from_option VRef VNone oy) /\
    attrs !! "z" = Some (from_option VRef VNone oz) /\
    (forall l, oy = Some l ->
       heap w !! l = Some (VariableCell (convert_to_tensor L 2%float))) /\
    (forall l, oz = Some l ->
       heap w !! l = Some (VariableCell (convert_to_tensor L 3%float))).

(** Whether the variable exists. *)
Definition created (o : option loc) : bool :=
  match o with Some _ => true | None => false end.

(** [obj.name], if [obj] is an instance that has the attribute. *)
Definition object_attr (w : World) (obj : loc) (name : string)
    : option value :=
  match heap w !! obj with
  | Some (Instance attrs) => attrs !! name
  | _ => None
  end.

(** ** Vocabulary of the further properties *)

(** A client's use of a [SimpleModelWithOneVariable]: [assign_add] called
    with one tensor after the other. *)
Definition assign_all (obj : loc) (xs : list tensor) : Mon (list tensor) :=
  comprehension xs (SimpleModelWithOneVariable_assign_add L obj).

(** The sums a variable that starts at [acc] runs through. *)
Fixpoint running_sums (acc : tensor) (xs : list tensor) : list tensor :=
  match xs with
  | [] => []
  | x :: xs' => tensor_add L acc x :: running_sums (tensor_add L acc x) xs'
  end.

(** The initial value of the variable a method of [BasicModel] needs. *)
Definition needed_value (c : model_call) : tensor :=
  if is_add c then convert_to_tensor L 2%float
  else convert_to_tensor L 3%float.

(** Which of the two variables that is. *)
Definition needed_slot (c : model_call) (oy oz : option loc) : option loc :=
  if is_add c then oy else oz.

(** Whether a log entry is of a resize. *)
Definition is_resize (ev : Ev) : bool :=
  match ev_call ev with
  | Call_resize_tensor_input _ _ _ => true
  | _ => false
  end.

(** ** The calls of [_evaluateTFLiteModel] as a function of the library

    A trace is what a sequence of library calls comes to: its result, and
    the log entries of the calls that were made.  There are no objects
    here and no heap: an interpreter is its state, handed from each call
    to the next. *)
Definition trace (A : Type) : Type := (result A * list Ev)%type.

(** One call: its outcome is its result and its log entry. *)
Definition called {A} (c : Call) (obs : A -> retval ndarray) (r : result A)
    : trace A :=
  (r, [Event c match r with
               | Ok a => Returned (obs a)
               | Raised e => Raises e
               end]).

(** One sequence after the other.  What the first raises ends both: a
    trace has no way to handle an exception. *)
Definition andthen {A B} (t : trace A) (k : A -> trace B) : trace B :=
  match fst t with
  | Ok a => (fst (k a), snd t ++ snd (k a))
  | Raised e => (Raised e, snd t)
  end.

(** Feeding the inputs: [set_tensor] for one pair after the other, each
    on the state the one before left. *)
Fixpoint fed (pairs : list (detail * tensor)) (i : interp) : trace interp :=
  match pairs with
  | [] => (Ok i, [])
  | p :: pairs' =>
      andthen
        (called (Call_set_tensor (index (fst p)) (numpy L (snd p)))
           (fun _ => R_none)
           (Interpreter_set_tensor L (index (fst p)) (numpy L (snd p)) i))
        (fed pairs')
  end.

(** Reading the outputs: [get_tensor] for one output detail after the
    other, all on the same state. *)
Fixpoint read_outputs (ds : list detail) (i : interp)
    : trace (list ndarray) :=
  match ds with
  | [] => (Ok [], [])
  | d :: ds' =>
      andthen
        (called (Call_get_tensor (index d)) R_array
           (Interpreter_get_tensor L (index d) i))
        (fun v =>
           andthen (read_outputs ds' i) (fun vs => (Ok (v :: vs), [])))
  end.

(** The [input_shapes] entries from position [n] on: the detail at the
    position is looked up, its signature compared with the expected one,
    and the tensor under the detail's index resized, strictly. *)
Fixpoint resized (ins : list detail) (n : nat)
    (shapes : list (list Z * list Z)) (i : interp) : trace interp :=
  match shapes with
  | [] => (Ok i, [])
  | sf :: shapes' =>
      match ins !! n with
      | None => (Raised IndexError, [])
      | Some d =>
          match np_eq_all (shape_signature d) (fst sf) with
          | Raised e => (Raised e, [])
          | Ok false => (Raised AssertionError, [])
          | Ok true =>
              andthen
                (called (Call_resize_tensor_input (index d) (snd sf) true)
                   (fun _ => R_none)
                   (Interpreter_resize_tensor_input L (index d) (snd sf)
                      true i))
                (resized ins (S n) shapes')
          end
      end
  end.

(** Invoking, and reading the outputs off the state [invoke] left. *)
Definition invoked (outs_d : list detail) (i : interp)
    : trace (list ndarray * interp) :=
  andthen (called Call_invoke (fun _ => R_none) (Interpreter_invoke L i))
    (fun i3 =>
       andthen (read_outputs outs_d i3) (fun outs => (Ok (outs, i3), []))).

(** What follows the resizing: allocate, ask for the details, feed,
    invoke, read. *)
Definition evaluation (data : list tensor) (i : interp)
    : trace (list ndarray * interp) :=
  andthen (called Call_allocate_tensors (fun _ => R_none)
             (Interpreter_allocate_tensors L i))
    (fun i1 =>
  andthen (called Call_get_output_details R_details
             (Interpreter_get_output_details L i1))
    (fun outs_d =>
  andthen (called Call_get_input_details R_details
             (Interpreter_get_input_details L i1))
    (fun ins =>
  andthen (fed (zip ins data) i1) (invoked outs_d)))).

(** The whole call, for an interpreter made at address [l]: what is
    returned (with the state the interpreter is left in) or raised, and
    the calls made. *)
Definition evaluate_calls (l : loc) (model : bytes) (data : list tensor)
    (shapes : list (list Z * list Z)) : trace (list ndarray * interp) :=
  andthen (called (Call_Interpreter model) (fun _ => R_object)
             (Interpreter_init L model l))
    (fun i0 =>
  andthen (called Call_get_input_details R_details
             (Interpreter_get_input_details L i0))
    (fun ins0 =>
  andthen (resized ins0 0 shapes i0) (evaluation data))).

(** A log entry of a call that returned. *)
Definition returned (ev : Ev) : Prop :=
  exists v, ev_outcome ev = Returned v.

(** A trace of library calls alone: all of its calls returned, or all
    but the last, which raised what the trace raises. *)
Definition ends_at_raise {A} (t : trace A) : Prop :=
  match fst t with
  | Ok _ => Forall returned (snd t)
  | Raised e =>
      exists (evs : list Ev) (c : Call),
        snd t = evs ++ [Event c (Raises e)] /\ Forall returned evs
  end.

End Models.
Arguments model_call : clear implicits.

(** ** A small concrete library

    Tensors and arrays are double-precision scalars.  An interpreter is
    loaded with fixed input and output details and runs a model that adds
    its inputs up: [invoke] writes their sum to every output tensor.  A
    tensor nobody has written reads as what the interpreter's memory held
    when it was loaded.  The exceptions are the classes the interpreter
    raises: [ValueError] for an index that is no tensor of the model and
    for a signature the model does not have, [RuntimeError] for a resize
    the model refuses.  The toy model refuses a strict resize unless the
    new shape has the rank of the tensor's signature, agrees with it on
    every known dimension and gives a size that is not negative for every
    unknown one ([-1]); a real model may refuse more. *)

Record toy_interp : Type := ToyInterp {
  toy_inputs : list detail;
  toy_outputs : list detail;
  toy_memory : Z -> float;          (* what unwritten tensors read as *)
  toy_tensors : gmap Z float;       (* the tensors written so far *)
}.

Fixpoint resizable (signature shape : list Z) : bool :=
  match signature, shape with
  | [], [] => true
  | s :: signature', n :: shape' =>
      (((s =? -1) && (0 <=? n)) || (s =? n)) && resizable signature' shape'
  | _, _ => false
  end.

Definition has_index (idx : Z) (ds : list detail) : bool :=
  existsb (fun d => index d =? idx) ds.

Definition is_tensor (idx : Z) (i : toy_interp) : bool :=
  has_index idx (toy_inputs i) || has_index idx (toy_outputs i).

Definition toy_resize (idx : Z) (shape : list Z) (strict : bool)
    (i : toy_interp) : result toy_interp :=
  match List.find (fun d => index d =? idx) (toy_inputs i) with
  | None =>
      if is_tensor idx i then Raised RuntimeError else Raised ValueError
  | Some d =>
      if strict && negb (resizable (shape_signature d) shape)
      then Raised RuntimeError
      else Ok i
  end.

(** What tensor [idx] reads as. *)
Definition toy_read (i : toy_interp) (idx : Z) : float :=
  default (toy_memory i idx) (toy_tensors i !! idx).

Definition toy_write (idx : Z) (v : float) (i : toy_interp) : toy_interp :=
  ToyInterp (toy_inputs i) (toy_outputs i) (toy_memory i)
    (<[idx := v]> (toy_tensors i)).

Definition toy_invoke (i : toy_interp) : result toy_interp :=
  let total :=
    fold_left (fun acc d => PrimFloat.add acc (toy_read i (index d)))
      (toy_inputs i) 0%float in
  Ok (fold_left (fun i' d => toy_write (index d) total i') (toy_outputs i) i).

Definition toy_library (ins outs : list detail) (signatures : list string)
    (memory : loc -> Z -> float) (variable_exn : option exn)
    : Library float float toy_interp string := {|
  Interpreter_init := fun _ l => Ok (ToyInterp ins outs (memory l) ∅);
  Interpreter_get_input_details := fun i => Ok (toy_inputs i);
  Interpreter_get_output_details := fun i => Ok (toy_outputs i);
  Interpreter_resize_tensor_input := toy_resize;
  Interpreter_allocate_tensors := fun i => Ok i;
  Interpreter_set_tensor := fun idx v i =>
    if is_tensor idx i then Ok (toy_write idx v i) else Raised ValueError;
  Interpreter_invoke := toy_invoke;
  Interpreter_get_tensor := fun idx i =>
    if is_tensor idx i then Ok (toy_read i idx) else Raised ValueError;
  Interpreter_get_signature_runner := fun name _ =>
    if existsb (String.eqb name) signatures then Ok name
    else Raised ValueError;
  SignatureRunner_call := fun _ inputs i => Ok (inputs, i);
  Variable_init := fun _ => variable_exn;
  numpy := fun t => t;
  convert_to_tensor := fun x => x;
  zeros := fun _ _ => 0%float;
  tensor_add := PrimFloat.add;
  tensor_sub := PrimFloat.sub;
  tensor_mul := PrimFloat.mul;
|}.

(** Memory that differs from one address to the next: the tensor with
    index [idx] of the interpreter at address [l] reads, unwritten, as the
    number [l + idx]. *)
Fixpoint float_of_pos (p : positive) : float :=
  match p with
  | xH => 1%float
  | xO p' => PrimFloat.mul 2%float (float_of_pos p')
  | xI p' => PrimFloat.add (PrimFloat.mul 2%float (float_of_pos p')) 1%float
  end.

Definition float_of_Z (z : Z) : float :=
  match z with
  | Z0 => 0%float
  | Zpos p => float_of_pos p
  | Zneg p => PrimFloat.opp (float_of_pos p)
  end.

Definition stale (l : loc) (idx : Z) : float := float_of_Z (Zpos l + idx).

(** A model with two inputs and one output. *)
Definition two_inputs : list detail := [Detail 0 [1; 4]; Detail 1 [3]].
Definition one_output : list detail := [Detail 2 [1]].
Definition toy : Library float float toy_interp string :=
  toy_library two_inputs one_output ["serving_default"] stale None.

(** The interpreter [toy] loads at address 2, the first free address of
    [world0] below. *)
Definition toy_loaded : toy_interp :=
  ToyInterp two_inputs one_output (stale 2%positive) ∅.

(** A model whose input has the signature [[1, 1]]. *)
Definition toy_square : Library float float toy_interp string :=
  toy_library [Detail 0 [1; 1]] [Detail 1 []] ["serving_default"] stale None.

(** A library whose variable constructor raises. *)
Definition toy_no_variables : Library float float toy_interp string :=
  toy_library [] [] [] stale (Some RuntimeError).

(** The empty world with the test instance at address 1. *)
Definition world0 : world float float toy_interp :=
  mkWorld {[ 1%positive := Instance ∅ ]} [].

(** * Verification *)

(** ** numpy comparison and basenames *)

Lemma all_eq2_true (a b : list Z) :
  length a = length b -> (all_eq2 a b = true <-> a = b).
Proof.
  revert b; induction a as [|x a IH]; intros [|y b] Hlen; simpl in *;
    try discriminate; [tauto|].
  rewrite andb_true_iff, Z.eqb_eq, IH by lia.
  split; [intros [-> ->]; reflexivity | intros [= -> ->]; auto].
Qed.

(** Signatures of the same length that differ fail the check. *)
Lemma np_eq_all_differ (a b : list Z) :
  length a = length b -> a <> b -> np_eq_all a b = Ok false.
Proof.
  intros Hlen Hne. unfold np_eq_all.
  rewrite (proj2 (Nat.eqb_eq _ _) Hlen). f_equal.
  destruct (all_eq2 a b) eqn:E; [|reflexivity].
  apply all_eq2_true in E; [contradiction | assumption].
Qed.

Lemma np_eq_all_same (a : list Z) : np_eq_all a a = Ok true.
Proof.
  unfold np_eq_all. rewrite Nat.eqb_refl. f_equal.
  apply all_eq2_true; reflexivity.
Qed.

(** Broadcasting lets signatures that differ pass the check. *)
Example np_eq_all_broadcast : np_eq_all [1; 1] [1] = Ok true.
Proof. reflexivity. Qed.

Example np_eq_all_ranks : np_eq_all [1; 2] [1; 2; 3] = Raised AttributeError.
Proof. reflexivity. Qed.

Example basename_nested : basename "tensorflow/lite/python/lite_v2_test.py" = "lite_v2_test.py".
Proof. reflexivity. Qed.

Example basename_bare : basename "lite_test.py" = "lite_test.py".
Proof. reflexivity. Qed.

Example basename_directory : basename "tensorflow/lite/" = "".
Proof. reflexivity. Qed.

(** The loop of [_assertValidDebugInfo] collects the set of basenames. *)
Lemma file_names_fold (files : list string) (acc : gset string) :
  foldl (fun (s : gset string) file_path => s ∪ {[ basename file_path ]})
    acc files
  = acc ∪ list_to_set (basename <$> files).
Proof.
  revert acc; induction files as [|p files IH]; intros acc; simpl.
  - set_solver.
  - rewrite IH. set_solver.
Qed.

Section Proofs.
Context {tensor ndarray interp runner : Type}.
Context (L : Library tensor ndarray interp runner).

Local Abbreviation World := (world tensor ndarray interp).
Local Abbreviation Ev := (event tensor ndarray).
Local Abbreviation Call := (call tensor ndarray).
Local Abbreviation Mon := (M tensor ndarray interp).

(** ** C3: the debug-info assertion *)

(** C3.  For every list of source file paths, [_assertValidDebugInfo]
    returns normally exactly when the set of their basenames contains
    [lite_v2_test.py] and does not contain [lite_test.py]; in every other
    case it raises [AssertionError].  The world is left as it was. *)
Theorem assertValidDebugInfo_iff (self : loc) (files : list string) (w : World) :
  let file_names : gset string := list_to_set (basename <$> files) in
  let valid := "lite_v2_test.py" ∈ file_names /\ "lite_test.py" ∉ file_names in
  (_assertValidDebugInfo self files w = (Ok tt, w) <-> valid) /\
  (~ valid -> _assertValidDebugInfo self files w = (Raised AssertionError, w)).
Proof.
  cbv zeta. unfold _assertValidDebugInfo.
  rewrite file_names_fold, (left_id_L ∅ (∪)).
  set (names := list_to_set (basename <$> files) : gset string).
  unfold bind, assertIn, assertNotIn, ret, raise.
  destruct (decide ("lite_v2_test.py" ∈ names)) as [Hin|Hin];
    destruct (decide ("lite_test.py" ∈ names)) as [Hold|Hold]; simpl.
  - split; [split; [intros [=] | tauto] | reflexivity].
  - split; [tauto | tauto].
  - split; [split; [intros [=] | tauto] | reflexivity].
  - split; [split; [intros [=] | tauto] | reflexivity].
Qed.

(** ** Stepping through interpreter calls *)

Lemma world_eta (w : World) : mkWorld (heap w) (log w) = w.
Proof. destruct w; reflexivity. Qed.

Lemma query_at {A} (l : loc) (c : Call) (obs : A -> retval ndarray)
    (op : interp -> result A) (w : World) (i : interp) :
  heap w !! l = Some (InterpreterCell i) ->
  query l c obs op w =
    (op i,
     mkWorld (heap w)
       (log w ++ [Event c match op i with
                          | Ok a => Returned (obs a)
                          | Raised e => Raises e
                          end])).
Proof.
  intros H. unfold query, bind, interp_state, library. rewrite H. reflexivity.
Qed.

Lemma mutate_at (l : loc) (c : Call) (op : interp -> result interp)
    (w : World) (i : interp) :
  heap w !! l = Some (InterpreterCell i) ->
  mutate l c op w =
    match op i with
    | Ok i' =>
        (Ok tt,
         mkWorld (<[l := InterpreterCell i']> (heap w))
           (log w ++ [Event c (Returned R_none)]))
    | Raised e =>
        (Raised e, mkWorld (heap w) (log w ++ [Event c (Raises e)]))
    end.
Proof.
  intros H. unfold mutate, bind, interp_state, library, store. rewrite H.
  destruct (op i); reflexivity.
Qed.

Notation "x <- m ;; k" := (bind m (fun x => k))
  (at level 100, m at next level, right associativity).
Notation "m ;;; k" := (bind m (fun _ => k))
  (at level 100, right associativity).

Local Abbreviation Trace := (@trace tensor ndarray).

Lemma zip_with_nil_r {A B C} (f : A -> B -> C) (l : list A) :
  zip_with f l [] = [].
Proof. destruct l; reflexivity. Qed.

(** ** Traces *)

Lemma andthen_called_Ok {A B} (c : Call) (obs : A -> retval ndarray) (a : A)
    (k : A -> Trace B) :
  andthen (called c obs (Ok a)) k
  = (fst (k a), Event c (Returned (obs a)) :: snd (k a)).
Proof. reflexivity. Qed.

Lemma andthen_called_Raised {A B} (c : Call) (obs : A -> retval ndarray)
    (e : exn) (k : A -> Trace B) :
  andthen (called c obs (Raised e)) k = (Raised e, [Event c (Raises e)]).
Proof. reflexivity. Qed.

Lemma andthen_Ok {A B} (t : Trace A) (k : A -> Trace B) (a : A) :
  fst t = Ok a -> andthen t k = (fst (k a), snd t ++ snd (k a)).
Proof. intros H. unfold andthen. rewrite H. reflexivity. Qed.

Lemma andthen_Raised {A B} (t : Trace A) (k : A -> Trace B) (e : exn) :
  fst t = Raised e -> andthen t k = (Raised e, snd t).
Proof. intros H. unfold andthen. rewrite H. reflexivity. Qed.

(** A sequence returns only if its first part did. *)
Lemma andthen_inv {A B} (t : Trace A) (k : A -> Trace B) (b : B) :
  fst (andthen t k) = Ok b ->
  exists a, fst t = Ok a /\ fst (k a) = Ok b /\
            snd (andthen t k) = snd t ++ snd (k a).
Proof.
  unfold andthen. destruct (fst t) as [a|e]; simpl; [eauto | discriminate].
Qed.

(** What feeding comes to: every pair is set, in order, or the pairs before
    some position are and the call for the pair at that position raises. *)
Lemma fed_spec (pairs : list (detail * tensor)) :
  forall i : interp,
  match fst (fed L pairs i) with
  | Ok i' => snd (fed L pairs i) = map (set_event L) pairs
  | Raised e =>
      exists k p ik,
        pairs !! k = Some p /\
        fst (fed L (take k pairs) i) = Ok ik /\
        Interpreter_set_tensor L (index (fst p)) (numpy L (snd p)) ik
        = Raised e /\
        snd (fed L pairs i)
        = map (set_event L) (take k pairs)
          ++ [Event (Call_set_tensor (index (fst p)) (numpy L (snd p)))
                (Raises e)]
  end.
Proof.
  induction pairs as [|p pairs IH]; intros i; [reflexivity|].
  cbn [fed].
  destruct (Interpreter_set_tensor L (index (fst p)) (numpy L (snd p)) i)
    as [i1|e] eqn:E.
  - rewrite andthen_called_Ok. cbn [fst snd]. specialize (IH i1).
    destruct (fst (fed L pairs i1)) as [i2|e].
    + rewrite IH. reflexivity.
    + destruct IH as (k & q & ik & Hq & Hk & Hraise & Hevs).
      exists (S k), q, ik. split; [exact Hq|].
      cbn [take fed]. rewrite E, andthen_called_Ok. cbn [fst snd].
      split; [exact Hk|]. split; [exact Hraise|].
      rewrite Hevs. reflexivity.
  - rewrite andthen_called_Raised. cbn [fst snd].
    exists 0%nat, p, i. repeat split; [exact E].
Qed.

(** What reading the outputs comes to. *)
Lemma read_outputs_spec (ds : list detail) (i : interp) :
  match fst (read_outputs L ds i) with
  | Ok outs =>
      Forall2 (fun d v => Interpreter_get_tensor L (index d) i = Ok v)
        ds outs /\
      snd (read_outputs L ds i) = zip_with get_event ds outs
  | Raised e =>
      exists k d vs,
        ds !! k = Some d /\
        Forall2 (fun d v => Interpreter_get_tensor L (index d) i = Ok v)
          (take k ds) vs /\
        Interpreter_get_tensor L (index d) i = Raised e /\
        snd (read_outputs L ds i)
        = zip_with get_event (take k ds) vs
          ++ [Event (Call_get_tensor (index d)) (Raises e)]
  end.
Proof.
  induction ds as [|d ds IH]; [split; [constructor | reflexivity]|].
  cbn [read_outputs].
  destruct (Interpreter_get_tensor L (index d) i) as [v|e] eqn:E.
  - rewrite andthen_called_Ok. cbn [fst snd]. unfold andthen.
    destruct (fst (read_outputs L ds i)) as [vs|e]; cbn [fst snd].
    + destruct IH as [HF Hevs]. split; [constructor; assumption|].
      rewrite Hevs, app_nil_r. reflexivity.
    + destruct IH as (k & d' & vs & Hd' & HF & Hraise & Hevs).
      exists (S k), d', (v :: vs). split; [exact Hd'|].
      split; [constructor; assumption|]. split; [exact Hraise|].
      rewrite Hevs. reflexivity.
  - rewrite andthen_called_Raised. cbn [fst snd].
    exists 0%nat, d, []. repeat split; [constructor | exact E].
Qed.

Lemma read_outputs_Ok (ds : list detail) (i : interp) (outs : list ndarray) :
  Forall2 (fun d v => Interpreter_get_tensor L (index d) i = Ok v) ds outs ->
  read_outputs L ds i = (Ok outs, zip_with get_event ds outs).
Proof.
  induction 1 as [|d v ds outs Hd _ IH]; [reflexivity|].
  cbn [read_outputs]. rewrite Hd, andthen_called_Ok, IH.
  unfold andthen. cbn [fst snd]. rewrite app_nil_r. reflexivity.
Qed.

(** What the [input_shapes] loop comes to: the first [k] positions pass
    their check and are resized, each on the state the one before left;
    then the loop is done, or stops at position [k] for one of four
    reasons. *)
Lemma resized_spec (ins : list detail) (shapes : list (list Z * list Z)) :
  forall (n : nat) (i : interp),
  exists k ik,
    let resizes :=
      zip_with (fun d sf => resize_event d (snd sf))
        (drop n ins) (take k shapes) in
    (k <= length shapes)%nat /\
    resized L ins n (take k shapes) i = (Ok ik, resizes) /\
    (forall j sj, (j < k)%nat -> shapes !! j = Some sj ->
       exists dj, ins !! (n + j)%nat = Some dj /\
                  np_eq_all (shape_signature dj) (fst sj) = Ok true) /\
    match fst (resized L ins n shapes i) with
    | Ok i' =>
        k = length shapes /\ i' = ik /\
        snd (resized L ins n shapes i) = resizes
    | Raised e =>
        exists sk, shapes !! k = Some sk /\
          ((ins !! (n + k)%nat = None /\ e = IndexError /\
            snd (resized L ins n shapes i) = resizes) \/
           exists dk, ins !! (n + k)%nat = Some dk /\
             ((np_eq_all (shape_signature dk) (fst sk) = Raised e /\
               snd (resized L ins n shapes i) = resizes) \/
              (np_eq_all (shape_signature dk) (fst sk) = Ok false /\
               e = AssertionError /\
               snd (resized L ins n shapes i) = resizes) \/
              (np_eq_all (shape_signature dk) (fst sk) = Ok true /\
               Interpreter_resize_tensor_input L (index dk) (snd sk) true ik
               = Raised e /\
               snd (resized L ins n shapes i)
               = resizes
                 ++ [Event (Call_resize_tensor_input (index dk) (snd sk) true)
                       (Raises e)])))
    end.
Proof.
  induction shapes as [|sf shapes IH]; intros n i; cbv zeta.
  - exists 0%nat, i. simpl. rewrite zip_with_nil_r.
    split; [lia|]. split; [reflexivity|]. split; [intros; lia | auto].
  - cbn [resized].
    destruct (ins !! n) as [d|] eqn:Hd.
    2:{ exists 0%nat, i. simpl. rewrite zip_with_nil_r, Nat.add_0_r.
        split; [lia|]. split; [reflexivity|]. split; [intros; lia|].
        exists sf. split; [reflexivity|]. left. auto. }
    destruct (np_eq_all (shape_signature d) (fst sf)) as [[|]|e] eqn:Hcmp.
    3:{ exists 0%nat, i. simpl. rewrite zip_with_nil_r, Nat.add_0_r.
        split; [lia|]. split; [reflexivity|]. split; [intros; lia|].
        exists sf. split; [reflexivity|]. right. exists d.
        split; [exact Hd|]. left. auto. }
    2:{ exists 0%nat, i. simpl. rewrite zip_with_nil_r, Nat.add_0_r.
        split; [lia|]. split; [reflexivity|]. split; [intros; lia|].
        exists sf. split; [reflexivity|]. right. exists d.
        split; [exact Hd|]. right; left. auto. }
    destruct (Interpreter_resize_tensor_input L (index d) (snd sf) true i)
      as [i1|e] eqn:Hres.
    2:{ rewrite andthen_called_Raised.
        exists 0%nat, i. simpl. rewrite zip_with_nil_r, Nat.add_0_r.
        split; [lia|]. split; [reflexivity|]. split; [intros; lia|].
        exists sf. split; [reflexivity|]. right. exists d.
        split; [exact Hd|]. right; right. auto. }
    rewrite andthen_called_Ok. cbn [fst snd].
    destruct (IH (S n) i1) as (k & ik & Hk & Htake & Hpass & Hr).
    cbv zeta in Hk, Htake, Hpass, Hr.
    exists (S k), ik. cbn [take length].
    rewrite (drop_S _ _ _ Hd). cbn [zip_with].
    fold (resize_event d (snd sf) : Ev).
    split; [lia|]. split.
    { cbn [resized]. rewrite Hd, Hcmp, Hres, andthen_called_Ok, Htake.
      reflexivity. }
    split.
    { intros [|j] sj Hj Hsj; simpl in Hsj.
      - injection Hsj as <-. exists d. rewrite Nat.add_0_r. auto.
      - rewrite Nat.add_succ_r. apply Hpass; [lia | exact Hsj]. }
    rewrite Nat.add_succ_r.
    destruct (fst (resized L ins (S n) shapes i1)) as [i'|e].
    + destruct Hr as (-> & -> & ->). auto.
    + destruct Hr as (sk & Hsk & Hcase). exists sk. split; [exact Hsk|].
      destruct Hcase
        as [(Hn & -> & ->)
           | (dk & Hdk & [(Hc & ->) | [(Hc & -> & ->) | (Hc & Hraise & ->)]])];
        eauto 10.
Qed.

(** Traces of library calls alone end at the call that raised. *)
Lemma ends_called {A} (c : Call) (obs : A -> retval ndarray) (r : result A) :
  ends_at_raise (called c obs r).
Proof.
  unfold ends_at_raise. destruct r as [a|e]; simpl.
  - repeat constructor. eexists; reflexivity.
  - exists [], c. split; [reflexivity | constructor].
Qed.

Lemma ends_andthen {A B} (t : Trace A) (k : A -> Trace B) :
  ends_at_raise t -> (forall a, ends_at_raise (k a)) ->
  ends_at_raise (andthen t k).
Proof.
  unfold ends_at_raise, andthen. intros Ht Hk.
  destruct (fst t) as [a|e]; cbn [fst snd]; [|exact Ht].
  specialize (Hk a). destruct (fst (k a)) as [b|e].
  - apply Forall_app; auto.
  - destruct Hk as (evs & c & -> & Hevs).
    exists (snd t ++ evs), c. rewrite app_assoc.
    split; [reflexivity | apply Forall_app; auto].
Qed.

Lemma ends_pure {A} (a : A) : ends_at_raise ((Ok a, []) : Trace A).
Proof. constructor. Qed.

Lemma ends_fed (pairs : list (detail * tensor)) :
  forall i, ends_at_raise (fed L pairs i).
Proof.
  induction pairs as [|p pairs IH]; intros i; [apply ends_pure|].
  cbn [fed]. apply ends_andthen; [apply ends_called | exact IH].
Qed.

Lemma ends_read_outputs (ds : list detail) (i : interp) :
  ends_at_raise (read_outputs L ds i).
Proof.
  induction ds as [|d ds IH]; [apply ends_pure|].
  cbn [read_outputs]. apply ends_andthen; [apply ends_called | intros v].
  apply ends_andthen; [exact IH | intros vs; apply ends_pure].
Qed.

Lemma ends_invoked (outs_d : list detail) (i : interp) :
  ends_at_raise (invoked L outs_d i).
Proof.
  unfold invoked. apply ends_andthen; [apply ends_called | intros i3].
  apply ends_andthen; [apply ends_read_outputs | intros; apply ends_pure].
Qed.

Lemma ends_evaluation (data : list tensor) (i : interp) :
  ends_at_raise (evaluation L data i).
Proof.
  unfold evaluation.
  apply ends_andthen; [apply ends_called | intros i1].
  apply ends_andthen; [apply ends_called | intros outs_d].
  apply ends_andthen; [apply ends_called | intros ins].
  apply ends_andthen; [apply ends_fed | intros i2; apply ends_invoked].
Qed.

(** ** The code against the traces *)

(** The loop that feeds the inputs. *)
Lemma feed_refines (l : loc) (pairs : list (detail * tensor)) :
  forall (w : World) (i : interp),
  heap w !! l = Some (InterpreterCell i) ->
  exists i',
    for_each pairs
      (fun '(input_tensor, tensor_data) =>
         set_tensor L l (index input_tensor) (numpy L tensor_data)) w
    = (result_map (fun _ => tt) (fst (fed L pairs i)),
       mkWorld (<[l := InterpreterCell i']> (heap w))
         (log w ++ snd (fed L pairs i))) /\
    (forall i2, fst (fed L pairs i) = Ok i2 -> i' = i2).
Proof.
  induction pairs as [|[d x] pairs IH]; intros w i Hl.
  - exists i. simpl. rewrite insert_id, app_nil_r, world_eta by exact Hl.
    split; [reflexivity | intros i2 [= <-]; reflexivity].
  - cbn [for_each fed fst snd]. unfold bind at 1.
    rewrite (mutate_at l _ (Interpreter_set_tensor L (index d) (numpy L x))
               w i Hl
             : set_tensor L l (index d) (numpy L x) w = _).
    destruct (Interpreter_set_tensor L (index d) (numpy L x) i) as [i1|e].
    + rewrite andthen_called_Ok. cbn [fst snd].
      set (w1 := mkWorld _ _).
      destruct (IH w1 i1 (lookup_insert_eq _ _ _)) as (i' & Hrun & Hi').
      exists i'. rewrite Hrun. subst w1. cbn [heap log].
      rewrite insert_insert_eq, <- app_assoc.
      split; [reflexivity | exact Hi'].
    + rewrite andthen_called_Raised. cbn [fst snd result_map].
      exists i. rewrite insert_id by exact Hl.
      split; [reflexivity | discriminate].
Qed.

(** The comprehension that reads the outputs. *)
Lemma read_refines (l : loc) (ds : list detail) :
  forall (w : World) (i : interp),
  heap w !! l = Some (InterpreterCell i) ->
  comprehension ds (fun details => get_tensor L l (index details)) w
  = (fst (read_outputs L ds i),
     mkWorld (heap w) (log w ++ snd (read_outputs L ds i))).
Proof.
  induction ds as [|d ds IH]; intros w i Hl.
  - simpl. rewrite app_nil_r, world_eta. reflexivity.
  - cbn [comprehension read_outputs]. unfold bind at 1.
    rewrite (query_at l _ R_array (Interpreter_get_tensor L (index d)) w i Hl
             : get_tensor L l (index d) w = _).
    destruct (Interpreter_get_tensor L (index d) i) as [v|e].
    + rewrite andthen_called_Ok. cbn [fst snd].
      set (w1 := mkWorld _ _). unfold bind at 1.
      rewrite (IH w1 i Hl). unfold andthen.
      destruct (fst (read_outputs L ds i)) as [vs|e];
        subst w1; cbn [fst snd heap log ret];
        rewrite ?app_nil_r, <- app_assoc; reflexivity.
    + rewrite andthen_called_Raised. reflexivity.
Qed.

(** The loop over [input_shapes], started at position [n]. *)
Lemma shape_refines (self l : loc) (ins : list detail) :
  forall (shapes : list (list Z * list Z)) (n : nat) (w : World) (i : interp),
  heap w !! l = Some (InterpreterCell i) ->
  exists i',
    for_each (enumerate_from n shapes)
      (fun '(idx, (expected_signature, final_shape)) =>
         d <- subscript ins idx ;;
         same <- (fun w => (np_eq_all (shape_signature d) expected_signature, w)) ;;
         assertTrue self same ;;;
         d' <- subscript ins idx ;;
         resize_tensor_input L l (index d') final_shape true) w
    = (result_map (fun _ => tt) (fst (resized L ins n shapes i)),
       mkWorld (<[l := InterpreterCell i']> (heap w))
         (log w ++ snd (resized L ins n shapes i))) /\
    (forall i2, fst (resized L ins n shapes i) = Ok i2 -> i' = i2).
Proof.
  induction shapes as [|[s f] shapes IH]; intros n w i Hl.
  - exists i. simpl. rewrite insert_id, app_nil_r, world_eta by exact Hl.
    split; [reflexivity | intros i2 [= <-]; reflexivity].
  - assert (Hstay : mkWorld (<[l := InterpreterCell i]> (heap w))
                      (log w ++ []) = w).
    { rewrite insert_id, app_nil_r by exact Hl. apply world_eta. }
    cbn [enumerate_from for_each resized fst snd].
    unfold bind at 1. unfold bind at 1. unfold subscript at 1.
    destruct (ins !! n) as [d|] eqn:Hd.
    2:{ exists i. cbn [fst snd result_map]. rewrite Hstay.
        split; [reflexivity | discriminate]. }
    unfold ret at 1. unfold bind at 1.
    destruct (np_eq_all (shape_signature d) s) as [[|]|e] eqn:Hcmp.
    3:{ exists i. cbn [fst snd result_map]. rewrite Hstay.
        split; [reflexivity | discriminate]. }
    2:{ exists i. unfold bind at 1, assertTrue, raise.
        cbn [fst snd result_map]. rewrite Hstay.
        split; [reflexivity | discriminate]. }
    unfold bind at 1. unfold assertTrue at 1. unfold ret at 1.
    unfold bind at 1. unfold subscript at 1. rewrite Hd. unfold ret at 1.
    rewrite (mutate_at l _
               (Interpreter_resize_tensor_input L (index d) f true) w i Hl
             : resize_tensor_input L l (index d) f true w = _).
    destruct (Interpreter_resize_tensor_input L (index d) f true i)
      as [i1|e].
    + rewrite andthen_called_Ok. cbn [fst snd].
      set (w1 := mkWorld _ _).
      destruct (IH (S n) w1 i1 (lookup_insert_eq _ _ _)) as (i' & Hrun & Hi').
      exists i'. rewrite Hrun. subst w1. cbn [heap log].
      rewrite insert_insert_eq, <- app_assoc.
      split; [reflexivity | exact Hi'].
    + rewrite andthen_called_Raised. cbn [fst snd result_map].
      exists i. rewrite insert_id by exact Hl.
      split; [reflexivity | discriminate].
Qed.

(** What [_evaluateTFLiteModel] does once the interpreter is loaded and
    the inputs are resized. *)
Lemma evaluation_refines (l : loc) (data : list tensor) (w : World)
    (i : interp) :
  heap w !! l = Some (InterpreterCell i) ->
  exists i',
    (allocate_tensors L l ;;;
     output_details <- get_output_details L l ;;
     input_details <- get_input_details L l ;;
     for_each (zip input_details data)
       (fun '(input_tensor, tensor_data) =>
          set_tensor L l (index input_tensor) (numpy L tensor_data)) ;;;
     invoke L l ;;;
     comprehension output_details
       (fun details => get_tensor L l (index details))) w
    = (result_map fst (fst (evaluation L data i)),
       mkWorld (<[l := InterpreterCell i']> (heap w))
         (log w ++ snd (evaluation L data i))) /\
    (forall outs i3, fst (evaluation L data i) = Ok (outs, i3) -> i' = i3).
Proof.
  intros Hl. unfold evaluation.
  unfold bind at 1.
  rewrite (mutate_at l _ (Interpreter_allocate_tensors L) w i Hl
           : allocate_tensors L l w = _).
  destruct (Interpreter_allocate_tensors L i) as [i1|e].
  2:{ rewrite andthen_called_Raised. exists i. cbn [fst snd result_map].
      rewrite insert_id by exact Hl. split; [reflexivity | discriminate]. }
  rewrite andthen_called_Ok. cbn [fst snd].
  set (w1 := mkWorld _ _).
  assert (Hl1 : heap w1 !! l = Some (InterpreterCell i1))
    by apply lookup_insert_eq.
  unfold bind at 1.
  rewrite (query_at l _ R_details (Interpreter_get_output_details L) w1 i1 Hl1
           : get_output_details L l w1 = _).
  destruct (Interpreter_get_output_details L i1) as [outs_d|e].
  2:{ rewrite andthen_called_Raised. exists i1. subst w1.
      cbn [fst snd result_map heap log]. rewrite <- app_assoc.
      split; [reflexivity | discriminate]. }
  rewrite andthen_called_Ok. cbn [fst snd].
  set (w2 := mkWorld _ _).
  unfold bind at 1.
  rewrite (query_at l _ R_details (Interpreter_get_input_details L) w2 i1 Hl1
           : get_input_details L l w2 = _).
  destruct (Interpreter_get_input_details L i1) as [ins|e].
  2:{ rewrite andthen_called_Raised. exists i1. subst w2 w1.
      cbn [fst snd result_map heap log]. repeat rewrite <- app_assoc.
      split; [reflexivity | discriminate]. }
  rewrite andthen_called_Ok. cbn [fst snd].
  set (w3 := mkWorld _ _).
  destruct (feed_refines l (zip ins data) w3 i1 Hl1) as (i2' & Hfeed & Hi2).
  unfold bind at 1. rewrite Hfeed.
  destruct (fst (fed L (zip ins data) i1)) as [i2|e] eqn:Hfed.
  2:{ rewrite (andthen_Raised _ _ e Hfed). exists i2'. subst w3 w2 w1.
      cbn [fst snd result_map heap log].
      rewrite insert_insert_eq. repeat rewrite <- app_assoc.
      split; [reflexivity | discriminate]. }
  rewrite (andthen_Ok _ _ i2 Hfed). rewrite (Hi2 i2 eq_refl).
  cbn [fst snd result_map]. unfold invoked.
  set (w4 := mkWorld _ _).
  assert (Hl4 : heap w4 !! l = Some (InterpreterCell i2))
    by apply lookup_insert_eq.
  unfold bind at 1.
  rewrite (mutate_at l _ (Interpreter_invoke L) w4 i2 Hl4
           : invoke L l w4 = _).
  destruct (Interpreter_invoke L i2) as [i3|e].
  2:{ rewrite andthen_called_Raised. exists i2. subst w4 w3 w2 w1.
      cbn [fst snd result_map heap log].
      rewrite insert_insert_eq. repeat rewrite <- app_assoc.
      split; [reflexivity | discriminate]. }
  rewrite andthen_called_Ok. cbn [fst snd].
  set (w5 := mkWorld _ _).
  rewrite (read_refines l outs_d w5 i3 (lookup_insert_eq _ _ _)).
  exists i3. unfold andthen.
  destruct (fst (read_outputs L outs_d i3)) as [outs|e];
    subst w5 w4 w3 w2 w1; cbn [fst snd result_map heap log];
    rewrite ?app_nil_r, !insert_insert_eq; repeat rewrite <- app_assoc;
    (split; [reflexivity|]).
  - intros outs' i3' [= _ <-]. reflexivity.
  - discriminate.
Qed.

(** The first two calls of [_evaluateTFLiteModel], and what is left to run
    after them. *)
Lemma evaluate_unfold (self : loc) (model : bytes) (data : list tensor)
    (shapes : option (list (list Z * list Z))) (w : World) :
  _evaluateTFLiteModel L self model data shapes w =
  match Interpreter_init L model (fresh (dom (heap w))) with
  | Raised e =>
      (Raised e,
       mkWorld (heap w) (log w ++ [Event (Call_Interpreter model) (Raises e)]))
  | Ok i0 =>
      let l := fresh (dom (heap w)) in
      let loaded := Event (Call_Interpreter model) (Returned R_object) in
      match Interpreter_get_input_details L i0 with
      | Raised e =>
          (Raised e,
           mkWorld (<[l := InterpreterCell i0]> (heap w))
             (log w ++ [loaded; Event Call_get_input_details (Raises e)]))
      | Ok ins0 =>
          ((if truthy shapes then
              for_each (enumerate (default [] shapes))
                (fun '(idx, (expected_signature, final_shape)) =>
                   d <- subscript ins0 idx ;;
                   same <- (fun w => (np_eq_all (shape_signature d)
                                        expected_signature, w)) ;;
                   assertTrue self same ;;;
                   d' <- subscript ins0 idx ;;
                   resize_tensor_input L l (index d') final_shape true)
            else ret tt) ;;;
           allocate_tensors L l ;;;
           output_details <- get_output_details L l ;;
           input_details <- get_input_details L l ;;
           for_each (zip input_details data)
             (fun '(input_tensor, tensor_data) =>
                set_tensor L l (index input_tensor) (numpy L tensor_data)) ;;;
           invoke L l ;;;
           comprehension output_details
             (fun details => get_tensor L l (index details)))
            (mkWorld (<[l := InterpreterCell i0]> (heap w))
               (log w ++ [loaded;
                          Event Call_get_input_details
                            (Returned (R_details ins0))]))
      end
  end.
Proof.
  unfold _evaluateTFLiteModel. unfold bind at 1. unfold Interpreter.
  unfold bind at 1. unfold next_address at 1.
  unfold bind at 1. unfold library at 1.
  destruct (Interpreter_init L model (fresh (dom (heap w)))) as [i0|e];
    [|reflexivity].
  unfold new_object. cbn [heap log]. cbv zeta.
  set (l := fresh (dom (heap w))).
  set (w1 := mkWorld _ _).
  assert (Hl1 : heap w1 !! l = Some (InterpreterCell i0))
    by apply lookup_insert_eq.
  unfold bind at 1.
  rewrite (query_at l _ R_details (Interpreter_get_input_details L) w1 i0 Hl1
           : get_input_details L l w1 = _).
  destruct (Interpreter_get_input_details L i0) as [ins0|e];
    subst w1; cbn [heap log]; rewrite <- app_assoc; reflexivity.
Qed.

Lemma truthy_false_default {A} (o : option (list A)) :
  truthy o = false -> default [] o = [].
Proof. destruct o as [[|]|]; simpl; congruence. Qed.

Lemma frame_insert (h : gmap loc (cell tensor interp)) (l l' : loc) c :
  l' <> l -> <[l := c]> h !! l' = h !! l'.
Proof. intros. apply lookup_insert_ne. congruence. Qed.

(** The [if input_shapes:] statement. *)
Lemma shape_stage_refines (self l : loc) (ins0 : list detail)
    (shapes : option (list (list Z * list Z))) (w : World) (i : interp) :
  heap w !! l = Some (InterpreterCell i) ->
  exists i',
    (if truthy shapes then
       for_each (enumerate (default [] shapes))
         (fun '(idx, (expected_signature, final_shape)) =>
            d <- subscript ins0 idx ;;
            same <- (fun w => (np_eq_all (shape_signature d)
                                 expected_signature, w)) ;;
            assertTrue self same ;;;
            d' <- subscript ins0 idx ;;
            resize_tensor_input L l (index d') final_shape true)
     else ret tt) w
    = (result_map (fun _ => tt)
         (fst (resized L ins0 0 (default [] shapes) i)),
       mkWorld (<[l := InterpreterCell i']> (heap w))
         (log w ++ snd (resized L ins0 0 (default [] shapes) i))) /\
    (forall iR, fst (resized L ins0 0 (default [] shapes) i) = Ok iR ->
                i' = iR).
Proof.
  intros Hl. destruct (truthy shapes) eqn:Ht.
  - apply (shape_refines self l ins0 (default [] shapes) 0 w i Hl).
  - rewrite (truthy_false_default _ Ht). exists i. simpl.
    rewrite insert_id, app_nil_r, world_eta by exact Hl.
    split; [reflexivity | intros iR [= <-]; reflexivity].
Qed.

(** A complete run of [_evaluateTFLiteModel] against its trace: the
    result, the log, the heap away from the interpreter it creates, and
    the interpreter a run that returns leaves behind. *)
Lemma evaluate_refines (self : loc) (model : bytes) (data : list tensor)
    (shapes : option (list (list Z * list Z))) (w : World) :
  exists h',
    _evaluateTFLiteModel L self model data shapes w
    = (result_map fst
         (fst (evaluate_calls L (fresh (dom (heap w))) model data
                 (default [] shapes))),
       mkWorld h'
         (log w
          ++ snd (evaluate_calls L (fresh (dom (heap w))) model data
                    (default [] shapes)))) /\
    (forall l', l' <> fresh (dom (heap w)) -> h' !! l' = heap w !! l') /\
    (forall outs i3,
       fst (evaluate_calls L (fresh (dom (heap w))) model data
              (default [] shapes)) = Ok (outs, i3) ->
       h' = <[fresh (dom (heap w)) := InterpreterCell i3]> (heap w)).
Proof.
  rewrite evaluate_unfold. unfold evaluate_calls.
  set (l := fresh (dom (heap w))).
  destruct (Interpreter_init L model l) as [i0|e].
  2:{ rewrite andthen_called_Raised. exists (heap w).
      split; [reflexivity|]. split; [reflexivity | discriminate]. }
  rewrite andthen_called_Ok. cbv zeta. cbn [fst snd].
  destruct (Interpreter_get_input_details L i0) as [ins0|e].
  2:{ rewrite andthen_called_Raised. eexists.
      split; [reflexivity|].
      split; [intros; apply frame_insert; assumption | discriminate]. }
  rewrite andthen_called_Ok. cbn [fst snd].
  set (w2 := mkWorld _ _).
  destruct (shape_stage_refines self l ins0 shapes w2 i0
              (lookup_insert_eq _ _ _)) as (iR' & Hstage & HiR).
  unfold bind at 1. rewrite Hstage.
  destruct (fst (resized L ins0 0 (default [] shapes) i0)) as [iR|e] eqn:Hres.
  2:{ rewrite (andthen_Raised _ _ e Hres). eexists.
      subst w2. cbn [fst snd result_map heap log].
      rewrite insert_insert_eq. repeat rewrite <- app_assoc.
      split; [reflexivity|].
      split; [intros; apply frame_insert; assumption | discriminate]. }
  rewrite (andthen_Ok _ _ iR Hres), (HiR iR eq_refl).
  cbn [fst snd result_map].
  set (w3 := mkWorld _ _).
  destruct (evaluation_refines l data w3 iR (lookup_insert_eq _ _ _))
    as (i' & Hrun & Hi').
  rewrite Hrun. eexists. subst w3 w2. cbn [heap log].
  rewrite !insert_insert_eq. repeat rewrite <- app_assoc.
  split; [reflexivity|].
  split; [intros; apply frame_insert; assumption|].
  intros outs i3 Hok. rewrite (Hi' outs i3 Hok). reflexivity.
Qed.

Lemma filter_none {A} (p : A -> bool) (l : list A) :
  Forall (fun x => p x = false) l -> List.filter p l = [].
Proof.
  induction 1 as [|x l Hx _ IH]; simpl; [reflexivity|].
  rewrite Hx. exact IH.
Qed.

Lemma filter_all {A} (p : A -> bool) (l : list A) :
  Forall (fun x => p x = true) l -> List.filter p l = l.
Proof.
  induction 1 as [|x l Hx _ IH]; simpl; [reflexivity|].
  rewrite Hx, IH. reflexivity.
Qed.

Lemma Forall_zip_with {A B C} (P : C -> Prop) (f : A -> B -> C)
    (l : list A) (k : list B) :
  (forall a b, P (f a b)) -> Forall P (zip_with f l k).
Proof.
  intros Hf. revert k; induction l as [|a l IH]; intros [|b k]; simpl;
    constructor; auto.
Qed.

Lemma Forall_map_all {A B} (P : B -> Prop) (f : A -> B) (l : list A) :
  (forall a, P (f a)) -> Forall P (map f l).
Proof. intros Hf. induction l; simpl; constructor; auto. Qed.

(** ** Calls that return *)

Lemma invoked_inv (outs_d : list detail) (i : interp) (outs : list ndarray)
    (i3 : interp) :
  fst (invoked L outs_d i) = Ok (outs, i3) ->
  Interpreter_invoke L i = Ok i3 /\
  Forall2 (fun d v => Interpreter_get_tensor L (index d) i3 = Ok v)
    outs_d outs /\
  snd (invoked L outs_d i)
  = Event Call_invoke (Returned R_none) :: zip_with get_event outs_d outs.
Proof.
  unfold invoked.
  destruct (Interpreter_invoke L i) as [i3'|e];
    [rewrite andthen_called_Ok | rewrite andthen_called_Raised; discriminate].
  cbn [fst snd]. unfold andthen.
  pose proof (read_outputs_spec outs_d i3') as Hread.
  destruct (fst (read_outputs L outs_d i3')) as [outs'|e]; [|discriminate].
  cbn [fst snd]. intros [= <- <-]. destruct Hread as [HF ->].
  rewrite app_nil_r. auto.
Qed.

Lemma invoked_returns (outs_d : list detail) (i i3 : interp)
    (outs : list ndarray) :
  Interpreter_invoke L i = Ok i3 ->
  Forall2 (fun d v => Interpreter_get_tensor L (index d) i3 = Ok v)
    outs_d outs ->
  fst (invoked L outs_d i) = Ok (outs, i3).
Proof.
  intros Hv HF. unfold invoked.
  rewrite Hv, andthen_called_Ok, (read_outputs_Ok _ _ _ HF). reflexivity.
Qed.

Lemma evaluation_inv (data : list tensor) (i : interp) (outs : list ndarray)
    (i3 : interp) :
  fst (evaluation L data i) = Ok (outs, i3) ->
  exists i1 outs_d ins i2,
    Interpreter_allocate_tensors L i = Ok i1 /\
    Interpreter_get_output_details L i1 = Ok outs_d /\
    Interpreter_get_input_details L i1 = Ok ins /\
    fst (fed L (zip ins data) i1) = Ok i2 /\
    Interpreter_invoke L i2 = Ok i3 /\
    Forall2 (fun d v => Interpreter_get_tensor L (index d) i3 = Ok v)
      outs_d outs /\
    snd (evaluation L data i)
    = [Event Call_allocate_tensors (Returned R_none);
       Event Call_get_output_details (Returned (R_details outs_d));
       Event Call_get_input_details (Returned (R_details ins))]
      ++ map (set_event L) (zip ins data)
      ++ [Event Call_invoke (Returned R_none)]
      ++ zip_with get_event outs_d outs.
Proof.
  unfold evaluation.
  destruct (Interpreter_allocate_tensors L i) as [i1|e] eqn:Ha;
    [rewrite andthen_called_Ok | rewrite andthen_called_Raised; discriminate].
  cbn [fst snd].
  destruct (Interpreter_get_output_details L i1) as [outs_d|e] eqn:Ho;
    [rewrite andthen_called_Ok | rewrite andthen_called_Raised; discriminate].
  cbn [fst snd].
  destruct (Interpreter_get_input_details L i1) as [ins|e] eqn:Hins;
    [rewrite andthen_called_Ok | rewrite andthen_called_Raised; discriminate].
  cbn [fst snd]. intros Hok.
  destruct (andthen_inv _ _ _ Hok) as (i2 & Hfed & Hinv & ->).
  destruct (invoked_inv _ _ _ _ Hinv) as (Hv & HF & ->).
  pose proof (fed_spec (zip ins data) i1) as Hevs. rewrite Hfed in Hevs.
  rewrite Hevs. exists i1, outs_d, ins, i2.
  split; [reflexivity|]. split; [exact Ho|]. split; [exact Hins|].
  split; [exact Hfed|]. split; [exact Hv|]. split; [exact HF|].
  reflexivity.
Qed.

Lemma evaluation_returns (data : list tensor) (i i1 : interp)
    (outs_d ins : list detail) (i2 i3 : interp) (outs : list ndarray) :
  Interpreter_allocate_tensors L i = Ok i1 ->
  Interpreter_get_output_details L i1 = Ok outs_d ->
  Interpreter_get_input_details L i1 = Ok ins ->
  fst (fed L (zip ins data) i1) = Ok i2 ->
  Interpreter_invoke L i2 = Ok i3 ->
  Forall2 (fun d v => Interpreter_get_tensor L (index d) i3 = Ok v)
    outs_d outs ->
  fst (evaluation L data i) = Ok (outs, i3).
Proof.
  intros Ha Ho Hi Hfed Hv HF. unfold evaluation.
  rewrite Ha, andthen_called_Ok, Ho, andthen_called_Ok, Hi, andthen_called_Ok.
  cbn [fst]. rewrite (andthen_Ok _ _ i2 Hfed). cbn [fst].
  exact (invoked_returns _ _ _ _ Hv HF).
Qed.

Lemma evaluate_calls_inv (l : loc) (model : bytes) (data : list tensor)
    (shapes : list (list Z * list Z)) (outs : list ndarray) (i3 : interp) :
  fst (evaluate_calls L l model data shapes) = Ok (outs, i3) ->
  exists i0 ins0 iR,
    Interpreter_init L model l = Ok i0 /\
    Interpreter_get_input_details L i0 = Ok ins0 /\
    fst (resized L ins0 0 shapes i0) = Ok iR /\
    fst (evaluation L data iR) = Ok (outs, i3) /\
    snd (evaluate_calls L l model data shapes)
    = [Event (Call_Interpreter model) (Returned R_object);
       Event Call_get_input_details (Returned (R_details ins0))]
      ++ snd (resized L ins0 0 shapes i0) ++ snd (evaluation L data iR).
Proof.
  unfold evaluate_calls.
  destruct (Interpreter_init L model l) as [i0|e] eqn:Hinit;
    [rewrite andthen_called_Ok | rewrite andthen_called_Raised; discriminate].
  cbn [fst snd].
  destruct (Interpreter_get_input_details L i0) as [ins0|e] eqn:Hins0;
    [rewrite andthen_called_Ok | rewrite andthen_called_Raised; discriminate].
  cbn [fst snd]. intros Hok.
  destruct (andthen_inv _ _ _ Hok) as (iR & Hres & Heval & ->).
  exists i0, ins0, iR. auto.
Qed.

(** The call as far as the pairing of input details and data: what is
    left is to feed the pairs, invoke and read. *)
Lemma evaluate_calls_to_pairing (l : loc) (model : bytes)
    (data : list tensor) (shapes : list (list Z * list Z))
    (i0 : interp) (ins0 : list detail) (iR i1 : interp)
    (outs_d ins : list detail) :
  Interpreter_init L model l = Ok i0 ->
  Interpreter_get_input_details L i0 = Ok ins0 ->
  fst (resized L ins0 0 shapes i0) = Ok iR ->
  Interpreter_allocate_tensors L iR = Ok i1 ->
  Interpreter_get_output_details L i1 = Ok outs_d ->
  Interpreter_get_input_details L i1 = Ok ins ->
  evaluate_calls L l model data shapes
  = (fst (andthen (fed L (zip ins data) i1) (invoked L outs_d)),
     [Event (Call_Interpreter model) (Returned R_object);
      Event Call_get_input_details (Returned (R_details ins0))]
     ++ snd (resized L ins0 0 shapes i0)
     ++ [Event Call_allocate_tensors (Returned R_none);
         Event Call_get_output_details (Returned (R_details outs_d));
         Event Call_get_input_details (Returned (R_details ins))]
     ++ snd (andthen (fed L (zip ins data) i1) (invoked L outs_d))).
Proof.
  intros Hinit Hins0 Hres Ha Ho Hi. unfold evaluate_calls.
  rewrite Hinit, andthen_called_Ok, Hins0, andthen_called_Ok.
  cbn [fst snd]. rewrite (andthen_Ok _ _ iR Hres). cbn [fst snd].
  unfold evaluation.
  rewrite Ha, andthen_called_Ok, Ho, andthen_called_Ok, Hi, andthen_called_Ok.
  reflexivity.
Qed.

(** With no [input_shapes] the trace is of library calls alone. *)
Lemma ends_evaluate_calls_nil (l : loc) (model : bytes) (data : list tensor) :
  ends_at_raise (evaluate_calls L l model data []).
Proof.
  unfold evaluate_calls.
  apply ends_andthen; [apply ends_called | intros i0].
  apply ends_andthen; [apply ends_called | intros ins0].
  apply ends_andthen; [apply ends_pure | intros iR; apply ends_evaluation].
Qed.

(** [invoke] and [get_tensor] are not [set_tensor]. *)
Lemma invoked_sets_nothing (outs_d : list detail) (i : interp) :
  List.filter is_set_tensor (snd (invoked L outs_d i)) = [].
Proof.
  assert (Hread : forall i', List.filter is_set_tensor
                               (snd (read_outputs L outs_d i')) = []).
  { intros i'. induction outs_d as [|d ds IH]; [reflexivity|].
    cbn [read_outputs].
    destruct (Interpreter_get_tensor L (index d) i') as [v|e];
      [rewrite andthen_called_Ok | rewrite andthen_called_Raised; reflexivity].
    cbn [snd]. unfold andthen.
    destruct (fst (read_outputs L ds i')); cbn [snd List.filter is_set_tensor ev_call];
      rewrite ?app_nil_r; exact IH. }
  unfold invoked.
  destruct (Interpreter_invoke L i) as [i3|e];
    [rewrite andthen_called_Ok | rewrite andthen_called_Raised; reflexivity].
  cbn [snd]. unfold andthen.
  destruct (fst (read_outputs L outs_d i3));
    cbn [snd List.filter is_set_tensor ev_call]; rewrite ?app_nil_r; apply Hread.
Qed.

(** ** C1: the wrapper sequence *)

(** C1.  For every model content and input data, a call of
    [_evaluateTFLiteModel] (input_shapes left at its default) is the
    wrapper sequence: its result and the library calls it makes, with
    their outcomes, are those of [evaluate_calls], which loads an
    interpreter from the model content, asks for the input details,
    allocates, asks for the output and the input details, feeds the inputs,
    invokes and reads the outputs, each call on the state the one before
    left, and stops at the first call that raises.

    The call returns [outs] exactly when every library call of the
    sequence returns: the interpreter is loaded, the tensors are
    allocated, [set_tensor] returns for each input detail paired with a
    datum, in order, [invoke] returns, and [outs] are the arrays
    [get_tensor] gives for the output details, in their order, on the
    state [invoke] left.  Every datum is fed when the interpreter has an
    input tensor for each.  The interpreter is then left in the state
    [invoke] left, the log holds exactly these calls, and [invoke] was
    called once.

    A call that raises made only library calls that returned and then one
    that raised: the exception is that call's. *)
Theorem evaluate_wrapper_sequence (self : loc) (model : bytes)
    (data : list tensor) (w : World) :
  let l := fresh (dom (heap w)) in
  let run := _evaluateTFLiteModel L self model data None w in
  let calls := evaluate_calls L l model data [] in
  fst run = result_map fst (fst calls) /\
  log (snd run) = log w ++ snd calls /\
  (forall outs,
     fst run = Ok outs <->
     exists i0 ins0 i1 outs_d ins i2 i3,
       Interpreter_init L model l = Ok i0 /\
       Interpreter_get_input_details L i0 = Ok ins0 /\
       Interpreter_allocate_tensors L i0 = Ok i1 /\
       Interpreter_get_output_details L i1 = Ok outs_d /\
       Interpreter_get_input_details L i1 = Ok ins /\
       fst (fed L (zip ins data) i1) = Ok i2 /\
       Interpreter_invoke L i2 = Ok i3 /\
       Forall2 (fun d v => Interpreter_get_tensor L (index d) i3 = Ok v)
         outs_d outs /\
       ((length data <= length ins)%nat -> map snd (zip ins data) = data) /\
       heap (snd run) = <[l := InterpreterCell i3]> (heap w) /\
       snd calls
       = [Event (Call_Interpreter model) (Returned R_object);
          Event Call_get_input_details (Returned (R_details ins0));
          Event Call_allocate_tensors (Returned R_none);
          Event Call_get_output_details (Returned (R_details outs_d));
          Event Call_get_input_details (Returned (R_details ins))]
         ++ map (set_event L) (zip ins data)
         ++ [Event Call_invoke (Returned R_none)]
         ++ zip_with get_event outs_d outs /\
       length (List.filter is_invoke (snd calls)) = 1%nat) /\
  (forall e,
     fst run = Raised e ->
     exists evs c,
       snd calls = evs ++ [Event c (Raises e)] /\ Forall returned evs).
Proof.
  cbv zeta.
  destruct (evaluate_refines self model data None w)
    as (h' & Hrun & _ & Hheap).
  cbn [default] in Hrun, Hheap. rewrite Hrun. cbn [fst snd log heap].
  set (l := fresh (dom (heap w))) in *.
  split; [reflexivity|]. split; [reflexivity|]. split.
  - intros outs. split.
    + intros Hok.
      destruct (fst (evaluate_calls L l model data [])) as [[outs' i3]|e]
        eqn:Hcalls; [|discriminate].
      injection Hok as ->.
      destruct (evaluate_calls_inv _ _ _ _ _ _ Hcalls)
        as (i0 & ins0 & iR & Hinit & Hins0 & Hres & Heval & Hevs).
      cbn [resized fst snd] in Hres, Hevs. injection Hres as <-.
      destruct (evaluation_inv _ _ _ _ Heval)
        as (i1 & outs_d & ins & i2 & Ha & Ho & Hi & Hfed & Hv & HF & Hevs').
      rewrite Hevs' in Hevs.
      exists i0, ins0, i1, outs_d, ins, i2, i3.
      split; [exact Hinit|]. split; [exact Hins0|]. split; [exact Ha|].
      split; [exact Ho|]. split; [exact Hi|]. split; [exact Hfed|].
      split; [exact Hv|]. split; [exact HF|].
      split; [apply snd_zip|].
      split; [exact (Hheap _ _ eq_refl)|].
      split; [exact Hevs|].
      rewrite Hevs. simpl. rewrite List.filter_app. simpl.
      rewrite !filter_none; [reflexivity| |].
      * apply Forall_zip_with. reflexivity.
      * apply Forall_map_all. reflexivity.
    + intros (i0 & ins0 & i1 & outs_d & ins & i2 & i3
              & Hinit & Hins0 & Ha & Ho & Hi & Hfed & Hv & HF & _).
      unfold evaluate_calls.
      rewrite Hinit, andthen_called_Ok, Hins0, andthen_called_Ok.
      cbn [fst snd resized]. unfold andthen at 1. cbn [fst snd].
      rewrite (evaluation_returns _ _ _ _ _ _ _ _ Ha Ho Hi Hfed Hv HF).
      reflexivity.
  - intros e He.
    pose proof (ends_evaluate_calls_nil l model data) as Hends.
    unfold ends_at_raise in Hends.
    destruct (fst (evaluate_calls L l model data [])) as [a|e'];
      [discriminate|].
    injection He as ->. exact Hends.
Qed.

(** ** C8: inputs are paired by position *)

(** C8.  Whatever the lengths of [input_data] and of the interpreter's
    input details, and whatever [input_shapes] is: the call is its trace
    [evaluate_calls], and once it has got as far as the input details
    [ins] that the interpreter reports after allocation, the pairing step
    is the feeding of [zip ins data] and nothing else.  There are as many
    pairs as the shorter list is long.  If every [set_tensor] returns, the
    [set_tensor] calls of the whole call are exactly one per pair, in
    order, with the index of the pair's detail and the array of its datum,
    input tensors beyond the data are not set, data beyond the input
    tensors are not used, and the call goes on to invoke the interpreter in
    the state these calls left.  The only way the step raises is that the
    [set_tensor] call of some pair does, after the calls for the pairs
    before it returned; the call then raises that exception and that call
    is the last it made. *)
Theorem evaluate_pairs_by_position (self : loc) (model : bytes)
    (data : list tensor) (shapes : option (list (list Z * list Z)))
    (w : World) :
  let l := fresh (dom (heap w)) in
  let run := _evaluateTFLiteModel L self model data shapes w in
  let calls := evaluate_calls L l model data (default [] shapes) in
  fst run = result_map fst (fst calls) /\
  log (snd run) = log w ++ snd calls /\
  forall i0 ins0 iR i1 outs_d ins,
    Interpreter_init L model l = Ok i0 ->
    Interpreter_get_input_details L i0 = Ok ins0 ->
    fst (resized L ins0 0 (default [] shapes) i0) = Ok iR ->
    Interpreter_allocate_tensors L iR = Ok i1 ->
    Interpreter_get_output_details L i1 = Ok outs_d ->
    Interpreter_get_input_details L i1 = Ok ins ->
    let pairs := zip ins data in
    let before :=
      [Event (Call_Interpreter model) (Returned R_object);
       Event Call_get_input_details (Returned (R_details ins0))]
      ++ snd (resized L ins0 0 (default [] shapes) i0)
      ++ [Event Call_allocate_tensors (Returned R_none);
          Event Call_get_output_details (Returned (R_details outs_d));
          Event Call_get_input_details (Returned (R_details ins))] in
    length pairs = Nat.min (length ins) (length data) /\
    match fst (fed L pairs i1) with
    | Ok i2 =>
        fst run = result_map fst (fst (invoked L outs_d i2)) /\
        snd calls
        = before ++ map (set_event L) pairs ++ snd (invoked L outs_d i2) /\
        List.filter is_set_tensor (snd calls) = map (set_event L) pairs
    | Raised e =>
        fst run = Raised e /\
        exists k p ik,
          pairs !! k = Some p /\
          fst (fed L (take k pairs) i1) = Ok ik /\
          Interpreter_set_tensor L (index (fst p)) (numpy L (snd p)) ik
          = Raised e /\
          snd calls
          = before ++ map (set_event L) (take k pairs)
            ++ [Event (Call_set_tensor (index (fst p)) (numpy L (snd p)))
                  (Raises e)]
    end.
Proof.
  cbv zeta.
  destruct (evaluate_refines self model data shapes w)
    as (h' & Hrun & _ & _).
  rewrite Hrun. cbn [fst snd log].
  set (l := fresh (dom (heap w))).
  split; [reflexivity|]. split; [reflexivity|].
  intros i0 ins0 iR i1 outs_d ins Hinit Hins0 Hres Ha Ho Hi.
  split; [apply length_zip|].
  rewrite (evaluate_calls_to_pairing l model data _ _ _ _ _ _ _
             Hinit Hins0 Hres Ha Ho Hi).
  cbn [fst snd].
  pose proof (fed_spec (zip ins data) i1) as Hfed.
  destruct (fst (fed L (zip ins data) i1)) as [i2|e] eqn:Hr.
  - rewrite (andthen_Ok _ _ i2 Hr). cbn [fst snd]. rewrite Hfed.
    split; [reflexivity|].
    split; [repeat rewrite <- app_assoc; reflexivity|].
    assert (Hresizes : List.filter is_set_tensor
                         (snd (resized L ins0 0 (default [] shapes) i0)) = []).
    { destruct (resized_spec ins0 (default [] shapes) 0 i0)
        as (k & ik & _ & _ & _ & Hspec).
      rewrite Hres in Hspec. destruct Hspec as (_ & _ & ->).
      apply filter_none, Forall_zip_with. reflexivity. }
    simpl. rewrite !List.filter_app, Hresizes. simpl.
    rewrite List.filter_app, invoked_sets_nothing, app_nil_r.
    apply filter_all, Forall_map_all. reflexivity.
  - rewrite (andthen_Raised _ _ e Hr). cbn [fst snd].
    split; [reflexivity|].
    destruct Hfed as (k & p & ik & Hp & Hk & Hraise & ->).
    exists k, p, ik. split; [exact Hp|]. split; [exact Hk|].
    split; [exact Hraise|].
    repeat rewrite <- app_assoc. reflexivity.
Qed.

(** ** C2: a shape signature that does not pass the check *)

(** C2, as far as the code goes.  Let the loaded interpreter report the
    input details [ins], and let the stored shape signature at position
    [j] fail the comparison with the expected one, as it does whenever the
    two have the same length and differ.  Then the call raises before the
    tensor at position [j] is resized and nothing is tried after the
    failure.  It ends at the first position [k <= j] at which something
    fails: every position before [k] passed its check and was resized, in
    order, each resize on the state the one before left, and the log holds
    the two opening calls and these resizes.  At position [k] the check
    says "not all equal", and the exception is the test assertion; or the
    comparison is not element-wise, and the exception is its own; or the
    check passes ([k < j] then) and the strict resize raises, that call is
    the last entry of the log and its exception is what the call
    raises. *)
Theorem shape_mismatch_fails (self : loc) (model : bytes) (data : list tensor)
    (shapes : list (list Z * list Z)) (w : World) (i0 : interp)
    (ins : list detail) (j : nat) (d : detail) (s f : list Z) :
  Interpreter_init L model (fresh (dom (heap w))) = Ok i0 ->
  Interpreter_get_input_details L i0 = Ok ins ->
  ins !! j = Some d ->
  shapes !! j = Some (s, f) ->
  (length (shape_signature d) = length s /\ shape_signature d <> s) \/
  np_eq_all (shape_signature d) s <> Ok true ->
  exists e w' k dk sk ik,
    _evaluateTFLiteModel L self model data (Some shapes) w = (Raised e, w') /\
    (k <= j)%nat /\ ins !! k = Some dk /\ shapes !! k = Some sk /\
    (forall n sn, (n < k)%nat -> shapes !! n = Some sn ->
       exists dn, ins !! n = Some dn /\
                  np_eq_all (shape_signature dn) (fst sn) = Ok true) /\
    let opening :=
      [Event (Call_Interpreter model) (Returned R_object);
       Event Call_get_input_details (Returned (R_details ins))] in
    let resizes :=
      zip_with (fun d sf => resize_event d (snd sf)) ins (take k shapes) in
    resized L ins 0 (take k shapes) i0 = (Ok ik, resizes) /\
    ((np_eq_all (shape_signature dk) (fst sk) = Ok false /\
      e = AssertionError /\
      log w' = log w ++ opening ++ resizes) \/
     (np_eq_all (shape_signature dk) (fst sk) = Raised e /\
      log w' = log w ++ opening ++ resizes) \/
     ((k < j)%nat /\
      np_eq_all (shape_signature dk) (fst sk) = Ok true /\
      Interpreter_resize_tensor_input L (index dk) (snd sk) true ik
      = Raised e /\
      log w' = log w ++ opening ++ resizes
               ++ [Event (Call_resize_tensor_input (index dk) (snd sk) true)
                     (Raises e)])).
Proof.
  intros Hinit Hins Hd Hs Hdiffer.
  assert (Hcmp : np_eq_all (shape_signature d) s <> Ok true).
  { destruct Hdiffer as [[Hlen Hne]|Hcmp]; [|exact Hcmp].
    rewrite (np_eq_all_differ _ _ Hlen Hne). discriminate. }
  clear Hdiffer.
  destruct (evaluate_refines self model data (Some shapes) w)
    as (h' & Hrun & _ & _).
  cbn [default] in Hrun. rewrite Hrun. clear Hrun.
  unfold evaluate_calls.
  rewrite Hinit, andthen_called_Ok, Hins, andthen_called_Ok. cbn [fst snd].
  destruct (resized_spec ins shapes 0 i0) as (k & ik & Hk & Htake & Hpass & Hr).
  cbv zeta in Htake, Hr. rewrite drop_0 in Htake, Hr.
  assert (Hkj : (k <= j)%nat).
  { destruct (decide (k <= j)%nat) as [|Hgt]; [assumption|exfalso].
    destruct (Hpass j (s, f) ltac:(lia) Hs) as (dj & Hdj & Hok).
    simpl in Hdj, Hok. rewrite Hd in Hdj. injection Hdj as <-.
    contradiction. }
  destruct (fst (resized L ins 0 shapes i0)) as [iR|e] eqn:Hres.
  { exfalso. destruct Hr as (-> & _). apply lookup_lt_Some in Hs. lia. }
  rewrite (andthen_Raised _ _ e Hres). cbn [fst snd result_map].
  destruct Hr as (sk & Hsk & Hcase). simpl in Hcase.
  assert (Hdk : is_Some (ins !! k)).
  { apply lookup_lt_is_Some. apply lookup_lt_Some in Hd. lia. }
  destruct Hcase as [(Hnone & _) | (dk & Hdk' & Hcase)].
  { rewrite Hnone in Hdk. destruct Hdk; discriminate. }
  exists e. eexists. exists k, dk, sk, ik.
  split; [reflexivity|]. split; [exact Hkj|]. split; [exact Hdk'|].
  split; [exact Hsk|]. split; [exact Hpass|]. cbv zeta.
  split; [exact Htake|]. cbn [log].
  destruct Hcase as [(Hc & ->) | [(Hc & -> & ->) | (Hc & Hraise & ->)]].
  - right; left. split; [exact Hc | reflexivity].
  - left. split; [exact Hc|]. split; reflexivity.
  - right; right. split.
    + destruct (decide (k = j)) as [->|]; [|lia].
      rewrite Hd in Hdk'. injection Hdk' as <-.
      rewrite Hs in Hsk. injection Hsk as <-. contradiction.
    + split; [exact Hc|]. split; [exact Hraise|]. reflexivity.
Qed.

(** ** Library calls that raise, in the log *)

Lemma silent_uncaught {A} (m : Mon A) : silent m -> uncaught m.
Proof.
  intros Hm w r w' Hrun. exists []. rewrite app_nil_r.
  specialize (Hm w). rewrite Hrun in Hm. split; [exact Hm|].
  intros n ev e Hn. rewrite lookup_nil in Hn. discriminate.
Qed.

Lemma uncaught_library {A} (c : Call) (obs : A -> retval ndarray)
    (r : result A) :
  uncaught (library c obs r : Mon A).
Proof.
  intros w r' w' Hrun. unfold library in Hrun. injection Hrun as <- <-.
  eexists. split; [reflexivity|].
  intros [|n] ev e Hn Hev; simpl in Hn; [|rewrite lookup_nil in Hn; discriminate].
  injection Hn as <-. simpl in Hev. split; [reflexivity|].
  destruct r; [discriminate | congruence].
Qed.

Lemma uncaught_bind {A B} (m : Mon A) (k : A -> Mon B) :
  uncaught m -> (forall a, uncaught (k a)) -> uncaught (bind m k).
Proof.
  intros Hm Hk w r w' Hrun. unfold bind in Hrun.
  destruct (m w) as [[a|e] w1] eqn:Hmw.
  - destruct (Hm _ _ _ Hmw) as (evs1 & Hlog1 & Hev1).
    destruct (Hk a _ _ _ Hrun) as (evs2 & Hlog2 & Hev2).
    exists (evs1 ++ evs2). rewrite Hlog2, Hlog1, app_assoc.
    split; [reflexivity|].
    intros n ev e' Hn Hev. rewrite length_app.
    apply lookup_app_Some in Hn. destruct Hn as [Hn | [Hge Hn]].
    + destruct (Hev1 _ _ _ Hn Hev) as [_ ?]. discriminate.
    + destruct (Hev2 _ _ _ Hn Hev) as [Hlast ->]. split; [lia | reflexivity].
  - injection Hrun as <- <-.
    destruct (Hm _ _ _ Hmw) as (evs & Hlog & Hev).
    exists evs. split; [exact Hlog|].
    intros n ev e' Hn He'. destruct (Hev _ _ _ Hn He') as [Hlast [= ->]].
    split; [exact Hlast | reflexivity].
Qed.

Lemma uncaught_ret {A} (a : A) : uncaught (ret a : Mon A).
Proof. apply silent_uncaught. intros w. reflexivity. Qed.

Lemma uncaught_raise {A} (e : exn) : uncaught (raise e : Mon A).
Proof. apply silent_uncaught. intros w. reflexivity. Qed.

Lemma uncaught_for_each {A} (xs : list A) (body : A -> Mon unit) :
  (forall x, uncaught (body x)) -> uncaught (for_each xs body).
Proof.
  intros Hbody. induction xs as [|x xs IH]; simpl.
  - apply uncaught_ret.
  - apply uncaught_bind; [apply Hbody | intros _; exact IH].
Qed.

Lemma uncaught_comprehension {A B} (xs : list A) (f : A -> Mon B) :
  (forall x, uncaught (f x)) -> uncaught (comprehension xs f).
Proof.
  intros Hf. induction xs as [|x xs IH]; simpl.
  - apply uncaught_ret.
  - apply uncaught_bind; [apply Hf | intros y].
    apply uncaught_bind; [exact IH | intros ys; apply uncaught_ret].
Qed.

Lemma silent_new_object c : silent (new_object c : Mon loc).
Proof. intros w. reflexivity. Qed.

Lemma silent_getattr o name : silent (getattr o name : Mon value).
Proof.
  intros w. unfold getattr.
  destruct (heap w !! o) as [[attrs| |]|]; try reflexivity.
  destruct (attrs !! name); reflexivity.
Qed.

Lemma silent_setattr o name v : silent (setattr o name v : Mon unit).
Proof.
  intros w. unfold setattr.
  destruct (heap w !! o) as [[attrs| |]|]; reflexivity.
Qed.

Lemma silent_interp_state l : silent (interp_state l : Mon interp).
Proof.
  intros w. unfold interp_state.
  destruct (heap w !! l) as [[| |]|]; reflexivity.
Qed.

Lemma silent_store l c : silent (store l c : Mon unit).
Proof. intros w. reflexivity. Qed.

Lemma silent_read_value v : silent (read_value v : Mon tensor).
Proof.
  intros w. unfold read_value. destruct v as [|l|]; try reflexivity.
  destruct (heap w !! l) as [[| |]|]; reflexivity.
Qed.

Lemma silent_subscript {A} (xs : list A) n : silent (subscript xs n : Mon A).
Proof. intros w. unfold subscript. destruct (xs !! n); reflexivity. Qed.

Lemma silent_assertTrue self b : silent (assertTrue self b : Mon unit).
Proof. intros w. destruct b; reflexivity. Qed.

Lemma silent_assertIn self x s : silent (assertIn self x s : Mon unit).
Proof. intros w. unfold assertIn. destruct (decide _); reflexivity. Qed.

Lemma silent_assertNotIn self x s : silent (assertNotIn self x s : Mon unit).
Proof. intros w. unfold assertNotIn. destruct (decide _); reflexivity. Qed.

Create HintDb uncaught_db.

#[local] Hint Resolve uncaught_library uncaught_ret uncaught_raise
  uncaught_for_each uncaught_comprehension : uncaught_db.
#[local] Hint Extern 1 (uncaught (bind _ _)) =>
  apply uncaught_bind; [|intro] : uncaught_db.
#[local] Hint Extern 2 (uncaught _) =>
  apply silent_uncaught;
  first [ apply silent_new_object | apply silent_getattr
        | apply silent_setattr | apply silent_interp_state
        | apply silent_store | apply silent_read_value
        | apply silent_subscript | apply silent_assertTrue
        | apply silent_assertIn | apply silent_assertNotIn
        | intro; reflexivity ] : uncaught_db.
#[local] Hint Extern 3 (uncaught (match ?x with _ => _ end)) =>
  destruct x : uncaught_db.
#[local] Hint Extern 3 (uncaught (if ?b then _ else _)) =>
  destruct b : uncaught_db.

Lemma uncaught_query {A} l c obs (op : interp -> result A) :
  uncaught (query l c obs op : Mon A).
Proof. unfold query. auto with uncaught_db. Qed.

Lemma uncaught_mutate l c op : uncaught (mutate l c op : Mon unit).
Proof. unfold mutate. auto 6 with uncaught_db. Qed.

Lemma uncaught_tf_Variable t : uncaught (tf_Variable L t).
Proof. unfold tf_Variable. auto 6 with uncaught_db. Qed.

Lemma uncaught_signature_runner_call sr inputs :
  uncaught (signature_runner_call L sr inputs).
Proof.
  destruct sr as [owner rn]. unfold signature_runner_call.
  auto 8 with uncaught_db.
Qed.

#[local] Hint Resolve uncaught_query uncaught_mutate uncaught_tf_Variable
  uncaught_signature_runner_call : uncaught_db.

Ltac uncaught_step :=
  cbv beta;
  match goal with
  | |- forall _, _ => intro
  | |- uncaught (bind _ _) => apply uncaught_bind
  | |- uncaught (for_each _ _) => apply uncaught_for_each
  | |- uncaught (comprehension _ _) => apply uncaught_comprehension
  | |- uncaught (match ?x with _ => _ end) => destruct x
  | |- uncaught _ => solve [auto with uncaught_db]
  end.

(** No helper, and no method of the models they build, ends a run after
    a library call that raised with anything but that call's exception. *)
Lemma helpers_uncaught :
  (forall self model data shapes,
     uncaught (_evaluateTFLiteModel L self model data shapes)) /\
  (forall self model method_name inputs,
     uncaught (_evaluateTFLiteModelUsingSignatureDef L self model
                 method_name inputs)) /\
  (forall self, uncaught (_getSimpleVariableModel L self)) /\
  (forall self, uncaught (_getSimpleModelWithVariables L self)) /\
  (forall self, uncaught (_getMultiFunctionModel self : Mon loc)) /\
  (forall self files, uncaught (_assertValidDebugInfo self files : Mon unit)) /\
  (forall root name x, uncaught (call_attr L root name x)) /\
  (forall obj x, uncaught (SimpleModelWithOneVariable_assign_add L obj x)) /\
  (forall obj c, uncaught (perform L obj c)).
Proof.
  repeat split; intros.
  - unfold _evaluateTFLiteModel, Interpreter, get_input_details,
      get_output_details, allocate_tensors, invoke, get_tensor, set_tensor,
      resize_tensor_input.
    repeat uncaught_step.
  - unfold _evaluateTFLiteModelUsingSignatureDef, Interpreter,
      get_signature_runner.
    repeat uncaught_step.
  - unfold _getSimpleVariableModel. repeat uncaught_step.
  - unfold _getSimpleModelWithVariables, SimpleModelWithOneVariable___init__.
    repeat uncaught_step.
  - unfold _getMultiFunctionModel, BasicModel___init__. repeat uncaught_step.
  - unfold _assertValidDebugInfo. repeat uncaught_step.
  - unfold call_attr, call_function. repeat uncaught_step.
  - unfold SimpleModelWithOneVariable_assign_add, assign_add.
    repeat uncaught_step.
  - destruct c; simpl;
      unfold BasicModel_add, BasicModel_sub, BasicModel_mul_add;
      repeat uncaught_step.
Qed.

(** A handler would show: this computation catches what the library
    raises, and [uncaught] does not hold of it. *)
Lemma try_except_catches :
  ~ uncaught
      (try_except (library Call_invoke (fun _ : unit => R_none)
                     (Raised RuntimeError))
         (fun _ => ret tt) : Mon unit).
Proof.
  intros H.
  destruct (H (mkWorld ∅ []) _ _ eq_refl) as (evs & Hlog & Hev).
  simpl in Hlog. subst evs.
  destruct (Hev 0%nat _ RuntimeError eq_refl eq_refl) as [_ Hr].
  discriminate.
Qed.

(** ** C7: the helpers write only to objects they create *)

Section Guards.
Variable D : gset loc.

Lemma guards_bind {A B} (m : Mon A) (k : A -> Mon B) Q Q' :
  guards D m Q -> (forall a, Q a -> guards D (k a) Q') ->
  guards D (bind m k) Q'.
Proof.
  intros Hm Hk w r w' HD Hrun. unfold bind in Hrun.
  destruct (m w) as [[a|e] w1] eqn:Hmw;
    destruct (Hm _ _ _ HD Hmw) as (HD1 & Hsame1 & HQ).
  - destruct (Hk a (HQ a eq_refl) _ _ _ HD1 Hrun) as (HD2 & Hsame2 & HQ').
    split; [exact HD2|]. split; [|exact HQ'].
    intros l Hl. rewrite Hsame2, Hsame1 by exact Hl. reflexivity.
  - injection Hrun as <- <-. split; [exact HD1|]. split; [exact Hsame1|].
    intros a [=].
Qed.

Lemma guards_post {A} (m : Mon A) (Q Q' : A -> Prop) :
  guards D m Q -> (forall a, Q a -> Q' a) -> guards D m Q'.
Proof.
  intros Hm HQ w r w' HD Hrun.
  destruct (Hm _ _ _ HD Hrun) as (HD1 & Hsame & Hq). auto.
Qed.

Lemma guards_same_heap {A} (m : Mon A) :
  (forall w, heap (snd (m w)) = heap w) -> guards D m anything.
Proof.
  intros Hm w r w' HD Hrun. specialize (Hm w). rewrite Hrun in Hm.
  simpl in Hm. rewrite Hm. unfold anything. auto.
Qed.

Lemma guards_new_object c :
  guards D (new_object c : Mon loc) (fun l => l ∉ D).
Proof.
  intros w r w' HD Hrun. unfold new_object in Hrun.
  injection Hrun as <- <-. cbn [heap].
  pose proof (is_fresh (dom (heap w))) as Hfresh.
  split; [rewrite dom_insert; set_solver|]. split.
  - intros l Hl. apply lookup_insert_ne. set_solver.
  - intros a [= <-]. set_solver.
Qed.

Lemma guards_store l c : l ∉ D -> guards D (store l c : Mon unit) anything.
Proof.
  intros Hl w r w' HD Hrun. unfold store in Hrun.
  injection Hrun as <- <-. cbn [heap].
  split; [rewrite dom_insert; set_solver|]. split; [|exact (fun _ _ => I)].
  intros l' Hl'. apply lookup_insert_ne. set_solver.
Qed.

Lemma guards_setattr o name v :
  o ∉ D -> guards D (setattr o name v : Mon unit) anything.
Proof.
  intros Ho w r w' HD Hrun. unfold setattr in Hrun.
  destruct (heap w !! o) as [[attrs| |]|];
    injection Hrun as <- <-; cbn [heap];
    try (split; [exact HD|]; split; [reflexivity | exact (fun _ _ => I)]).
  split; [rewrite dom_insert; set_solver|]. split; [|exact (fun _ _ => I)].
  intros l' Hl'. apply lookup_insert_ne. set_solver.
Qed.

Lemma guards_library {A} c obs (r : result A) :
  guards D (library c obs r : Mon A) anything.
Proof. apply guards_same_heap. reflexivity. Qed.

Lemma guards_ret {A} (a : A) : guards D (ret a : Mon A) anything.
Proof. apply guards_same_heap. reflexivity. Qed.

Lemma guards_ret_eq {A} (a : A) : guards D (ret a : Mon A) (fun x => x = a).
Proof.
  intros w r w' HD Hrun. injection Hrun as <- <-.
  split; [exact HD|]. split; [reflexivity|]. intros x [= <-]. reflexivity.
Qed.

Lemma guards_raise {A} e : guards D (raise e : Mon A) anything.
Proof. apply guards_same_heap. reflexivity. Qed.

Lemma guards_getattr o name : guards D (getattr o name : Mon value) anything.
Proof.
  apply guards_same_heap. intros w. unfold getattr.
  destruct (heap w !! o) as [[attrs| |]|]; try reflexivity.
  destruct (attrs !! name); reflexivity.
Qed.

Lemma guards_interp_state l : guards D (interp_state l : Mon interp) anything.
Proof.
  apply guards_same_heap. intros w. unfold interp_state.
  destruct (heap w !! l) as [[| |]|]; reflexivity.
Qed.

Lemma guards_read_value v : guards D (read_value v : Mon tensor) anything.
Proof.
  apply guards_same_heap. intros w. unfold read_value.
  destruct v as [|l|]; try reflexivity.
  destruct (heap w !! l) as [[| |]|]; reflexivity.
Qed.

Lemma guards_subscript {A} (xs : list A) n :
  guards D (subscript xs n : Mon A) anything.
Proof.
  apply guards_same_heap. intros w. unfold subscript.
  destruct (xs !! n); reflexivity.
Qed.

Lemma guards_assertTrue self b : guards D (assertTrue self b : Mon unit) anything.
Proof. apply guards_same_heap. intros w. destruct b; reflexivity. Qed.

Lemma guards_for_each {A} (xs : list A) (body : A -> Mon unit) :
  (forall x, guards D (body x) anything) ->
  guards D (for_each xs body) anything.
Proof.
  intros Hbody. induction xs as [|x xs IH]; simpl.
  - apply guards_ret.
  - eapply guards_bind; [apply Hbody | intros _ _; exact IH].
Qed.

Lemma guards_comprehension {A B} (xs : list A) (f : A -> Mon B) :
  (forall x, guards D (f x) anything) ->
  guards D (comprehension xs f) anything.
Proof.
  intros Hf. induction xs as [|x xs IH]; simpl.
  - apply guards_ret.
  - eapply guards_bind; [apply Hf | intros y _].
    eapply guards_bind; [exact IH | intros ys _; apply guards_ret].
Qed.

Lemma guards_query {A} l c obs (op : interp -> result A) :
  guards D (query l c obs op : Mon A) anything.
Proof.
  unfold query. eapply guards_bind; [apply guards_interp_state|].
  intros i _. apply guards_library.
Qed.

Lemma guards_mutate l c op :
  l ∉ D -> guards D (mutate l c op : Mon unit) anything.
Proof.
  intros Hl. unfold mutate.
  eapply guards_bind; [apply guards_interp_state | intros i _].
  eapply guards_bind; [apply guards_library | intros i' _].
  apply guards_store, Hl.
Qed.

Lemma guards_tf_Variable t : guards D (tf_Variable L t) anything.
Proof.
  unfold tf_Variable.
  eapply guards_bind; [apply guards_library | intros _ _].
  eapply guards_bind; [apply guards_new_object | intros l _].
  apply guards_ret.
Qed.

Lemma guards_Interpreter model : guards D (Interpreter L model) (fun l => l ∉ D).
Proof.
  unfold Interpreter.
  eapply guards_bind; [apply guards_same_heap; reflexivity | intros l _].
  eapply guards_bind; [apply guards_library | intros i _].
  apply guards_new_object.
Qed.

Lemma guards_evaluateTFLiteModel self model data shapes :
  guards D (_evaluateTFLiteModel L self model data shapes) anything.
Proof.
  unfold _evaluateTFLiteModel.
  eapply guards_bind; [apply guards_Interpreter | intros l Hl].
  eapply guards_bind; [apply guards_query | intros ins0 _].
  eapply guards_bind.
  { destruct (truthy shapes); [|apply guards_ret].
    apply guards_for_each. intros [idx [s f]].
    eapply guards_bind; [apply guards_subscript | intros d _].
    eapply guards_bind;
      [apply guards_same_heap; reflexivity | intros same _].
    eapply guards_bind; [apply guards_assertTrue | intros _ _].
    eapply guards_bind; [apply guards_subscript | intros d' _].
    apply guards_mutate, Hl. }
  intros _ _.
  eapply guards_bind; [apply guards_mutate, Hl | intros _ _].
  eapply guards_bind; [apply guards_query | intros outs_d _].
  eapply guards_bind; [apply guards_query | intros ins _].
  eapply guards_bind.
  { apply guards_for_each. intros [d x]. apply guards_mutate, Hl. }
  intros _ _.
  eapply guards_bind; [apply guards_mutate, Hl | intros _ _].
  apply guards_comprehension. intros d. apply guards_query.
Qed.

Lemma guards_evaluateTFLiteModelUsingSignatureDef self model name inputs :
  guards D (_evaluateTFLiteModelUsingSignatureDef L self model name inputs)
    anything.
Proof.
  unfold _evaluateTFLiteModelUsingSignatureDef.
  eapply guards_bind; [apply guards_Interpreter | intros l Hl].
  eapply guards_bind.
  { unfold get_signature_runner.
    eapply guards_bind; [apply guards_query | intros r _].
    eapply guards_post with (Q' := fun sr => fst sr ∉ D);
      [apply guards_ret_eq | intros sr ->; exact Hl]. }
  intros [owner r] Howner. simpl in Howner. unfold signature_runner_call.
  eapply guards_bind; [apply guards_interp_state | intros i _].
  eapply guards_bind; [apply guards_library | intros out _].
  eapply guards_bind; [apply guards_store, Howner | intros _ _].
  apply guards_ret.
Qed.

Lemma guards_getSimpleVariableModel self :
  guards D (_getSimpleVariableModel L self) anything.
Proof.
  unfold _getSimpleVariableModel.
  eapply guards_bind; [apply guards_new_object | intros root Hroot].
  eapply guards_bind; [apply guards_tf_Variable | intros v1 _].
  eapply guards_bind; [apply guards_setattr, Hroot | intros _ _].
  eapply guards_bind; [apply guards_tf_Variable | intros v2 _].
  eapply guards_bind; [apply guards_setattr, Hroot | intros _ _].
  eapply guards_bind; [apply guards_setattr, Hroot | intros _ _].
  apply guards_ret.
Qed.

Lemma guards_getSimpleModelWithVariables self :
  guards D (_getSimpleModelWithVariables L self) anything.
Proof.
  unfold _getSimpleModelWithVariables, SimpleModelWithOneVariable___init__.
  eapply guards_bind; [apply guards_new_object | intros obj Hobj].
  eapply guards_bind; [|intros _ _; apply guards_ret].
  eapply guards_bind; [apply guards_tf_Variable | intros v _].
  apply guards_setattr, Hobj.
Qed.

Lemma guards_getMultiFunctionModel self :
  guards D (_getMultiFunctionModel self : Mon loc) anything.
Proof.
  unfold _getMultiFunctionModel, BasicModel___init__.
  eapply guards_bind; [apply guards_new_object | intros obj Hobj].
  eapply guards_bind; [|intros _ _; apply guards_ret].
  eapply guards_bind; [apply guards_setattr, Hobj | intros _ _].
  apply guards_setattr, Hobj.
Qed.

Lemma guards_assertValidDebugInfo self files :
  guards D (_assertValidDebugInfo self files : Mon unit) anything.
Proof.
  apply guards_same_heap. intros w. unfold _assertValidDebugInfo.
  cbv zeta. unfold bind, assertIn, assertNotIn.
  repeat destruct (decide _); reflexivity.
Qed.

End Guards.

Lemma guards_lookup {A} (m : Mon A) (Q : A -> Prop) (w : World) (o : loc) c :
  guards {[o]} m Q -> heap w !! o = Some c ->
  heap (snd (m w)) !! o = Some c.
Proof.
  intros Hm Ho. destruct (m w) as [r w'] eqn:Hrun. simpl.
  destruct (Hm w r w') as (_ & Hsame & _); [|exact Hrun|].
  - apply singleton_subseteq_l, elem_of_dom. eauto.
  - rewrite Hsame by set_solver. exact Ho.
Qed.

(** C7.  Whatever object [o] the heap holds when a helper method is
    called -- the test instance [self] itself is one -- it is in the same
    state when the method has returned or raised: the interpreters, models
    and variables a helper makes are new objects, and no helper writes an
    attribute of [self] or of any other object that was there before. *)
Theorem helpers_leave_instance (self o : loc) (c : cell tensor interp)
    (w : World) :
  heap w !! o = Some c ->
  (forall model data shapes,
     heap (snd (_evaluateTFLiteModel L self model data shapes w)) !! o
     = Some c) /\
  (forall model method_name inputs,
     heap (snd (_evaluateTFLiteModelUsingSignatureDef L self model
                  method_name inputs w)) !! o = Some c) /\
  heap (snd (_getSimpleVariableModel L self w)) !! o = Some c /\
  heap (snd (_getSimpleModelWithVariables L self w)) !! o = Some c /\
  heap (snd (_getMultiFunctionModel self w)) !! o = Some c /\
  (forall files, heap (snd (_assertValidDebugInfo self files w)) !! o = Some c).
Proof.
  intros Ho. repeat split; intros;
    eapply guards_lookup; try exact Ho.
  - apply guards_evaluateTFLiteModel.
  - apply guards_evaluateTFLiteModelUsingSignatureDef.
  - apply guards_getSimpleVariableModel.
  - apply guards_getSimpleModelWithVariables.
  - apply guards_getMultiFunctionModel.
  - apply guards_assertValidDebugInfo.
Qed.

(** ** Stepping through object operations *)

Lemma tf_Variable_ok (t : tensor) (w : World) :
  Variable_init L t = None ->
  tf_Variable L t w =
    (Ok (VRef (fresh (dom (heap w)))),
     mkWorld (<[fresh (dom (heap w)) := VariableCell t]> (heap w))
       (log w ++ [Event (Call_Variable t) (Returned R_object)])).
Proof.
  intros H. unfold tf_Variable, bind, library, new_object, ret.
  rewrite H. reflexivity.
Qed.

Lemma tf_Variable_raises (t : tensor) (w : World) e :
  Variable_init L t = Some e ->
  tf_Variable L t w =
    (Raised e,
     mkWorld (heap w) (log w ++ [Event (Call_Variable t) (Raises e)])).
Proof.
  intros H. unfold tf_Variable, bind, library. rewrite H. reflexivity.
Qed.

Lemma setattr_at (o : loc) (name : string) (v : value) (w : World) attrs :
  heap w !! o = Some (Instance attrs) ->
  setattr o name v w =
    (Ok tt,
     mkWorld (<[o := Instance (<[name := v]> attrs)]> (heap w)) (log w)).
Proof. intros H. unfold setattr. rewrite H. reflexivity. Qed.

Lemma getattr_at (o : loc) (name : string) (w : World) attrs v :
  heap w !! o = Some (Instance attrs) -> attrs !! name = Some v ->
  getattr o name w = (Ok v, w).
Proof. intros H Hv. unfold getattr. rewrite H, Hv. reflexivity. Qed.

Lemma read_value_at (l : loc) (w : World) t :
  heap w !! l = Some (VariableCell t) ->
  read_value (VRef l) w = (Ok t, w).
Proof. intros H. unfold read_value. rewrite H. reflexivity. Qed.

Lemma fresh_not_at (h : gmap loc (cell tensor interp)) (o : loc) c :
  h !! o = Some c -> o <> fresh (dom h).
Proof.
  intros Ho ->. apply (is_fresh (dom h)), elem_of_dom. eauto.
Qed.

(** ** The models *)

(** What [_getSimpleVariableModel] builds when both constructors succeed. *)
Lemma getSimpleVariableModel_ok (self : loc) (w : World) :
  Variable_init L (convert_to_tensor L 3%float) = None ->
  Variable_init L (convert_to_tensor L 2%float) = None ->
  exists root l1 l2 h',
    _getSimpleVariableModel L self w =
      (Ok root,
       mkWorld h'
         (log w
          ++ [Event (Call_Variable (convert_to_tensor L 3%float))
                (Returned R_object);
              Event (Call_Variable (convert_to_tensor L 2%float))
                (Returned R_object)])) /\
    h' !! root =
      Some (Instance (<["f" := VFunction (Lambda_f root)]>
                        (<["v2" := VRef l2]> (<["v1" := VRef l1]> ∅)))) /\
    h' !! l1 = Some (VariableCell (convert_to_tensor L 3%float)) /\
    h' !! l2 = Some (VariableCell (convert_to_tensor L 2%float)) /\
    l1 <> l2 /\ heap w !! root = None /\ root = fresh (dom (heap w)).
Proof.
  intros H3 H2. unfold _getSimpleVariableModel.
  unfold bind at 1. unfold new_object at 1.
  set (root := fresh (dom (heap w))).
  set (w1 := mkWorld _ _).
  assert (Hroot1 : heap w1 !! root = Some (Instance ∅))
    by apply lookup_insert_eq.
  unfold bind at 1. rewrite (tf_Variable_ok _ w1 H3).
  set (l1 := fresh (dom (heap w1))).
  assert (Hl1 : root <> l1) by exact (fresh_not_at _ _ _ Hroot1).
  set (w2 := mkWorld _ _).
  assert (Hroot2 : heap w2 !! root = Some (Instance ∅)).
  { subst w2; cbn [heap]. rewrite lookup_insert_ne by congruence.
    exact Hroot1. }
  unfold bind at 1. rewrite (setattr_at _ _ _ w2 _ Hroot2).
  set (w3 := mkWorld _ _).
  unfold bind at 1. rewrite (tf_Variable_ok _ w3 H2).
  set (l2 := fresh (dom (heap w3))).
  assert (Hroot3 : heap w3 !! root = Some (Instance (<["v1" := VRef l1]> ∅)))
    by apply lookup_insert_eq.
  assert (Hl13 : heap w3 !! l1
                 = Some (VariableCell (convert_to_tensor L 3%float))).
  { subst w3 w2; cbn [heap]. rewrite lookup_insert_ne by congruence.
    apply lookup_insert_eq. }
  assert (Hl2 : root <> l2) by exact (fresh_not_at _ _ _ Hroot3).
  assert (Hl12 : l1 <> l2) by exact (fresh_not_at _ _ _ Hl13).
  set (w4 := mkWorld _ _).
  assert (Hroot4 : heap w4 !! root = Some (Instance (<["v1" := VRef l1]> ∅))).
  { subst w4; cbn [heap]. rewrite lookup_insert_ne by congruence.
    exact Hroot3. }
  unfold bind at 1. rewrite (setattr_at _ _ _ w4 _ Hroot4).
  set (w5 := mkWorld _ _).
  assert (Hroot5 : heap w5 !! root
                   = Some (Instance (<["v2" := VRef l2]>
                                       (<["v1" := VRef l1]> ∅))))
    by apply lookup_insert_eq.
  unfold bind at 1. rewrite (setattr_at _ _ _ w5 _ Hroot5).
  unfold ret.
  exists root, l1, l2. eexists. split.
  { f_equal. subst w5 w4 w3 w2 w1. cbn [heap log].
    rewrite <- app_assoc. reflexivity. }
  split; [apply lookup_insert_eq|].
  split.
  { subst w5 w4. cbn [heap].
    rewrite !lookup_insert_ne by congruence. apply lookup_insert_eq. }
  split.
  { subst w5 w4. cbn [heap].
    rewrite !lookup_insert_ne by congruence. apply lookup_insert_eq. }
  split; [exact Hl12|].
  split; [apply not_elem_of_dom, is_fresh | reflexivity].
Qed.

Lemma getSimpleModelWithVariables_ok (self : loc) (w : World) :
  Variable_init L (zeros L [1; 10] "var") = None ->
  exists obj l h',
    _getSimpleModelWithVariables L self w =
      (Ok obj,
       mkWorld h'
         (log w ++ [Event (Call_Variable (zeros L [1; 10] "var"))
                      (Returned R_object)])) /\
    h' !! obj = Some (Instance (<["var" := VRef l]> ∅)) /\
    h' !! l = Some (VariableCell (zeros L [1; 10] "var")) /\
    heap w !! obj = None /\ obj = fresh (dom (heap w)).
Proof.
  intros H0.
  unfold _getSimpleModelWithVariables, SimpleModelWithOneVariable___init__.
  unfold bind at 1. unfold new_object at 1.
  set (obj := fresh (dom (heap w))).
  set (w1 := mkWorld _ _).
  assert (Hobj1 : heap w1 !! obj = Some (Instance ∅))
    by apply lookup_insert_eq.
  unfold bind at 1. unfold bind at 1. rewrite (tf_Variable_ok _ w1 H0).
  set (l := fresh (dom (heap w1))).
  assert (Hl : obj <> l) by exact (fresh_not_at _ _ _ Hobj1).
  set (w2 := mkWorld _ _).
  assert (Hobj2 : heap w2 !! obj = Some (Instance ∅)).
  { subst w2; cbn [heap]. rewrite lookup_insert_ne by congruence.
    exact Hobj1. }
  rewrite (setattr_at _ _ _ w2 _ Hobj2). unfold ret.
  exists obj, l. eexists. split; [reflexivity|].
  split; [apply lookup_insert_eq|]. split.
  - cbn [heap]. rewrite lookup_insert_ne by congruence.
    apply lookup_insert_eq.
  - split; [apply not_elem_of_dom, is_fresh | reflexivity].
Qed.

Lemma getMultiFunctionModel_run (self : loc) (w : World) :
  exists obj h',
    _getMultiFunctionModel self w = (Ok obj, mkWorld h' (log w)) /\
    h' !! obj = Some (Instance (<["z" := VNone]> (<["y" := VNone]> ∅))) /\
    heap w !! obj = None /\ obj = fresh (dom (heap w)).
Proof.
  unfold _getMultiFunctionModel, BasicModel___init__.
  unfold bind at 1. unfold new_object at 1.
  set (obj := fresh (dom (heap w))).
  set (w1 := mkWorld _ _).
  assert (Hobj1 : heap w1 !! obj = Some (Instance ∅))
    by apply lookup_insert_eq.
  unfold bind at 1. unfold bind at 1.
  rewrite (setattr_at _ _ _ w1 _ Hobj1).
  set (w2 := mkWorld _ _).
  assert (Hobj2 : heap w2 !! obj = Some (Instance (<["y" := VNone]> ∅)))
    by apply lookup_insert_eq.
  rewrite (setattr_at _ _ _ w2 _ Hobj2). unfold ret.
  exists obj. eexists. split; [reflexivity|].
  split; [apply lookup_insert_eq|].
  split; [apply not_elem_of_dom, is_fresh | reflexivity].
Qed.

Lemma elem_of_variable_attrs (w : World) (obj : loc) attrs (name : string) :
  heap w !! obj = Some (Instance attrs) ->
  name ∈ variable_attrs w obj <->
  exists v, attrs !! name = Some v /\ is_variable w v = true.
Proof.
  intros Hobj. unfold variable_attrs. rewrite Hobj, elem_of_dom.
  unfold is_Some. setoid_rewrite map_lookup_filter_Some. simpl. reflexivity.
Qed.

Lemma variable_attrs_subseteq (w : World) (obj : loc) attrs :
  heap w !! obj = Some (Instance attrs) ->
  variable_attrs w obj ⊆ dom attrs.
Proof.
  intros Hobj name Hname.
  apply (elem_of_variable_attrs _ _ _ _ Hobj) in Hname.
  destruct Hname as (v & Hv & _). apply elem_of_dom. eauto.
Qed.

Lemma is_variable_at (w : World) (l : loc) t :
  heap w !! l = Some (VariableCell t) -> is_variable w (VRef l) = true.
Proof. intros H. unfold is_variable. rewrite H. reflexivity. Qed.

(** *** A [BasicModel] never has attributes other than [y] and [z] *)

Lemma keeps_bind obj {A B} (m : Mon A) (k : A -> Mon B) :
  keeps_shape obj m -> (forall a, keeps_shape obj (k a)) ->
  keeps_shape obj (bind m k).
Proof.
  intros Hm Hk w r w' Hw Hrun. unfold bind in Hrun.
  destruct (m w) as [[a|e] w1] eqn:Hmw.
  - exact (Hk a _ _ _ (Hm _ _ _ Hw Hmw) Hrun).
  - injection Hrun as <- <-. exact (Hm _ _ _ Hw Hmw).
Qed.

Lemma keeps_same_heap obj {A} (m : Mon A) :
  (forall w, heap (snd (m w)) = heap w) -> keeps_shape obj m.
Proof.
  intros Hm w r w' Hw Hrun. specialize (Hm w). rewrite Hrun in Hm.
  unfold basic_shape. simpl in Hm. rewrite Hm. exact Hw.
Qed.

Lemma keeps_new_object obj c : keeps_shape obj (new_object c : Mon loc).
Proof.
  intros w r w' (attrs & Hobj & Hdom) Hrun. unfold new_object in Hrun.
  injection Hrun as <- <-. exists attrs. split; [|exact Hdom].
  cbn [heap]. rewrite lookup_insert_ne; [exact Hobj|].
  intros Heq. exact (fresh_not_at _ _ _ Hobj (eq_sym Heq)).
Qed.

Lemma keeps_setattr obj name v :
  name ∈ ({["y"; "z"]} : gset string) ->
  keeps_shape obj (setattr obj name v : Mon unit).
Proof.
  intros Hname w r w' (attrs & Hobj & Hdom) Hrun.
  rewrite (setattr_at _ _ _ _ _ Hobj) in Hrun. injection Hrun as <- <-.
  exists (<[name := v]> attrs). cbn [heap].
  split; [apply lookup_insert_eq|]. rewrite dom_insert. set_solver.
Qed.

Lemma keeps_tf_Variable obj t : keeps_shape obj (tf_Variable L t).
Proof.
  unfold tf_Variable.
  apply keeps_bind; [apply keeps_same_heap; reflexivity | intros _].
  apply keeps_bind; [apply keeps_new_object | intros l].
  apply keeps_same_heap. reflexivity.
Qed.

Lemma keeps_getattr obj o name : keeps_shape obj (getattr o name : Mon value).
Proof.
  apply keeps_same_heap. intros w. unfold getattr.
  destruct (heap w !! o) as [[attrs| |]|]; try reflexivity.
  destruct (attrs !! name); reflexivity.
Qed.

Lemma keeps_read_value obj v : keeps_shape obj (read_value v : Mon tensor).
Proof.
  apply keeps_same_heap. intros w. unfold read_value.
  destruct v as [|l|]; try reflexivity.
  destruct (heap w !! l) as [[| |]|]; reflexivity.
Qed.

Lemma keeps_perform obj c : keeps_shape obj (perform L obj c).
Proof.
  destruct c; simpl;
    unfold BasicModel_add, BasicModel_sub, BasicModel_mul_add;
    (apply keeps_bind; [apply keeps_getattr | intros v0];
     apply keeps_bind;
       [ destruct (is_None v0);
         [ apply keeps_bind; [apply keeps_tf_Variable | intros v1];
           apply keeps_setattr; set_solver
         | apply keeps_same_heap; reflexivity ]
       | intros _ ];
     apply keeps_bind; [apply keeps_getattr | intros v2];
     apply keeps_bind; [apply keeps_read_value | intros t];
     apply keeps_same_heap; reflexivity).
Qed.

Lemma keeps_perform_all obj cs : keeps_shape obj (perform_all L obj cs).
Proof.
  unfold perform_all. induction cs as [|c cs IH]; simpl.
  - apply keeps_same_heap. reflexivity.
  - apply keeps_bind; [apply keeps_perform | intros t].
    apply keeps_bind; [exact IH | intros ts].
    apply keeps_same_heap. reflexivity.
Qed.

(** *** The lazily created variables of a [BasicModel] *)

(** The pattern the three methods share: create the variable behind
    attribute [name] unless it is there, then read it. *)
Lemma lazy_read {A} (obj : loc) (name : string) (t : tensor)
    (F : tensor -> A) (o : option loc) (w : World) attrs :
  Variable_init L t = None ->
  heap w !! obj = Some (Instance attrs) ->
  attrs !! name = Some (from_option VRef VNone o) ->
  (forall l, o = Some l -> heap w !! l = Some (VariableCell t)) ->
  (v <- getattr obj name ;;
   (if is_None v then
      v' <- tf_Variable L t ;;
      setattr obj name v'
    else ret tt) ;;;
   v <- getattr obj name ;;
   v <- read_value v ;;
   ret (F v)) w
  = (Ok (F t),
     match o with
     | Some _ => w
     | None =>
         let l := fresh (dom (heap w)) in
         mkWorld
           (<[obj := Instance (<[name := VRef l]> attrs)]>
              (<[l := VariableCell t]> (heap w)))
           (log w ++ [Event (Call_Variable t) (Returned R_object)])
     end).
Proof.
  intros Hinit Hobj Hname Hcell.
  unfold bind at 1. rewrite (getattr_at _ _ _ _ _ Hobj Hname).
  destruct o as [l|]; simpl in *.
  - unfold bind at 1. unfold ret at 1.
    unfold bind at 1. rewrite (getattr_at _ _ _ _ _ Hobj Hname).
    unfold bind at 1. rewrite (read_value_at _ _ _ (Hcell l eq_refl)).
    reflexivity.
  - unfold bind at 1. unfold bind at 1. rewrite (tf_Variable_ok _ w Hinit).
    set (l := fresh (dom (heap w))).
    assert (Hl : obj <> l) by exact (fresh_not_at _ _ _ Hobj).
    set (w1 := mkWorld _ _).
    assert (Hobj1 : heap w1 !! obj = Some (Instance attrs)).
    { subst w1; cbn [heap]. rewrite lookup_insert_ne by congruence.
      exact Hobj. }
    rewrite (setattr_at _ _ _ w1 _ Hobj1).
    set (w2 := mkWorld _ _).
    assert (Hobj2 : heap w2 !! obj
                    = Some (Instance (<[name := VRef l]> attrs)))
      by apply lookup_insert_eq.
    unfold bind at 1.
    rewrite (getattr_at _ _ _ _ (VRef l) Hobj2 (lookup_insert_eq _ _ _)).
    assert (Hl2 : heap w2 !! l = Some (VariableCell t)).
    { subst w2 w1; cbn [heap]. rewrite lookup_insert_ne by congruence.
      apply lookup_insert_eq. }
    unfold bind at 1. rewrite (read_value_at _ _ _ Hl2).
    reflexivity.
Qed.

Lemma perform_step (obj : loc) (c : model_call tensor) (oy oz : option loc)
    (w : World) :
  Variable_init L (convert_to_tensor L 2%float) = None ->
  Variable_init L (convert_to_tensor L 3%float) = None ->
  model_state L obj oy oz w ->
  exists w' oy' oz',
    perform L obj c w = (Ok (expected L c), w') /\
    model_state L obj oy' oz' w' /\
    log w' = log w
             ++ map returned_object
                  (creations L (created oy) (created oz) [c]) /\
    created oy' = created oy || is_add c /\
    created oz' = created oz || uses_z c /\
    (forall l, oy = Some l -> oy' = Some l) /\
    (forall l, oz = Some l -> oz' = Some l).
Proof.
  intros H2 H3 (attrs & Hobj & Hy & Hz & Hycell & Hzcell).
  assert (Hfresh : forall l t, heap w !! l = Some (VariableCell t) ->
            <[obj := Instance (<["y" := VRef (fresh (dom (heap w)))]> attrs)]>
              (<[fresh (dom (heap w)) := VariableCell (convert_to_tensor L 2%float)]>
                 (heap w)) !! l = Some (VariableCell t) /\
            <[obj := Instance (<["z" := VRef (fresh (dom (heap w)))]> attrs)]>
              (<[fresh (dom (heap w)) := VariableCell (convert_to_tensor L 3%float)]>
                 (heap w)) !! l = Some (VariableCell t)).
  { intros l t Hl.
    assert (l <> obj) by (intros ->; rewrite Hobj in Hl; discriminate).
    pose proof (fresh_not_at _ _ _ Hl).
    rewrite !lookup_insert_ne by congruence. auto. }
  destruct c as [x|x|x y]; simpl.
  - unfold BasicModel_add.
    rewrite (lazy_read obj "y" _ (tensor_add L x) oy w attrs H2 Hobj Hy Hycell).
    destruct oy as [l|]; simpl.
    + exists w, (Some l), oz. rewrite app_nil_r, orb_false_r.
      repeat split; auto. exists attrs. auto.
    + eexists _, (Some (fresh (dom (heap w)))), oz. rewrite orb_false_r.
      repeat split; auto; [|discriminate].
      eexists. cbn [heap]. split; [apply lookup_insert_eq|].
      split; [apply lookup_insert_eq|].
      split; [rewrite lookup_insert_ne by discriminate; exact Hz|].
      split.
      * intros l [= <-]. rewrite lookup_insert_ne
          by exact (fresh_not_at _ _ _ Hobj).
        apply lookup_insert_eq.
      * intros l Hl. apply Hfresh, Hzcell, Hl.
  - unfold BasicModel_sub.
    rewrite (lazy_read obj "z" _ (tensor_sub L x) oz w attrs H3 Hobj Hz Hzcell).
    destruct oz as [l|]; simpl.
    + exists w, oy, (Some l). rewrite app_nil_r, orb_false_r.
      repeat split; auto. exists attrs. auto.
    + eexists _, oy, (Some (fresh (dom (heap w)))). rewrite orb_false_r.
      repeat split; auto; [|discriminate].
      eexists. cbn [heap]. split; [apply lookup_insert_eq|].
      split; [rewrite lookup_insert_ne by discriminate; exact Hy|].
      split; [apply lookup_insert_eq|].
      split.
      * intros l Hl. apply Hfresh, Hycell, Hl.
      * intros l [= <-]. rewrite lookup_insert_ne
          by exact (fresh_not_at _ _ _ Hobj).
        apply lookup_insert_eq.
  - unfold BasicModel_mul_add.
    rewrite (lazy_read obj "z" _
               (fun z => tensor_add L (tensor_mul L x z) y)
               oz w attrs H3 Hobj Hz Hzcell).
    destruct oz as [l|]; simpl.
    + exists w, oy, (Some l). rewrite app_nil_r, orb_false_r.
      repeat split; auto. exists attrs. auto.
    + eexists _, oy, (Some (fresh (dom (heap w)))). rewrite orb_false_r.
      repeat split; auto; [|discriminate].
      eexists. cbn [heap]. split; [apply lookup_insert_eq|].
      split; [rewrite lookup_insert_ne by discriminate; exact Hy|].
      split; [apply lookup_insert_eq|].
      split.
      * intros l Hl. apply Hfresh, Hycell, Hl.
      * intros l [= <-]. rewrite lookup_insert_ne
          by exact (fresh_not_at _ _ _ Hobj).
        apply lookup_insert_eq.
Qed.

Lemma perform_all_run (obj : loc) (cs : list (model_call tensor)) :
  Variable_init L (convert_to_tensor L 2%float) = None ->
  Variable_init L (convert_to_tensor L 3%float) = None ->
  forall (oy oz : option loc) (w : World),
  model_state L obj oy oz w ->
  exists w' oy' oz',
    perform_all L obj cs w = (Ok (map (expected L) cs), w') /\
    model_state L obj oy' oz' w' /\
    log w' = log w
             ++ map returned_object
                  (creations L (created oy) (created oz) cs) /\
    created oy' = created oy || existsb is_add cs /\
    created oz' = created oz || existsb uses_z cs /\
    (forall l, oy = Some l -> oy' = Some l) /\
    (forall l, oz = Some l -> oz' = Some l).
Proof.
  intros H2 H3. unfold perform_all.
  induction cs as [|c cs IH]; intros oy oz w Hstate.
  - exists w, oy, oz. simpl. rewrite app_nil_r, !orb_false_r.
    repeat split; auto.
  - destruct (perform_step obj c oy oz w H2 H3 Hstate)
      as (w1 & oy1 & oz1 & Hrun1 & Hstate1 & Hlog1 & Hy1 & Hz1 & Hky & Hkz).
    destruct (IH oy1 oz1 w1 Hstate1)
      as (w2 & oy2 & oz2 & Hrun2 & Hstate2 & Hlog2 & Hy2 & Hz2 & Hky2 & Hkz2).
    exists w2, oy2, oz2.
    split.
    { cbn [comprehension]. unfold bind at 1. rewrite Hrun1.
      unfold bind at 1. rewrite Hrun2. reflexivity. }
    split; [exact Hstate2|].
    split.
    { rewrite Hlog2, Hlog1, Hy1, Hz1, <- app_assoc, <- map_app.
      f_equal. f_equal. simpl.
      destruct c; simpl; rewrite ?app_nil_r, ?orb_false_r, ?orb_true_r;
        reflexivity. }
    split; [rewrite Hy2, Hy1; simpl; symmetry; apply orb_assoc|].
    split; [rewrite Hz2, Hz1; simpl; symmetry; apply orb_assoc|].
    split; intros l Hl; auto.
Qed.

(** Each variable is constructed at most once, whatever the calls. *)
Lemma creations_count (hy hz : bool) (cs : list (model_call tensor)) :
  length (creations L hy hz cs)
  = ((if negb hy && existsb is_add cs then 1 else 0)
     + (if negb hz && existsb uses_z cs then 1 else 0))%nat.
Proof.
  revert hy hz; induction cs as [|c cs IH]; intros hy hz; simpl.
  - rewrite !andb_false_r. reflexivity.
  - destruct c; simpl; rewrite length_app, IH;
      destruct hy, hz; simpl; try reflexivity;
      destruct (existsb is_add cs), (existsb uses_z cs); reflexivity.
Qed.

Lemma creations_none (cs : list (model_call tensor)) :
  creations L true true cs = [].
Proof. induction cs as [|[] cs IH]; simpl; exact IH || reflexivity. Qed.

Lemma model_state_attrs obj oy oz w :
  model_state L obj oy oz w ->
  object_attr w obj "y" = Some (from_option VRef VNone oy) /\
  object_attr w obj "z" = Some (from_option VRef VNone oz) /\
  variable_value w obj "y"
  = (if created oy then Some (convert_to_tensor L 2%float) else None) /\
  variable_value w obj "z"
  = (if created oz then Some (convert_to_tensor L 3%float) else None).
Proof.
  intros (attrs & Hobj & Hy & Hz & Hycell & Hzcell).
  unfold object_attr, variable_value. rewrite Hobj, Hy, Hz.
  repeat split.
  - destruct oy as [l|]; simpl; [|reflexivity].
    rewrite (Hycell l eq_refl). reflexivity.
  - destruct oz as [l|]; simpl; [|reflexivity].
    rewrite (Hzcell l eq_refl). reflexivity.
Qed.

(** ** C5: how many variables the models hold *)

(** The attributes of a [BasicModel] that hold a variable, by its
    state. *)
Lemma model_state_variables obj oy oz w :
  model_state L obj oy oz w -> basic_shape obj w ->
  variable_attrs w obj
  = (if created oy then {["y"]} else ∅ : gset string)
    ∪ (if created oz then {["z"]} else ∅).
Proof.
  intros (attrs & Hobj & Hy & Hz & Hycell & Hzcell) (attrs' & Hobj' & Hdom).
  rewrite Hobj in Hobj'. injection Hobj' as <-.
  apply set_eq. intros name.
  rewrite (elem_of_variable_attrs w obj attrs name Hobj). split.
  - intros (v & Hv & Hvar).
    assert (Hname : name ∈ ({["y"; "z"]} : gset string)).
    { apply Hdom, elem_of_dom. eauto. }
    apply elem_of_union in Hname. destruct Hname as [Hn|Hn];
      apply elem_of_singleton in Hn; subst name.
    + rewrite Hy in Hv. injection Hv as <-.
      destruct oy as [l|]; simpl in *; [set_solver | discriminate].
    + rewrite Hz in Hv. injection Hv as <-.
      destruct oz as [l|]; simpl in *; [set_solver | discriminate].
  - intros Hname. apply elem_of_union in Hname. destruct Hname as [Hn|Hn].
    + destruct oy as [l|]; simpl in Hn; [|set_solver].
      apply elem_of_singleton in Hn; subst name.
      exists (VRef l). split; [exact Hy|].
      exact (is_variable_at w l _ (Hycell l eq_refl)).
    + destruct oz as [l|]; simpl in Hn; [|set_solver].
      apply elem_of_singleton in Hn; subst name.
      exists (VRef l). split; [exact Hz|].
      exact (is_variable_at w l _ (Hzcell l eq_refl)).
Qed.

(** C5.  Provided the variable constructors do not raise:
    [_getSimpleVariableModel] returns an object whose attributes that hold
    a variable are exactly [v1] and [v2], two of them;
    [_getSimpleModelWithVariables] returns an object whose only such
    attribute is [var]; and [_getMultiFunctionModel] returns an object
    with the attributes [y] and [z], both [None], which after any sequence
    [cs] of calls of its methods holds a variable in [y] exactly if [cs]
    has an [add] and in [z] exactly if [cs] has a [sub] or a [mul_add],
    and in no other attribute: none to begin with, never more than
    two. *)
Theorem models_hold_their_variables (self : loc) (w : World) :
  Variable_init L (convert_to_tensor L 3%float) = None ->
  Variable_init L (convert_to_tensor L 2%float) = None ->
  Variable_init L (zeros L [1; 10] "var") = None ->
  (exists root w',
     _getSimpleVariableModel L self w = (Ok root, w') /\
     variable_attrs w' root = {["v1"; "v2"]} /\
     size (variable_attrs w' root) = 2%nat) /\
  (exists obj w',
     _getSimpleModelWithVariables L self w = (Ok obj, w') /\
     variable_attrs w' obj = {["var"]} /\
     size (variable_attrs w' obj) = 1%nat) /\
  (exists obj w',
     _getMultiFunctionModel self w = (Ok obj, w') /\
     object_attr w' obj "y" = Some VNone /\
     object_attr w' obj "z" = Some VNone /\
     forall cs,
       variable_attrs (snd (perform_all L obj cs w')) obj
       = (if existsb is_add cs then {["y"]} else ∅ : gset string)
         ∪ (if existsb uses_z cs then {["z"]} else ∅) /\
       variable_attrs (snd (perform_all L obj cs w')) obj ⊆ {["y"; "z"]} /\
       (size (variable_attrs (snd (perform_all L obj cs w')) obj) <= 2)%nat).
Proof.
  intros H3 H2 H0. split; [|split].
  - destruct (getSimpleVariableModel_ok self w H3 H2)
      as (root & l1 & l2 & h' & Hrun & Hroot & Hl1 & Hl2 & Hne & _).
    eexists root, _. split; [exact Hrun|].
    set (w' := mkWorld h' _).
    assert (Hset : variable_attrs w' root = {["v1"; "v2"]}).
    { apply set_eq. intros name.
      rewrite (elem_of_variable_attrs w' root _ name Hroot).
      split.
      - intros (v & Hv & Hvar).
        apply lookup_insert_Some in Hv.
        destruct Hv as [[_ <-] | [_ Hv]]; [discriminate|].
        apply lookup_insert_Some in Hv.
        destruct Hv as [[<- _] | [_ Hv]]; [set_solver|].
        apply lookup_insert_Some in Hv.
        destruct Hv as [[<- _] | [_ Hv]]; [set_solver|].
        rewrite lookup_empty in Hv. discriminate.
      - intros Hname.
        apply elem_of_union in Hname. destruct Hname as [Hn|Hn];
          apply elem_of_singleton in Hn; subst name.
        + exists (VRef l1). split; [reflexivity|].
          exact (is_variable_at w' l1 _ Hl1).
        + exists (VRef l2). split; [reflexivity|].
          exact (is_variable_at w' l2 _ Hl2). }
    split; [exact Hset|]. rewrite Hset. reflexivity.
  - destruct (getSimpleModelWithVariables_ok self w H0)
      as (obj & l & h' & Hrun & Hobj & Hl & _).
    eexists obj, _. split; [exact Hrun|].
    set (w' := mkWorld h' _).
    assert (Hset : variable_attrs w' obj = {["var"]}).
    { apply set_eq. intros name.
      rewrite (elem_of_variable_attrs w' obj _ name Hobj).
      split.
      - intros (v & Hv & Hvar).
        apply lookup_insert_Some in Hv.
        destruct Hv as [[<- _] | [_ Hv]]; [set_solver|].
        rewrite lookup_empty in Hv. discriminate.
      - intros Hn. apply elem_of_singleton in Hn; subst name.
        exists (VRef l). split; [reflexivity|].
        exact (is_variable_at w' l _ Hl). }
    split; [exact Hset|]. rewrite Hset. reflexivity.
  - destruct (getMultiFunctionModel_run self w) as (obj & h' & Hrun & Hobj & _).
    eexists obj, _. split; [exact Hrun|].
    set (w' := mkWorld h' _).
    assert (Hstate : model_state L obj None None w').
    { eexists. split; [exact Hobj|]. repeat split; discriminate. }
    assert (Hshape : basic_shape obj w').
    { eexists. split; [exact Hobj|]. rewrite !dom_insert. set_solver. }
    destruct (model_state_attrs _ _ _ _ Hstate) as (Hy & Hz & _ & _).
    split; [exact Hy|]. split; [exact Hz|]. intros cs.
    destruct (perform_all_run obj cs H2 H3 _ _ _ Hstate)
      as (w1 & oy & oz & Hcs & Hstate1 & _ & Hoy & Hoz & _ & _).
    pose proof (keeps_perform_all obj cs _ _ _ Hshape Hcs) as Hshape1.
    rewrite Hcs. cbn [snd].
    pose proof (model_state_variables _ _ _ _ Hstate1 Hshape1) as Hheld.
    rewrite Hoy, Hoz in Hheld. simpl in Hheld.
    assert (Hsub : variable_attrs w1 obj ⊆ {["y"; "z"]}).
    { rewrite Hheld.
      destruct (existsb is_add cs), (existsb uses_z cs); set_solver. }
    split; [exact Hheld|]. split; [exact Hsub|].
    apply subseteq_size in Hsub. etransitivity; [exact Hsub|].
    reflexivity.
Qed.

(** ** C9: lazy, one-time creation of [y] and [z] *)

(** C9.  Provided the constructors of the variables for 2.0 and 3.0 do not
    raise, the object [_getMultiFunctionModel] returns has no variable
    yet, and for any calls [cs] of its methods followed by any further
    calls [cs']: every call returns, [add(x)] what [x + 2.0] is, [sub(x)]
    what [x - 3.0] is and [mul_add(x, y)] what [x * 3.0 + y] is; the
    variable constructor is called for 2.0 at the first [add] and for 3.0
    at the first [sub] or [mul_add] and at no other call, so at most once
    each; after [cs], [y] holds 2.0 exactly if [cs] has an [add] and [z]
    holds 3.0 exactly if [cs] has a [sub] or [mul_add]; and a variable
    that [y] or [z] refers to after [cs] is the one it refers to after
    [cs'] as well. *)
Theorem multi_function_model_is_lazy (self : loc) (w : World)
    (cs cs' : list (model_call tensor)) :
  Variable_init L (convert_to_tensor L 2%float) = None ->
  Variable_init L (convert_to_tensor L 3%float) = None ->
  exists obj w0 w1 w2,
    _getMultiFunctionModel self w = (Ok obj, w0) /\
    log w0 = log w /\
    object_attr w0 obj "y" = Some VNone /\
    object_attr w0 obj "z" = Some VNone /\
    perform_all L obj cs w0 = (Ok (map (expected L) cs), w1) /\
    log w1 = log w0 ++ map returned_object (creations L false false cs) /\
    (length (creations L false false cs)
     = (if existsb is_add cs then 1 else 0)
       + (if existsb uses_z cs then 1 else 0))%nat /\
    variable_value w1 obj "y"
    = (if existsb is_add cs
       then Some (convert_to_tensor L 2%float) else None) /\
    variable_value w1 obj "z"
    = (if existsb uses_z cs
       then Some (convert_to_tensor L 3%float) else None) /\
    perform_all L obj cs' w1 = (Ok (map (expected L) cs'), w2) /\
    log w2 = log w1
             ++ map returned_object
                  (creations L (existsb is_add cs) (existsb uses_z cs) cs') /\
    (forall l, object_attr w1 obj "y" = Some (VRef l) ->
               object_attr w2 obj "y" = Some (VRef l)) /\
    (forall l, object_attr w1 obj "z" = Some (VRef l) ->
               object_attr w2 obj "z" = Some (VRef l)).
Proof.
  intros H2 H3.
  destruct (getMultiFunctionModel_run self w) as (obj & h' & Hrun & Hobj & _).
  set (w0 := mkWorld h' (log w)) in *.
  assert (Hstate0 : model_state L obj None None w0).
  { eexists. split; [exact Hobj|]. repeat split; discriminate. }
  destruct (perform_all_run obj cs H2 H3 _ _ _ Hstate0)
    as (w1 & oy1 & oz1 & Hrun1 & Hstate1 & Hlog1 & Hy1 & Hz1 & _ & _).
  destruct (perform_all_run obj cs' H2 H3 _ _ _ Hstate1)
    as (w2 & oy2 & oz2 & Hrun2 & Hstate2 & Hlog2 & Hy2 & Hz2 & Hky & Hkz).
  simpl in Hy1, Hz1, Hlog1.
  destruct (model_state_attrs _ _ _ _ Hstate0) as (Ha0y & Ha0z & _ & _).
  destruct (model_state_attrs _ _ _ _ Hstate1) as (Ha1y & Ha1z & Hv1y & Hv1z).
  destruct (model_state_attrs _ _ _ _ Hstate2) as (Ha2y & Ha2z & _ & _).
  exists obj, w0, w1, w2.
  split; [exact Hrun|]. split; [reflexivity|].
  split; [exact Ha0y|]. split; [exact Ha0z|].
  split; [exact Hrun1|]. split; [exact Hlog1|].
  split; [rewrite creations_count; reflexivity|].
  split; [rewrite Hv1y, Hy1; reflexivity|].
  split; [rewrite Hv1z, Hz1; reflexivity|].
  split; [exact Hrun2|].
  split; [rewrite Hlog2, Hy1, Hz1; reflexivity|].
  split.
  - intros l Hl. rewrite Ha1y in Hl. rewrite Ha2y.
    destruct oy1 as [l1|]; simpl in Hl; [|discriminate].
    injection Hl as <-. rewrite (Hky l1 eq_refl). reflexivity.
  - intros l Hl. rewrite Ha1z in Hl. rewrite Ha2z.
    destruct oz1 as [l1|]; simpl in Hl; [|discriminate].
    injection Hl as <-. rewrite (Hkz l1 eq_refl). reflexivity.
Qed.

(** ** C10: the traced function of the simple variable model *)

(** The lambda reads both variables and multiplies left to right. *)
Lemma lambda_f_run (root l1 l2 : loc) (a b x : tensor) (w : World) attrs :
  heap w !! root = Some (Instance attrs) ->
  attrs !! "v1" = Some (VRef l1) -> attrs !! "v2" = Some (VRef l2) ->
  heap w !! l1 = Some (VariableCell a) ->
  heap w !! l2 = Some (VariableCell b) ->
  call_function L (Lambda_f root) x w
  = (Ok (tensor_mul L (tensor_mul L a b) x), w).
Proof.
  intros Hroot Hv1 Hv2 Hl1 Hl2. unfold call_function.
  unfold bind at 1. rewrite (getattr_at _ _ _ _ _ Hroot Hv1).
  unfold bind at 1. rewrite (getattr_at _ _ _ _ _ Hroot Hv2).
  unfold bind at 1. rewrite (read_value_at _ _ _ Hl1).
  unfold bind at 1. rewrite (read_value_at _ _ _ Hl2).
  reflexivity.
Qed.

(** C10.  Provided the two variable constructors do not raise and the
    product of the tensors for 3.0 and 2.0 is the tensor for 6.0 (as it is
    in floating point, exactly), the object [_getSimpleVariableModel]
    returns has [v1] at 3.0 and [v2] at 2.0, and its [f] applied to any
    [x] returns the product of the tensor for 6.0 and [x], leaving the
    world as it is. *)
Theorem simple_variable_model_f (self : loc) (w : World) (x : tensor) :
  Variable_init L (convert_to_tensor L 3%float) = None ->
  Variable_init L (convert_to_tensor L 2%float) = None ->
  tensor_mul L (convert_to_tensor L 3%float) (convert_to_tensor L 2%float)
  = convert_to_tensor L 6%float ->
  exists root w',
    _getSimpleVariableModel L self w = (Ok root, w') /\
    variable_value w' root "v1" = Some (convert_to_tensor L 3%float) /\
    variable_value w' root "v2" = Some (convert_to_tensor L 2%float) /\
    call_attr L root "f" x w'
    = (Ok (tensor_mul L (convert_to_tensor L 6%float) x), w').
Proof.
  intros H3 H2 Hmul.
  destruct (getSimpleVariableModel_ok self w H3 H2)
    as (root & l1 & l2 & h' & Hrun & Hroot & Hl1 & Hl2 & _ & _).
  eexists root, _. split; [exact Hrun|].
  set (w' := mkWorld h' _).
  change (heap w' !! root = Some (Instance
            (<["f" := VFunction (Lambda_f root)]>
               (<["v2" := VRef l2]> (<["v1" := VRef l1]> ∅))))) in Hroot.
  change (heap w' !! l1 = Some (VariableCell (convert_to_tensor L 3%float)))
    in Hl1.
  change (heap w' !! l2 = Some (VariableCell (convert_to_tensor L 2%float)))
    in Hl2.
  set (attrs := <["f" := VFunction (Lambda_f root)]>
                  (<["v2" := VRef l2]> (<["v1" := VRef l1]> ∅))) in Hroot.
  assert (Hv1 : attrs !! "v1" = Some (VRef l1)) by reflexivity.
  assert (Hv2 : attrs !! "v2" = Some (VRef l2)) by reflexivity.
  assert (Hf : attrs !! "f" = Some (VFunction (Lambda_f root)))
    by reflexivity.
  split; [unfold variable_value; rewrite Hroot, Hv1, Hl1; reflexivity|].
  split; [unfold variable_value; rewrite Hroot, Hv2, Hl2; reflexivity|].
  unfold call_attr. unfold bind at 1.
  rewrite (getattr_at _ _ _ _ _ Hroot Hf).
  rewrite (lambda_f_run root l1 l2 _ _ x w' _ Hroot Hv1 Hv2 Hl1 Hl2).
  rewrite Hmul. reflexivity.
Qed.

(** ** C6: no helper handles an exception *)

(** What [_evaluateTFLiteModel] returns or raises, call by call. *)
Lemma evaluate_result (self : loc) (model : bytes) (data : list tensor)
    (shapes : option (list (list Z * list Z))) (w : World) :
  fst (_evaluateTFLiteModel L self model data shapes w)
  = match Interpreter_init L model (fresh (dom (heap w))) with
    | Raised e => Raised e
    | Ok i0 =>
    match Interpreter_get_input_details L i0 with
    | Raised e => Raised e
    | Ok ins0 =>
    match fst (resized L ins0 0 (default [] shapes) i0) with
    | Raised e => Raised e
    | Ok iR =>
    match Interpreter_allocate_tensors L iR with
    | Raised e => Raised e
    | Ok i1 =>
    match Interpreter_get_output_details L i1 with
    | Raised e => Raised e
    | Ok outs_d =>
    match Interpreter_get_input_details L i1 with
    | Raised e => Raised e
    | Ok ins =>
    match fst (fed L (zip ins data) i1) with
    | Raised e => Raised e
    | Ok i2 =>
    match Interpreter_invoke L i2 with
    | Raised e => Raised e
    | Ok i3 => fst (read_outputs L outs_d i3)
    end end end end end end end end.
Proof.
  destruct (evaluate_refines self model data shapes w) as (h' & Hrun & _ & _).
  rewrite Hrun. cbn [fst]. unfold evaluate_calls.
  destruct (Interpreter_init L model _) as [i0|e];
    [rewrite andthen_called_Ok | reflexivity].
  cbn [fst].
  destruct (Interpreter_get_input_details L i0) as [ins0|e];
    [rewrite andthen_called_Ok | reflexivity].
  cbn [fst].
  destruct (fst (resized L ins0 0 (default [] shapes) i0)) as [iR|e] eqn:Hres;
    [rewrite (andthen_Ok _ _ iR Hres)
    | rewrite (andthen_Raised _ _ e Hres); reflexivity].
  cbn [fst]. unfold evaluation.
  destruct (Interpreter_allocate_tensors L iR) as [i1|e];
    [rewrite andthen_called_Ok | reflexivity].
  cbn [fst].
  destruct (Interpreter_get_output_details L i1) as [outs_d|e];
    [rewrite andthen_called_Ok | reflexivity].
  cbn [fst].
  destruct (Interpreter_get_input_details L i1) as [ins|e];
    [rewrite andthen_called_Ok | reflexivity].
  cbn [fst].
  destruct (fst (fed L (zip ins data) i1)) as [i2|e] eqn:Hfed;
    [rewrite (andthen_Ok _ _ i2 Hfed)
    | rewrite (andthen_Raised _ _ e Hfed); reflexivity].
  cbn [fst]. unfold invoked.
  destruct (Interpreter_invoke L i2) as [i3|e];
    [rewrite andthen_called_Ok | reflexivity].
  cbn [fst]. unfold andthen.
  destruct (fst (read_outputs L outs_d i3)); reflexivity.
Qed.

(** A complete run of [_evaluateTFLiteModelUsingSignatureDef]. *)
Lemma signature_def_run (self : loc) (model : bytes)
    (method_name : string) (inputs : gmap string tensor) (w : World) :
  _evaluateTFLiteModelUsingSignatureDef L self model method_name inputs w
  = let l := fresh (dom (heap w)) in
    let loaded := Event (Call_Interpreter model) (Returned R_object) in
    let found :=
      Event (Call_get_signature_runner method_name) (Returned R_object) in
    match Interpreter_init L model l with
    | Raised e =>
        (Raised e,
         mkWorld (heap w)
           (log w ++ [Event (Call_Interpreter model) (Raises e)]))
    | Ok i0 =>
        match Interpreter_get_signature_runner L method_name i0 with
        | Raised e =>
            (Raised e,
             mkWorld (<[l := InterpreterCell i0]> (heap w))
               (log w ++ [loaded;
                          Event (Call_get_signature_runner method_name)
                            (Raises e)]))
        | Ok rn =>
            match SignatureRunner_call L rn inputs i0 with
            | Raised e =>
                (Raised e,
                 mkWorld (<[l := InterpreterCell i0]> (heap w))
                   (log w ++ [loaded; found;
                              Event (Call_signature_runner inputs)
                                (Raises e)]))
            | Ok out =>
                (Ok (fst out),
                 mkWorld (<[l := InterpreterCell (snd out)]> (heap w))
                   (log w ++ [loaded; found;
                              Event (Call_signature_runner inputs)
                                (Returned (R_dict (fst out)))]))
            end
        end
    end.
Proof.
  cbv zeta. unfold _evaluateTFLiteModelUsingSignatureDef.
  unfold bind at 1. unfold Interpreter.
  unfold bind at 1. unfold next_address at 1.
  unfold bind at 1. unfold library at 1.
  destruct (Interpreter_init L model (fresh (dom (heap w)))) as [i0|e];
    [|reflexivity].
  unfold new_object. cbn [heap log].
  set (l := fresh (dom (heap w))). set (w1 := mkWorld _ _).
  assert (Hl1 : heap w1 !! l = Some (InterpreterCell i0))
    by apply lookup_insert_eq.
  unfold bind at 1. unfold get_signature_runner.
  unfold bind at 1.
  rewrite (query_at l _ _ (Interpreter_get_signature_runner L method_name)
             w1 i0 Hl1).
  destruct (Interpreter_get_signature_runner L method_name i0) as [rn|e].
  2:{ subst w1. cbn [heap log]. rewrite <- app_assoc. reflexivity. }
  unfold ret at 1. set (w2 := mkWorld _ _).
  assert (Hl2 : heap w2 !! l = Some (InterpreterCell i0)) by exact Hl1.
  unfold signature_runner_call. unfold bind at 1.
  unfold interp_state at 1. rewrite Hl2.
  unfold bind at 1. unfold library at 1.
  destruct (SignatureRunner_call L rn inputs i0) as [out|e].
  2:{ subst w2 w1. cbn [heap log]. repeat rewrite <- app_assoc.
      reflexivity. }
  unfold bind, store, ret. subst w2 w1. cbn [heap log].
  rewrite insert_insert_eq. repeat rewrite <- app_assoc. reflexivity.
Qed.

(** What the model builders return or raise. *)
Lemma getSimpleVariableModel_result (self : loc) (w : World) :
  fst (_getSimpleVariableModel L self w)
  = match Variable_init L (convert_to_tensor L 3%float) with
    | Some e => Raised e
    | None =>
        match Variable_init L (convert_to_tensor L 2%float) with
        | Some e => Raised e
        | None => Ok (fresh (dom (heap w)))
        end
    end.
Proof.
  destruct (Variable_init L (convert_to_tensor L 3%float)) as [e|] eqn:H3.
  { unfold _getSimpleVariableModel. unfold bind at 1. unfold new_object at 1.
    unfold bind at 1. rewrite (tf_Variable_raises _ _ e H3). reflexivity. }
  destruct (Variable_init L (convert_to_tensor L 2%float)) as [e|] eqn:H2.
  - unfold _getSimpleVariableModel. unfold bind at 1. unfold new_object at 1.
    set (root := fresh (dom (heap w))). set (w1 := mkWorld _ _).
    assert (Hroot1 : heap w1 !! root = Some (Instance ∅))
      by apply lookup_insert_eq.
    unfold bind at 1. rewrite (tf_Variable_ok _ w1 H3).
    set (w2 := mkWorld _ _).
    assert (Hroot2 : heap w2 !! root = Some (Instance ∅)).
    { subst w2; cbn [heap]. rewrite lookup_insert_ne; [exact Hroot1|].
      intros Heq. exact (fresh_not_at _ _ _ Hroot1 (eq_sym Heq)). }
    unfold bind at 1. rewrite (setattr_at _ _ _ w2 _ Hroot2).
    unfold bind at 1. rewrite (tf_Variable_raises _ _ e H2). reflexivity.
  - destruct (getSimpleVariableModel_ok self w H3 H2)
      as (root & l1 & l2 & h' & Hrun & _ & _ & _ & _ & _ & ->).
    rewrite Hrun. reflexivity.
Qed.

Lemma getSimpleModelWithVariables_result (self : loc) (w : World) :
  fst (_getSimpleModelWithVariables L self w)
  = match Variable_init L (zeros L [1; 10] "var") with
    | Some e => Raised e
    | None => Ok (fresh (dom (heap w)))
    end.
Proof.
  destruct (Variable_init L (zeros L [1; 10] "var")) as [e|] eqn:H0.
  - unfold _getSimpleModelWithVariables, SimpleModelWithOneVariable___init__.
    unfold bind at 1. unfold new_object at 1.
    unfold bind at 1. unfold bind at 1.
    rewrite (tf_Variable_raises _ _ e H0). reflexivity.
  - destruct (getSimpleModelWithVariables_ok self w H0)
      as (obj & l & h' & Hrun & _ & _ & _ & ->).
    rewrite Hrun. reflexivity.
Qed.

(** A method of a [BasicModel] whose variable is missing raises what the
    constructor raises. *)
Lemma perform_raises (obj : loc) (oy oz : option loc) (w : World)
    (c : model_call tensor) (e : exn) :
  model_state L obj oy oz w ->
  needed_slot c oy oz = None ->
  Variable_init L (needed_value L c) = Some e ->
  perform L obj c w
  = (Raised e,
     mkWorld (heap w)
       (log w ++ [Event (Call_Variable (needed_value L c)) (Raises e)])).
Proof.
  intros (attrs & Hobj & Hy & Hz & Hycell & Hzcell) Hslot Hinit.
  destruct c as [x|x|x y]; unfold needed_value, needed_slot in *;
    simpl in *; subst;
    unfold BasicModel_add, BasicModel_sub, BasicModel_mul_add;
    unfold bind at 1;
    [ rewrite (getattr_at _ _ _ _ _ Hobj Hy)
    | rewrite (getattr_at _ _ _ _ _ Hobj Hz)
    | rewrite (getattr_at _ _ _ _ _ Hobj Hz) ];
    simpl; unfold bind at 1; unfold bind at 1;
    rewrite (tf_Variable_raises _ w e Hinit); reflexivity.
Qed.

(** C6.  No helper method of [ModelTest], and no method of the models they
    build, handles an exception.

    What [_evaluateTFLiteModel] returns is decided call by call: whichever
    of its steps raises first -- the interpreter's constructor, either
    query for details, the [input_shapes] loop (its subscript, its
    comparison, its assertion or its resize), allocation, a [set_tensor],
    [invoke] or a [get_tensor] -- the call raises that exception, and it
    returns only what the last step returns.  The same holds of
    [_evaluateTFLiteModelUsingSignatureDef] with the constructor, the lookup
    of the signature runner and its call, of the two model builders that
    construct variables, and of a method of a [BasicModel] that has to
    construct its variable.  [_getMultiFunctionModel] makes no call and
    returns.

    In the log: in every run of a helper or of a method of a model, a
    library call that raised is the last entry and its exception is the
    result. *)
Theorem helpers_do_not_catch :
  (forall self model data shapes w,
     fst (_evaluateTFLiteModel L self model data shapes w)
     = match Interpreter_init L model (fresh (dom (heap w))) with
       | Raised e => Raised e
       | Ok i0 =>
       match Interpreter_get_input_details L i0 with
       | Raised e => Raised e
       | Ok ins0 =>
       match fst (resized L ins0 0 (default [] shapes) i0) with
       | Raised e => Raised e
       | Ok iR =>
       match Interpreter_allocate_tensors L iR with
       | Raised e => Raised e
       | Ok i1 =>
       match Interpreter_get_output_details L i1 with
       | Raised e => Raised e
       | Ok outs_d =>
       match Interpreter_get_input_details L i1 with
       | Raised e => Raised e
       | Ok ins =>
       match fst (fed L (zip ins data) i1) with
       | Raised e => Raised e
       | Ok i2 =>
       match Interpreter_invoke L i2 with
       | Raised e => Raised e
       | Ok i3 => fst (read_outputs L outs_d i3)
       end end end end end end end end) /\
  (forall self model method_name inputs w,
     fst (_evaluateTFLiteModelUsingSignatureDef L self model method_name
            inputs w)
     = match Interpreter_init L model (fresh (dom (heap w))) with
       | Raised e => Raised e
       | Ok i0 =>
           match Interpreter_get_signature_runner L method_name i0 with
           | Raised e => Raised e
           | Ok rn => result_map fst (SignatureRunner_call L rn inputs i0)
           end
       end) /\
  (forall self w,
     fst (_getSimpleVariableModel L self w)
     = match Variable_init L (convert_to_tensor L 3%float) with
       | Some e => Raised e
       | None =>
           match Variable_init L (convert_to_tensor L 2%float) with
           | Some e => Raised e
           | None => Ok (fresh (dom (heap w)))
           end
       end) /\
  (forall self w,
     fst (_getSimpleModelWithVariables L self w)
     = match Variable_init L (zeros L [1; 10] "var") with
       | Some e => Raised e
       | None => Ok (fresh (dom (heap w)))
       end) /\
  (forall self (w : World),
     fst (_getMultiFunctionModel self w) = Ok (fresh (dom (heap w))) /\
     log (snd (_getMultiFunctionModel self w)) = log w) /\
  (forall obj oy oz w c e,
     model_state L obj oy oz w ->
     needed_slot c oy oz = None ->
     Variable_init L (needed_value L c) = Some e ->
     fst (perform L obj c w) = Raised e) /\
  (forall self model data shapes,
     uncaught (_evaluateTFLiteModel L self model data shapes)) /\
  (forall self model method_name inputs,
     uncaught (_evaluateTFLiteModelUsingSignatureDef L self model
                 method_name inputs)) /\
  (forall self, uncaught (_getSimpleVariableModel L self)) /\
  (forall self, uncaught (_getSimpleModelWithVariables L self)) /\
  (forall self, uncaught (_getMultiFunctionModel self : Mon loc)) /\
  (forall self files, uncaught (_assertValidDebugInfo self files : Mon unit)) /\
  (forall root name x, uncaught (call_attr L root name x)) /\
  (forall obj x, uncaught (SimpleModelWithOneVariable_assign_add L obj x)) /\
  (forall obj c, uncaught (perform L obj c)).
Proof.
  split; [exact evaluate_result|].
  split.
  { intros. rewrite signature_def_run. cbv zeta.
    destruct (Interpreter_init L model _) as [i0|e]; [|reflexivity].
    destruct (Interpreter_get_signature_runner L method_name i0) as [rn|e];
      [|reflexivity].
    destruct (SignatureRunner_call L rn inputs i0) as [out|e]; reflexivity. }
  split; [exact getSimpleVariableModel_result|].
  split; [exact getSimpleModelWithVariables_result|].
  split.
  { intros self w.
    destruct (getMultiFunctionModel_run self w)
      as (obj & h' & Hrun & _ & _ & ->).
    rewrite Hrun. split; reflexivity. }
  split.
  { intros obj oy oz w c e Hstate Hslot Hinit.
    rewrite (perform_raises obj oy oz w c e Hstate Hslot Hinit).
    reflexivity. }
  exact helpers_uncaught.
Qed.

End Proofs.

(** * Concrete runs *)

(** A run of [_evaluateTFLiteModel] that returns: three data for two
    input tensors, the third is not used; the model adds 1 and 2. *)
Example evaluate_returns :
  _evaluateTFLiteModel toy 1%positive [] [1%float; 2%float; 3%float] None world0
  = (Ok [3%float],
     mkWorld
       (<[2%positive :=
            InterpreterCell
              (ToyInterp two_inputs one_output (stale 2%positive)
                 (<[2 := 3%float]> (<[1 := 2%float]> (<[0 := 1%float]> ∅))))]>
          (heap world0))
       [Event (Call_Interpreter []) (Returned R_object);
        Event Call_get_input_details (Returned (R_details two_inputs));
        Event Call_allocate_tensors (Returned R_none);
        Event Call_get_output_details (Returned (R_details one_output));
        Event Call_get_input_details (Returned (R_details two_inputs));
        Event (Call_set_tensor 0 1%float) (Returned R_none);
        Event (Call_set_tensor 1 2%float) (Returned R_none);
        Event Call_invoke (Returned R_none);
        Event (Call_get_tensor 2) (Returned (R_array 3%float))]).
Proof. vm_compute. reflexivity. Qed.

(** One datum for two input tensors: the second tensor is never set, and
    the model adds the datum to what the memory of the second tensor
    held, whatever that is. *)
Example evaluate_short_data (memory : loc -> Z -> float) :
  _evaluateTFLiteModel
    (toy_library two_inputs one_output [] memory None)
    1%positive [] [1%float] None world0
  = (Ok [PrimFloat.add 1%float (memory 2%positive 1)],
     mkWorld
       (<[2%positive :=
            InterpreterCell
              (ToyInterp two_inputs one_output (memory 2%positive)
                 (<[2 := PrimFloat.add 1%float (memory 2%positive 1)]>
                    (<[0 := 1%float]> ∅)))]>
          (heap world0))
       [Event (Call_Interpreter []) (Returned R_object);
        Event Call_get_input_details (Returned (R_details two_inputs));
        Event Call_allocate_tensors (Returned R_none);
        Event Call_get_output_details (Returned (R_details one_output));
        Event Call_get_input_details (Returned (R_details two_inputs));
        Event (Call_set_tensor 0 1%float) (Returned R_none);
        Event Call_invoke (Returned R_none);
        Event (Call_get_tensor 2)
          (Returned (R_array (PrimFloat.add 1%float (memory 2%positive 1))))]).
Proof. reflexivity. Qed.

(** The same call twice gives two results: the second interpreter is made
    at another address, where the memory holds something else. *)
Example evaluate_reads_stale_memory :
  let first := _evaluateTFLiteModel toy 1%positive [] [1%float] None world0 in
  let second :=
    _evaluateTFLiteModel toy 1%positive [] [1%float] None (snd first) in
  fst first = Ok [4%float] /\ fst second = Ok [5%float].
Proof. split; vm_compute; reflexivity. Qed.

(** A run that a library exception ends. *)
Example variable_constructor_raises :
  _getSimpleVariableModel toy_no_variables 1%positive world0
  = (Raised RuntimeError,
     mkWorld (<[2%positive := Instance ∅]> (heap world0))
       [Event (Call_Variable 3%float) (Raises RuntimeError)]).
Proof. vm_compute. reflexivity. Qed.

(** ** C1, C6, C8 on the concrete library *)

(** C1 at work, from the library's side: each operation of the sequence
    returns, so the call returns what [get_tensor] reads. *)
Lemma evaluate_wrapper_sequence_witness :
  fst (_evaluateTFLiteModel toy 1%positive []
         [1%float; 2%float; 3%float] None world0)
  = Ok [3%float].
Proof.
  apply (proj2 (proj1 (proj2 (proj2
           (evaluate_wrapper_sequence toy 1%positive []
              [1%float; 2%float; 3%float] world0)))
           [3%float])).
  exists toy_loaded, two_inputs, toy_loaded, one_output, two_inputs,
    (toy_write 1 2%float (toy_write 0 1%float toy_loaded)),
    (toy_write 2 3%float
       (toy_write 1 2%float (toy_write 0 1%float toy_loaded))).
  split; [reflexivity|]. split; [reflexivity|]. split; [reflexivity|].
  split; [reflexivity|]. split; [reflexivity|]. split; [reflexivity|].
  split; [reflexivity|]. split; [repeat constructor|].
  split; [simpl; lia|].
  split; [vm_compute; reflexivity|].
  split; vm_compute; reflexivity.
Defined.

(** C8 at work: one datum for two input tensors.  One pair, one
    [set_tensor], and the call goes on to [invoke]. *)
Lemma evaluate_pairs_by_position_witness :
  let data := [1%float] in
  let l := fresh (dom (heap world0)) in
  let run := _evaluateTFLiteModel toy 1%positive [] data None world0 in
  let calls := evaluate_calls toy l [] data (default [] None) in
  let pairs := zip two_inputs data in
  let before :=
    [Event (Call_Interpreter []) (Returned R_object);
     Event Call_get_input_details (Returned (R_details two_inputs))]
    ++ snd (resized toy two_inputs 0 (default [] None) toy_loaded)
    ++ [Event Call_allocate_tensors (Returned R_none);
        Event Call_get_output_details (Returned (R_details one_output));
        Event Call_get_input_details (Returned (R_details two_inputs))] in
  length pairs = Nat.min (length two_inputs) (length data) /\
  match fst (fed toy pairs toy_loaded) with
  | Ok i2 =>
      fst run = result_map fst (fst (invoked toy one_output i2)) /\
      snd calls
      = before ++ map (set_event toy) pairs ++ snd (invoked toy one_output i2) /\
      List.filter is_set_tensor (snd calls) = map (set_event toy) pairs
  | Raised e =>
      fst run = Raised e /\
      exists k p ik,
        pairs !! k = Some p /\
        fst (fed toy (take k pairs) toy_loaded) = Ok ik /\
        Interpreter_set_tensor toy (index (fst p)) (numpy toy (snd p)) ik
        = Raised e /\
        snd calls
        = before ++ map (set_event toy) (take k pairs)
          ++ [Event (Call_set_tensor (index (fst p)) (numpy toy (snd p)))
                (Raises e)]
  end.
Proof.
  apply (proj2 (proj2
           (evaluate_pairs_by_position toy 1%positive [] [1%float] None
              world0))
           toy_loaded two_inputs toy_loaded toy_loaded one_output two_inputs);
    reflexivity.
Defined.

(** C6 at work: the constructor raises, and so does the method that
    needs the variable. *)
Lemma helpers_do_not_catch_witness :
  fst (perform toy_no_variables 2%positive (Do_add 1%float)
         (mkWorld
            (<[2%positive := Instance (<["z" := VNone]> (<["y" := VNone]> ∅))]>
               (heap world0)) []))
  = Raised RuntimeError.
Proof.
  apply (proj1 (proj2 (proj2 (proj2 (proj2 (proj2
           (helpers_do_not_catch toy_no_variables))))))
           2%positive None None
           (mkWorld
              (<[2%positive :=
                   Instance (<["z" := VNone]> (<["y" := VNone]> ∅))]>
                 (heap world0)) [])
           (Do_add 1%float) RuntimeError).
  - exists (<["z" := VNone]> (<["y" := VNone]> ∅)).
    split; [reflexivity|]. split; [reflexivity|]. split; [reflexivity|].
    split; intros l [=].
  - reflexivity.
  - reflexivity.
Defined.

(** ** C2 *)

(** C2 as stated does not hold.  The signature at position 1 differs
    ([[3]] stored, [[7]] expected), but the loop resizes position 0 before
    it looks at position 1, the strict resize of position 0 raises (the
    new shape changes a known dimension), and the call fails with that
    [RuntimeError]: not with a test assertion. *)
Lemma shape_mismatch_after_failed_resize :
  two_inputs !! 1%nat = Some (Detail 1 [3]) /\
  shape_signature (Detail 1 [3]) <> [7] /\
  _evaluateTFLiteModel toy 1%positive [] [1%float]
    (Some [([1; 4], [2; 4]); ([7], [7])]) world0
  = (Raised RuntimeError,
     mkWorld
       (<[2%positive :=
            InterpreterCell
              (ToyInterp two_inputs one_output (stale 2%positive) ∅)]>
          (heap world0))
       [Event (Call_Interpreter []) (Returned R_object);
        Event Call_get_input_details (Returned (R_details two_inputs));
        Event (Call_resize_tensor_input 0 [2; 4] true)
          (Raises RuntimeError)]).
Proof.
  split; [reflexivity|]. split; [discriminate|]. vm_compute. reflexivity.
Qed.

(** Nor does a signature that differs always fail the check, which
    compares with broadcasting.  The interpreter stores the signature
    [[1, 1]] for its input, the caller expects [[1]]: they differ, but
    numpy stretches the expected one over the stored one, the check
    passes, the tensor is resized and the call returns. *)
Lemma shape_mismatch_broadcast_passes :
  shape_signature (Detail 0 [1; 1]) <> [1] /\
  np_eq_all (shape_signature (Detail 0 [1; 1])) [1] = Ok true /\
  fst (_evaluateTFLiteModel toy_square 1%positive [] [5%float]
         (Some [([1], [1; 1])]) world0)
  = Ok [5%float] /\
  log (snd (_evaluateTFLiteModel toy_square 1%positive [] [5%float]
              (Some [([1], [1; 1])]) world0))
  = [Event (Call_Interpreter []) (Returned R_object);
     Event Call_get_input_details (Returned (R_details [Detail 0 [1; 1]]));
     Event (Call_resize_tensor_input 0 [1; 1] true) (Returned R_none);
     Event Call_allocate_tensors (Returned R_none);
     Event Call_get_output_details (Returned (R_details [Detail 1 []]));
     Event Call_get_input_details (Returned (R_details [Detail 0 [1; 1]]));
     Event (Call_set_tensor 0 5%float) (Returned R_none);
     Event Call_invoke (Returned R_none);
     Event (Call_get_tensor 1) (Returned (R_array 5%float))].
Proof.
  split; [discriminate|]. split; [reflexivity|].
  split; vm_compute; reflexivity.
Qed.

(** The amended statement at work: position 0 passes and is resized,
    position 1 differs, the call fails. *)
Lemma shape_mismatch_fails_witness :
  exists e w' k dk sk ik,
    _evaluateTFLiteModel toy 1%positive [] [1%float]
      (Some [([1; 4], [1; 4]); ([7], [7])]) world0 = (Raised e, w') /\
    (k <= 1)%nat /\ two_inputs !! k = Some dk /\
    [([1; 4], [1; 4]); ([7], [7])] !! k = Some sk /\
    (forall n sn, (n < k)%nat ->
       [([1; 4], [1; 4]); ([7], [7])] !! n = Some sn ->
       exists dn, two_inputs !! n = Some dn /\
                  np_eq_all (shape_signature dn) (fst sn) = Ok true) /\
    let opening :=
      [Event (Call_Interpreter []) (Returned R_object);
       Event Call_get_input_details (Returned (R_details two_inputs))] in
    let resizes :=
      zip_with (fun d sf => resize_event d (snd sf)) two_inputs
        (take k [([1; 4], [1; 4]); ([7], [7])]) in
    resized toy two_inputs 0 (take k [([1; 4], [1; 4]); ([7], [7])])
      (ToyInterp two_inputs one_output (stale 2%positive) ∅)
    = (Ok ik, resizes) /\
    ((np_eq_all (shape_signature dk) (fst sk) = Ok false /\
      e = AssertionError /\
      log w' = log world0 ++ opening ++ resizes) \/
     (np_eq_all (shape_signature dk) (fst sk) = Raised e /\
      log w' = log world0 ++ opening ++ resizes) \/
     ((k < 1)%nat /\
      np_eq_all (shape_signature dk) (fst sk) = Ok true /\
      Interpreter_resize_tensor_input toy (index dk) (snd sk) true ik
      = Raised e /\
      log w' = log world0 ++ opening ++ resizes
               ++ [Event (Call_resize_tensor_input (index dk) (snd sk) true)
                     (Raises e)])).
Proof.
  apply (shape_mismatch_fails toy 1%positive [] [1%float]
           [([1; 4], [1; 4]); ([7], [7])] world0
           (ToyInterp two_inputs one_output (stale 2%positive) ∅)
           two_inputs 1%nat (Detail 1 [3]) [7] [7]);
    [reflexivity | reflexivity | reflexivity | reflexivity
    | left; split; [reflexivity | discriminate]].
Defined.

(** What that run does. *)
Example shape_mismatch_run :
  _evaluateTFLiteModel toy 1%positive [] [1%float]
    (Some [([1; 4], [1; 4]); ([7], [7])]) world0
  = (Raised AssertionError,
     mkWorld
       (<[2%positive :=
            InterpreterCell
              (ToyInterp two_inputs one_output (stale 2%positive) ∅)]>
          (heap world0))
       [Event (Call_Interpreter []) (Returned R_object);
        Event Call_get_input_details (Returned (R_details two_inputs));
        Event (Call_resize_tensor_input 0 [1; 4] true) (Returned R_none)]).
Proof. vm_compute. reflexivity. Qed.

(** Signatures of lengths that neither match nor broadcast: the comparison
    itself raises, at the position that differs. *)
Example shape_mismatch_ranks :
  fst (_evaluateTFLiteModel toy 1%positive [] [1%float]
         (Some [([1; 4; 4], [1; 4])]) world0)
  = Raised AttributeError.
Proof. vm_compute. reflexivity. Qed.

(** ** C5, C7, C9, C10 on the concrete library *)

Lemma models_hold_their_variables_witness :
  (exists root w',
     _getSimpleVariableModel toy 1%positive world0 = (Ok root, w') /\
     variable_attrs w' root = {["v1"; "v2"]} /\
     size (variable_attrs w' root) = 2%nat) /\
  (exists obj w',
     _getSimpleModelWithVariables toy 1%positive world0 = (Ok obj, w') /\
     variable_attrs w' obj = {["var"]} /\
     size (variable_attrs w' obj) = 1%nat) /\
  (exists obj w',
     _getMultiFunctionModel 1%positive world0 = (Ok obj, w') /\
     object_attr w' obj "y" = Some VNone /\
     object_attr w' obj "z" = Some VNone /\
     forall cs,
       variable_attrs (snd (perform_all toy obj cs w')) obj
       = (if existsb is_add cs then {["y"]} else ∅ : gset string)
         ∪ (if existsb uses_z cs then {["z"]} else ∅) /\
       variable_attrs (snd (perform_all toy obj cs w')) obj ⊆ {["y"; "z"]} /\
       (size (variable_attrs (snd (perform_all toy obj cs w')) obj) <= 2)%nat).
Proof.
  apply (models_hold_their_variables toy 1%positive world0);
    reflexivity.
Defined.

(** The bound of two is reached, and the model starts with none. *)
Example multi_function_model_counts :
  variable_attrs (snd (_getMultiFunctionModel 1%positive world0)) 2%positive
  = ∅ /\
  variable_attrs
    (snd (bind (_getMultiFunctionModel 1%positive)
            (fun obj => perform_all toy obj [Do_add 1%float; Do_sub 1%float])
            world0)) 2%positive
  = {["y"; "z"]}.
Proof. split; vm_compute; reflexivity. Qed.

Lemma helpers_leave_instance_witness :
  (forall model data shapes,
     heap (snd (_evaluateTFLiteModel toy 1%positive model data shapes world0))
       !! 1%positive = Some (Instance ∅)) /\
  (forall model method_name inputs,
     heap (snd (_evaluateTFLiteModelUsingSignatureDef toy 1%positive model
                  method_name inputs world0)) !! 1%positive
     = Some (Instance ∅)) /\
  heap (snd (_getSimpleVariableModel toy 1%positive world0)) !! 1%positive
  = Some (Instance ∅) /\
  heap (snd (_getSimpleModelWithVariables toy 1%positive world0)) !! 1%positive
  = Some (Instance ∅) /\
  heap (snd (_getMultiFunctionModel 1%positive world0)) !! 1%positive
  = Some (Instance ∅) /\
  (forall files,
     heap (snd (_assertValidDebugInfo 1%positive files world0)) !! 1%positive
     = Some (Instance ∅)).
Proof.
  apply (helpers_leave_instance toy 1%positive 1%positive (Instance ∅) world0).
  reflexivity.
Defined.

Lemma multi_function_model_is_lazy_witness :
  let cs := [Do_sub 1%float; Do_add 1%float; Do_mul_add 2%float 1%float] in
  let cs' := [Do_add 5%float] in
  exists obj w0 w1 w2,
    _getMultiFunctionModel 1%positive world0 = (Ok obj, w0) /\
    log w0 = log world0 /\
    object_attr w0 obj "y" = Some VNone /\
    object_attr w0 obj "z" = Some VNone /\
    perform_all toy obj cs w0 = (Ok (map (expected toy) cs), w1) /\
    log w1 = log w0 ++ map returned_object (creations toy false false cs) /\
    (length (creations toy false false cs)
     = (if existsb is_add cs then 1 else 0)
       + (if existsb uses_z cs then 1 else 0))%nat /\
    variable_value w1 obj "y"
    = (if existsb is_add cs then Some 2%float else None) /\
    variable_value w1 obj "z"
    = (if existsb uses_z cs then Some 3%float else None) /\
    perform_all toy obj cs' w1 = (Ok (map (expected toy) cs'), w2) /\
    log w2 = log w1
             ++ map returned_object
                  (creations toy (existsb is_add cs) (existsb uses_z cs) cs') /\
    (forall l, object_attr w1 obj "y" = Some (VRef l) ->
               object_attr w2 obj "y" = Some (VRef l)) /\
    (forall l, object_attr w1 obj "z" = Some (VRef l) ->
               object_attr w2 obj "z" = Some (VRef l)).
Proof.
  apply (multi_function_model_is_lazy toy 1%positive world0
           [Do_sub 1%float; Do_add 1%float; Do_mul_add 2%float 1%float]
           [Do_add 5%float]);
    reflexivity.
Defined.

(** The same calls, computed: the results, and the two constructor calls
    the four calls cause. *)
Example multi_function_model_run :
  let run :=
    bind (_getMultiFunctionModel 1%positive)
      (fun obj =>
         perform_all toy obj
           [Do_sub 1%float; Do_add 1%float; Do_mul_add 2%float 1%float;
            Do_add 5%float]) world0 in
  fst run = Ok [(-2)%float; 3%float; 7%float; 7%float] /\
  log (snd run)
  = [Event (Call_Variable 3%float) (Returned R_object);
     Event (Call_Variable 2%float) (Returned R_object)].
Proof. split; vm_compute; reflexivity. Qed.

Lemma simple_variable_model_f_witness :
  tensor_mul toy 3%float 2%float = 6%float /\
  exists root w',
    _getSimpleVariableModel toy 1%positive world0 = (Ok root, w') /\
    variable_value w' root "v1" = Some 3%float /\
    variable_value w' root "v2" = Some 2%float /\
    call_attr toy root "f" 7%float w' = (Ok (tensor_mul toy 6%float 7%float), w').
Proof.
  split; [reflexivity|].
  apply (simple_variable_model_f toy 1%positive world0 7%float); reflexivity.
Defined.

Example simple_variable_model_f_run :
  fst (bind (_getSimpleVariableModel toy 1%positive)
         (fun root => call_attr toy root "f" 7%float) world0)
  = Ok 42%float.
Proof. vm_compute. reflexivity. Qed.

(** The debug-info assertion on three lists of files. *)
Example assertValidDebugInfo_runs :
  fst (_assertValidDebugInfo 1%positive
         ["tensorflow/lite/python/lite_v2_test.py"; "ops/math_ops.py"] world0)
  = Ok tt /\
  fst (_assertValidDebugInfo 1%positive
         ["tensorflow/lite/python/lite_v2_test.py";
          "tensorflow/lite/python/lite_test.py"] world0)
  = Raised AssertionError /\
  fst (_assertValidDebugInfo 1%positive ["ops/math_ops.py"] world0)
  = Raised AssertionError.
Proof. repeat split; vm_compute; reflexivity. Qed.

(** * Further properties of the helpers *)

Section Further.
Context {tensor ndarray interp runner : Type}.
Context (L : Library tensor ndarray interp runner).

Local Abbreviation World := (world tensor ndarray interp).
Local Abbreviation Ev := (event tensor ndarray).
Local Abbreviation Call := (call tensor ndarray).
Local Abbreviation Mon := (M tensor ndarray interp).

(** ** X1: the calls of [_evaluateTFLiteModelUsingSignatureDef] *)

(** X1.  A call of [_evaluateTFLiteModelUsingSignatureDef] loads an
    interpreter from the model content, looks the signature runner up
    under the method name it was given, on the interpreter it loaded, and
    calls the runner once on the inputs as given, on that interpreter; it
    returns the dictionary the runner returned and leaves the interpreter
    in the state the runner left.  It makes no other library call, and it
    ends early exactly when one of the three calls raises, with that
    call's exception and with the log ending at that call. *)
Theorem signature_def_sequence (self : loc) (model : bytes)
    (method_name : string) (inputs : gmap string tensor) (w : World) :
  let run :=
    _evaluateTFLiteModelUsingSignatureDef L self model method_name inputs w in
  let l := fresh (dom (heap w)) in
  let loaded := Event (Call_Interpreter model) (Returned R_object) in
  let found :=
    Event (Call_get_signature_runner method_name) (Returned R_object) in
  (forall e,
     Interpreter_init L model l = Raised e ->
     run = (Raised e,
            mkWorld (heap w)
              (log w ++ [Event (Call_Interpreter model) (Raises e)]))) /\
  (forall i0 e,
     Interpreter_init L model l = Ok i0 ->
     Interpreter_get_signature_runner L method_name i0 = Raised e ->
     run = (Raised e,
            mkWorld (<[l := InterpreterCell i0]> (heap w))
              (log w ++ [loaded;
                         Event (Call_get_signature_runner method_name)
                           (Raises e)]))) /\
  (forall i0 rn e,
     Interpreter_init L model l = Ok i0 ->
     Interpreter_get_signature_runner L method_name i0 = Ok rn ->
     SignatureRunner_call L rn inputs i0 = Raised e ->
     run = (Raised e,
            mkWorld (<[l := InterpreterCell i0]> (heap w))
              (log w ++ [loaded; found;
                         Event (Call_signature_runner inputs) (Raises e)]))) /\
  (forall i0 rn out i1,
     Interpreter_init L model l = Ok i0 ->
     Interpreter_get_signature_runner L method_name i0 = Ok rn ->
     SignatureRunner_call L rn inputs i0 = Ok (out, i1) ->
     run = (Ok out,
            mkWorld (<[l := InterpreterCell i1]> (heap w))
              (log w ++ [loaded; found;
                         Event (Call_signature_runner inputs)
                           (Returned (R_dict out))]))).
Proof.
  cbv zeta. rewrite (signature_def_run L). cbv zeta.
  repeat split.
  - intros e ->. reflexivity.
  - intros i0 e -> ->. reflexivity.
  - intros i0 rn e -> -> ->. reflexivity.
  - intros i0 rn out i1 -> -> ->. reflexivity.
Qed.

(** ** X2, X3: the [input_shapes] branch of [_evaluateTFLiteModel] *)

(** X2.  A call with [input_shapes] that returns has loaded an
    interpreter and, right after reading the input details and before
    [allocate_tensors], resized one input tensor per entry of
    [input_shapes], in order: the tensor whose detail stands at the
    entry's position, under the index that detail reports, to the entry's
    final shape, strictly, each resize on the state the one before left.
    Every entry's position has a detail (there are at most as many entries
    as input tensors) whose signature passed the comparison.  The rest of
    the call -- allocation first, and no resize after it -- runs on the
    state the last resize left, and what the call returns is what that
    run reads. *)
Theorem evaluate_resizes_before_allocation (self : loc) (model : bytes)
    (data : list tensor) (shapes : list (list Z * list Z)) (w w' : World)
    (outs : list ndarray) :
  _evaluateTFLiteModel L self model data (Some shapes) w = (Ok outs, w') ->
  exists i0 ins0 iR i3 rest,
    let l := fresh (dom (heap w)) in
    let resizes := zip_with (fun d sf => resize_event d (snd sf)) ins0 shapes in
    Interpreter_init L model l = Ok i0 /\
    Interpreter_get_input_details L i0 = Ok ins0 /\
    (length shapes <= length ins0)%nat /\
    (forall j sj, shapes !! j = Some sj ->
       exists dj, ins0 !! j = Some dj /\
                  np_eq_all (shape_signature dj) (fst sj) = Ok true) /\
    resized L ins0 0 shapes i0 = (Ok iR, resizes) /\
    length (resizes : list Ev) = length shapes /\
    fst (evaluation L data iR) = Ok (outs, i3) /\
    snd (evaluation L data iR)
    = Event Call_allocate_tensors (Returned R_none) :: rest /\
    List.filter is_resize rest = [] /\
    w' = mkWorld (<[l := InterpreterCell i3]> (heap w))
           (log w
            ++ [Event (Call_Interpreter model) (Returned R_object);
                Event Call_get_input_details (Returned (R_details ins0))]
            ++ resizes
            ++ Event Call_allocate_tensors (Returned R_none) :: rest).
Proof.
  intros Hrun.
  destruct (evaluate_refines L self model data (Some shapes) w)
    as (h' & Hrun' & _ & Hheap).
  change (default [] (Some shapes)) with shapes in Hrun', Hheap.
  rewrite Hrun in Hrun'.
  injection Hrun' as Hres ->.
  destruct (fst (evaluate_calls L _ model data shapes)) as [[outs' i3]|e]
    eqn:Hcalls; [|discriminate].
  injection Hres as ->.
  destruct (evaluate_calls_inv L _ _ _ _ _ _ Hcalls)
    as (i0 & ins0 & iR & Hinit & Hins0 & HiR & Heval & Hevs).
  destruct (resized_spec L ins0 shapes 0 i0)
    as (k & ik & _ & Htake & Hpass & Hspec).
  cbv zeta in Htake, Hspec. rewrite HiR in Hspec.
  destruct Hspec as (-> & Hik & Hresizes). subst ik.
  rewrite drop_0, firstn_all in Htake, Hresizes.
  destruct (evaluation_inv L _ _ _ _ Heval)
    as (i1 & outs_d & ins & i2 & Ha & Ho & Hi & Hfed & Hv & HF & Hevs').
  assert (Hall : forall j sj, shapes !! j = Some sj ->
            exists dj, ins0 !! j = Some dj /\
                       np_eq_all (shape_signature dj) (fst sj) = Ok true).
  { intros j sj Hj. apply (Hpass j sj); [|exact Hj].
    apply lookup_lt_Some in Hj. exact Hj. }
  assert (Hle : (length shapes <= length ins0)%nat).
  { destruct (decide (length shapes <= length ins0)%nat) as [|Hbad];
      [assumption|exfalso].
    destruct (lookup_lt_is_Some_2 shapes (length ins0)) as [sj Hsj]; [lia|].
    destruct (Hall _ _ Hsj) as (dj & Hdj & _).
    apply lookup_lt_Some in Hdj. lia. }
  exists i0, ins0, iR, i3. eexists. cbv zeta.
  split; [exact Hinit|]. split; [exact Hins0|]. split; [exact Hle|].
  split; [exact Hall|]. split; [exact Htake|].
  split; [rewrite length_zip_with; lia|].
  split; [exact Heval|].
  split; [rewrite Hevs'; reflexivity|].
  split.
  { simpl. rewrite List.filter_app. simpl.
    rewrite !filter_none; [reflexivity| |].
    - apply Forall_zip_with. reflexivity.
    - apply Forall_map_all. reflexivity. }
  rewrite (Hheap _ _ eq_refl), Hevs, Hresizes, Hevs'. reflexivity.
Qed.

(** X3.  With more entries in [input_shapes] than the interpreter has
    input tensors the call never gets to [allocate_tensors]: it raises,
    having resized the tensors of the first [k] positions only, [k] at
    most the number of input tensors.  If it gets through all the input
    tensors the exception is the [IndexError] of the subscript; before
    that it is a failed check or the exception of a resize. *)
Theorem too_many_input_shapes (self : loc) (model : bytes)
    (data : list tensor) (shapes : list (list Z * list Z)) (w : World)
    (i0 : interp) (ins : list detail) :
  Interpreter_init L model (fresh (dom (heap w))) = Ok i0 ->
  Interpreter_get_input_details L i0 = Ok ins ->
  (length ins < length shapes)%nat ->
  exists e w' k,
    _evaluateTFLiteModel L self model data (Some shapes) w = (Raised e, w') /\
    (k <= length ins)%nat /\
    let opening :=
      [Event (Call_Interpreter model) (Returned R_object);
       Event Call_get_input_details (Returned (R_details ins))] in
    let resized :=
      zip_with (fun d sf => resize_event d (snd sf)) ins (take k shapes) in
    ((log w' = log w ++ opening ++ resized /\
      (k = length ins -> e = IndexError)) \/
     (exists dk sk,
        ins !! k = Some dk /\ shapes !! k = Some sk /\
        log w' = log w ++ opening ++ resized
                 ++ [Event (Call_resize_tensor_input (index dk) (snd sk) true)
                       (Raises e)])).
Proof.
  intros Hinit Hins Hlen.
  destruct (evaluate_refines L self model data (Some shapes) w)
    as (h' & Hrun & _ & _).
  change (default [] (Some shapes)) with shapes in Hrun.
  rewrite Hrun. clear Hrun. unfold evaluate_calls.
  rewrite Hinit, andthen_called_Ok, Hins, andthen_called_Ok. cbn [fst snd].
  destruct (resized_spec L ins shapes 0 i0) as (k & ik & Hk & _ & Hpass & Hr).
  cbv zeta in Hr. rewrite drop_0 in Hr.
  assert (Hkle : (k <= length ins)%nat).
  { destruct (decide (k <= length ins)%nat) as [|Hgt]; [assumption|exfalso].
    destruct (lookup_lt_is_Some_2 shapes (length ins)) as [sj Hsj]; [lia|].
    destruct (Hpass (length ins) sj ltac:(lia) Hsj) as (dj & Hdj & _).
    simpl in Hdj. apply lookup_lt_Some in Hdj. lia. }
  destruct (fst (resized L ins 0 shapes i0)) as [iR|e] eqn:Hres.
  { exfalso. destruct Hr as (-> & _). lia. }
  rewrite (andthen_Raised _ _ e Hres). cbn [fst snd result_map].
  destruct Hr as (sk & Hsk & Hcase). simpl in Hcase.
  exists e. eexists. exists k.
  split; [reflexivity|]. split; [exact Hkle|]. cbv zeta. cbn [log].
  destruct Hcase
    as [(Hnone & -> & ->)
       | (dk & Hdk & [(Hc & ->) | [(Hc & -> & ->) | (Hc & Hraise & ->)]])].
  - left. split; reflexivity.
  - left. split; [reflexivity|].
    intros ->. apply lookup_lt_Some in Hdk. lia.
  - left. split; [reflexivity|].
    intros ->. apply lookup_lt_Some in Hdk. lia.
  - right. exists dk, sk. split; [exact Hdk|]. split; [exact Hsk|].
    reflexivity.
Qed.

(** ** X5, X6: [SimpleModelWithOneVariable] *)

Lemma assign_add_run (obj l : loc) (t x : tensor) (w : World) attrs :
  heap w !! obj = Some (Instance attrs) ->
  attrs !! "var" = Some (VRef l) ->
  heap w !! l = Some (VariableCell t) ->
  SimpleModelWithOneVariable_assign_add L obj x w
  = (Ok (tensor_add L t x),
     mkWorld (<[l := VariableCell (tensor_add L t x)]> (heap w)) (log w)).
Proof.
  intros Hobj Hvar Hl. unfold SimpleModelWithOneVariable_assign_add.
  unfold bind at 1. rewrite (getattr_at _ _ _ _ _ Hobj Hvar).
  unfold bind at 1. unfold assign_add. unfold bind at 1.
  rewrite (read_value_at _ _ _ Hl). unfold store at 1.
  set (w1 := mkWorld _ _).
  assert (Hne : l <> obj) by (intros ->; rewrite Hobj in Hl; discriminate).
  assert (Hobj1 : heap w1 !! obj = Some (Instance attrs)).
  { subst w1; cbn [heap]. rewrite lookup_insert_ne by exact Hne. exact Hobj. }
  unfold bind at 1. rewrite (getattr_at _ _ _ _ _ Hobj1 Hvar).
  rewrite (read_value_at l w1 (tensor_add L t x) (lookup_insert_eq _ _ _)).
  reflexivity.
Qed.

Lemma assign_all_run (obj l : loc) attrs (xs : list tensor) :
  forall (t : tensor) (w : World),
  heap w !! obj = Some (Instance attrs) ->
  attrs !! "var" = Some (VRef l) ->
  heap w !! l = Some (VariableCell t) ->
  assign_all L obj xs w
  = (Ok (running_sums L t xs),
     mkWorld (<[l := VariableCell (fold_left (tensor_add L) xs t)]> (heap w))
       (log w)).
Proof.
  unfold assign_all.
  induction xs as [|x xs IH]; intros t w Hobj Hvar Hl; simpl.
  - unfold ret. rewrite insert_id, world_eta by exact Hl. reflexivity.
  - unfold bind at 1. rewrite (assign_add_run obj l t x w attrs Hobj Hvar Hl).
    set (w1 := mkWorld _ _).
    assert (Hne : l <> obj) by (intros ->; rewrite Hobj in Hl; discriminate).
    unfold bind at 1.
    rewrite (IH (tensor_add L t x) w1);
      [| subst w1; cbn [heap]; rewrite lookup_insert_ne by exact Hne;
         exact Hobj
       | exact Hvar
       | apply lookup_insert_eq ].
    subst w1. cbn [heap log]. rewrite insert_insert_eq. reflexivity.
Qed.

(** [_getSimpleModelWithVariables] with what it leaves alone: both the
    object and its variable are new. *)
Lemma getSimpleModelWithVariables_fresh (self : loc) (w : World) :
  Variable_init L (zeros L [1; 10] "var") = None ->
  exists obj l,
    _getSimpleModelWithVariables L self w =
      (Ok obj,
       mkWorld
         (<[obj := Instance (<["var" := VRef l]> ∅)]>
            (<[l := VariableCell (zeros L [1; 10] "var")]>
               (<[obj := Instance ∅]> (heap w))))
         (log w ++ [Event (Call_Variable (zeros L [1; 10] "var"))
                      (Returned R_object)])) /\
    obj <> l /\ heap w !! obj = None /\ heap w !! l = None.
Proof.
  intros H0.
  unfold _getSimpleModelWithVariables, SimpleModelWithOneVariable___init__.
  unfold bind at 1. unfold new_object at 1.
  set (obj := fresh (dom (heap w))).
  set (w1 := mkWorld _ _).
  assert (Hobj1 : heap w1 !! obj = Some (Instance ∅))
    by apply lookup_insert_eq.
  unfold bind at 1. unfold bind at 1. rewrite (tf_Variable_ok L _ w1 H0).
  set (l := fresh (dom (heap w1))).
  assert (Hl : obj <> l) by exact (fresh_not_at _ _ _ Hobj1).
  set (w2 := mkWorld _ _).
  assert (Hobj2 : heap w2 !! obj = Some (Instance ∅)).
  { subst w2; cbn [heap]. rewrite lookup_insert_ne by congruence.
    exact Hobj1. }
  rewrite (setattr_at _ _ _ w2 _ Hobj2). unfold ret.
  exists obj, l. split; [reflexivity|]. split; [exact Hl|].
  split; [apply not_elem_of_dom, is_fresh|].
  assert (Hnl : l ∉ dom (heap w1)) by apply is_fresh.
  subst w1. cbn [heap] in Hnl. rewrite dom_insert in Hnl.
  apply not_elem_of_dom. set_solver.
Qed.

(** X5.  The variable of a [SimpleModelWithOneVariable] accumulates: it
    starts at [zeros((1, 10))], each [assign_add(x)] adds [x] to it and
    returns the sum reached, and the value stays between calls, so that
    calls [xs] followed by calls [ys] leave it where the calls [xs ++ ys]
    do.  [assign_add] constructs no variable. *)
Theorem assign_add_accumulates (self : loc) (w : World)
    (xs ys : list tensor) :
  Variable_init L (zeros L [1; 10] "var") = None ->
  let zero := zeros L [1; 10] "var" in
  exists obj w0 w1 w2,
    _getSimpleModelWithVariables L self w = (Ok obj, w0) /\
    variable_value w0 obj "var" = Some zero /\
    assign_all L obj xs w0 = (Ok (running_sums L zero xs), w1) /\
    variable_value w1 obj "var" = Some (fold_left (tensor_add L) xs zero) /\
    assign_all L obj ys w1
    = (Ok (running_sums L (fold_left (tensor_add L) xs zero) ys), w2) /\
    variable_value w2 obj "var"
    = Some (fold_left (tensor_add L) (xs ++ ys) zero) /\
    log w2 = log w0.
Proof.
  intros H0. cbv zeta.
  destruct (getSimpleModelWithVariables_fresh self w H0)
    as (obj & l & Hrun & Hne & _ & _).
  set (attrs := <["var" := VRef l]> ∅ : gmap string value).
  set (w0 := mkWorld _ _) in Hrun.
  assert (Hvar : attrs !! "var" = Some (VRef l)) by apply lookup_insert_eq.
  assert (Hobj0 : heap w0 !! obj = Some (Instance attrs))
    by apply lookup_insert_eq.
  assert (Hl0 : heap w0 !! l = Some (VariableCell (zeros L [1; 10] "var"))).
  { subst w0. cbn [heap]. rewrite lookup_insert_ne by exact Hne.
    apply lookup_insert_eq. }
  pose proof (assign_all_run obj l attrs xs _ w0 Hobj0 Hvar Hl0) as Hxs.
  set (w1 := mkWorld _ _) in Hxs.
  assert (Hobj1 : heap w1 !! obj = Some (Instance attrs)).
  { subst w1. cbn [heap]. rewrite lookup_insert_ne by congruence.
    exact Hobj0. }
  assert (Hl1 : heap w1 !! l
                = Some (VariableCell
                          (fold_left (tensor_add L) xs (zeros L [1; 10] "var"))))
    by apply lookup_insert_eq.
  pose proof (assign_all_run obj l attrs ys _ w1 Hobj1 Hvar Hl1) as Hys.
  set (w2 := mkWorld _ _) in Hys.
  assert (Hobj2 : heap w2 !! obj = Some (Instance attrs)).
  { subst w2. cbn [heap]. rewrite lookup_insert_ne by congruence.
    exact Hobj1. }
  exists obj, w0, w1, w2.
  split; [exact Hrun|].
  split; [unfold variable_value; rewrite Hobj0, Hvar, Hl0; reflexivity|].
  split; [exact Hxs|].
  split; [unfold variable_value; rewrite Hobj1, Hvar, Hl1; reflexivity|].
  split; [exact Hys|].
  split; [|reflexivity].
  unfold variable_value. rewrite Hobj2, Hvar.
  subst w2. cbn [heap]. rewrite lookup_insert_eq, fold_left_app. reflexivity.
Qed.

(** X6.  Two calls of [_getSimpleModelWithVariables] give two models
    that share nothing: different objects with different variables, so
    that [assign_add] on the first changes the first model's variable and
    leaves the second model's at its initial value. *)
Theorem simple_models_are_independent (self : loc) (w : World)
    (xs : list tensor) :
  Variable_init L (zeros L [1; 10] "var") = None ->
  let zero := zeros L [1; 10] "var" in
  exists m1 m2 w1 w2 w3,
    _getSimpleModelWithVariables L self w = (Ok m1, w1) /\
    _getSimpleModelWithVariables L self w1 = (Ok m2, w2) /\
    m1 <> m2 /\
    assign_all L m1 xs w2 = (Ok (running_sums L zero xs), w3) /\
    variable_value w3 m1 "var" = Some (fold_left (tensor_add L) xs zero) /\
    variable_value w3 m2 "var" = Some zero.
Proof.
  intros H0. cbv zeta.
  destruct (getSimpleModelWithVariables_fresh self w H0)
    as (m1 & l1 & Hrun1 & Hne1 & _ & _).
  set (attrs1 := <["var" := VRef l1]> ∅ : gmap string value).
  set (w1 := mkWorld _ _) in Hrun1.
  assert (Hm1 : heap w1 !! m1 = Some (Instance attrs1))
    by apply lookup_insert_eq.
  assert (Hl1 : heap w1 !! l1 = Some (VariableCell (zeros L [1; 10] "var"))).
  { subst w1. cbn [heap]. rewrite lookup_insert_ne by exact Hne1.
    apply lookup_insert_eq. }
  destruct (getSimpleModelWithVariables_fresh self w1 H0)
    as (m2 & l2 & Hrun2 & Hne2 & Hm2new & Hl2new).
  set (attrs2 := <["var" := VRef l2]> ∅ : gmap string value).
  set (w2 := mkWorld _ _) in Hrun2.
  assert (Hm12 : m1 <> m2) by (intros ->; rewrite Hm1 in Hm2new; discriminate).
  assert (Hm1l2 : m1 <> l2) by (intros ->; rewrite Hm1 in Hl2new; discriminate).
  assert (Hl1m2 : l1 <> m2) by (intros ->; rewrite Hl1 in Hm2new; discriminate).
  assert (Hl12 : l1 <> l2) by (intros ->; rewrite Hl1 in Hl2new; discriminate).
  assert (Hm1' : heap w2 !! m1 = Some (Instance attrs1)).
  { subst w2. cbn [heap]. rewrite !lookup_insert_ne by congruence. exact Hm1. }
  assert (Hl1' : heap w2 !! l1 = Some (VariableCell (zeros L [1; 10] "var"))).
  { subst w2. cbn [heap]. rewrite !lookup_insert_ne by congruence. exact Hl1. }
  assert (Hm2 : heap w2 !! m2 = Some (Instance attrs2))
    by apply lookup_insert_eq.
  assert (Hl2 : heap w2 !! l2 = Some (VariableCell (zeros L [1; 10] "var"))).
  { subst w2. cbn [heap]. rewrite lookup_insert_ne by exact Hne2.
    apply lookup_insert_eq. }
  assert (Hvar1 : attrs1 !! "var" = Some (VRef l1)) by apply lookup_insert_eq.
  assert (Hvar2 : attrs2 !! "var" = Some (VRef l2)) by apply lookup_insert_eq.
  pose proof (assign_all_run m1 l1 attrs1 xs _ w2 Hm1' Hvar1 Hl1') as Hxs.
  set (w3 := mkWorld _ _) in Hxs.
  exists m1, m2, w1, w2, w3.
  split; [exact Hrun1|]. split; [exact Hrun2|]. split; [exact Hm12|].
  split; [exact Hxs|].
  split.
  - unfold variable_value. subst w3. cbn [heap].
    rewrite lookup_insert_ne by congruence. rewrite Hm1', Hvar1.
    rewrite lookup_insert_eq. reflexivity.
  - unfold variable_value. subst w3. cbn [heap].
    rewrite lookup_insert_ne by congruence. rewrite Hm2, Hvar2.
    rewrite lookup_insert_ne by congruence. rewrite Hl2. reflexivity.
Qed.

(** ** X7: a [BasicModel] whose variable constructor raises *)

(** X7.  When a method of a [BasicModel] needs a variable that does not
    exist yet and the constructor raises, the method raises that
    exception and the model is as before (the attribute is still [None]),
    so the next call tries again.  When the variable exists the method
    does not call the constructor: it returns its value and changes
    nothing, whether or not the constructor would raise. *)
Theorem basic_model_creation_failure (obj : loc) (oy oz : option loc)
    (w : World) (c : model_call tensor) :
  model_state L obj oy oz w ->
  (forall e,
     needed_slot c oy oz = None ->
     Variable_init L (needed_value L c) = Some e ->
     perform L obj c w
     = (Raised e,
        mkWorld (heap w)
          (log w ++ [Event (Call_Variable (needed_value L c)) (Raises e)]))) /\
  (forall l,
     needed_slot c oy oz = Some l ->
     perform L obj c w = (Ok (expected L c), w)).
Proof.
  intros (attrs & Hobj & Hy & Hz & Hycell & Hzcell). split.
  - intros e Hslot Hinit.
    destruct c as [x|x|x y]; unfold needed_value, needed_slot in *;
      simpl in *; subst;
      unfold BasicModel_add, BasicModel_sub, BasicModel_mul_add;
      unfold bind at 1;
      [ rewrite (getattr_at _ _ _ _ _ Hobj Hy)
      | rewrite (getattr_at _ _ _ _ _ Hobj Hz)
      | rewrite (getattr_at _ _ _ _ _ Hobj Hz) ];
      simpl; unfold bind at 1; unfold bind at 1;
      rewrite (tf_Variable_raises L _ w e Hinit); reflexivity.
  - intros l Hslot.
    destruct c as [x|x|x y]; unfold needed_slot in *; simpl in *; subst;
      unfold BasicModel_add, BasicModel_sub, BasicModel_mul_add.
    + unfold bind at 1. rewrite (getattr_at _ _ _ _ _ Hobj Hy). simpl.
      unfold bind at 1. unfold ret at 1.
      unfold bind at 1. rewrite (getattr_at _ _ _ _ _ Hobj Hy). simpl.
      unfold bind at 1. rewrite (read_value_at _ _ _ (Hycell l eq_refl)).
      reflexivity.
    + unfold bind at 1. rewrite (getattr_at _ _ _ _ _ Hobj Hz). simpl.
      unfold bind at 1. unfold ret at 1.
      unfold bind at 1. rewrite (getattr_at _ _ _ _ _ Hobj Hz). simpl.
      unfold bind at 1. rewrite (read_value_at _ _ _ (Hzcell l eq_refl)).
      reflexivity.
    + unfold bind at 1. rewrite (getattr_at _ _ _ _ _ Hobj Hz). simpl.
      unfold bind at 1. unfold ret at 1.
      unfold bind at 1. rewrite (getattr_at _ _ _ _ _ Hobj Hz). simpl.
      unfold bind at 1. rewrite (read_value_at _ _ _ (Hzcell l eq_refl)).
      reflexivity.
Qed.

(** ** X8: the function of the simple variable model *)

(** X8.  The [f] of a simple variable model reads its two variables when
    it is called: whatever values [a] and [b] the variables behind [v1]
    and [v2] hold at the time, calls of [f] on [xs], one after the other,
    return [(a * b) * x] for each [x], make no library call and leave the
    world unchanged. *)
Theorem simple_model_f_is_pure (root l1 l2 : loc) (a b : tensor)
    (w : World) (attrs : gmap string value) (xs : list tensor) :
  heap w !! root = Some (Instance attrs) ->
  attrs !! "f" = Some (VFunction (Lambda_f root)) ->
  attrs !! "v1" = Some (VRef l1) ->
  attrs !! "v2" = Some (VRef l2) ->
  heap w !! l1 = Some (VariableCell a) ->
  heap w !! l2 = Some (VariableCell b) ->
  comprehension xs (fun x => call_attr L root "f" x) w
  = (Ok (map (fun x => tensor_mul L (tensor_mul L a b) x) xs), w).
Proof.
  intros Hroot Hf Hv1 Hv2 Hl1 Hl2.
  induction xs as [|x xs IH]; simpl; [reflexivity|].
  unfold bind at 1. unfold call_attr at 1. unfold bind at 1.
  rewrite (getattr_at _ _ _ _ _ Hroot Hf).
  rewrite (lambda_f_run L root l1 l2 a b x w attrs Hroot Hv1 Hv2 Hl1 Hl2).
  unfold bind at 1. rewrite IH. reflexivity.
Qed.

End Further.

(** ** X9: only the names of the files count *)

Lemma basename_from_dir (dir p : string) :
  forall acc, basename_from acc (dir ++ "/" ++ p)%string = basename p.
Proof.
  induction dir as [|c dir IH]; intros acc; simpl.
  - reflexivity.
  - destruct (Ascii.eqb c "/"); apply IH.
Qed.

Lemma basename_dir (dir p : string) :
  basename (dir ++ "/" ++ p)%string = basename p.
Proof. apply basename_from_dir. Qed.

(** X9.  The check of [_assertValidDebugInfo] does not depend on where
    the files are: putting every path into a directory, each into one of
    its own, changes neither whether the check passes nor the world. *)
Theorem assertValidDebugInfo_ignores_directories {tensor ndarray interp : Type}
    (self : loc) (place : string -> string) (files : list string)
    (w : world tensor ndarray interp) :
  _assertValidDebugInfo self
    (map (fun p => (place p ++ "/" ++ p)%string) files) w
  = _assertValidDebugInfo self files w.
Proof.
  unfold _assertValidDebugInfo. rewrite !file_names_fold.
  replace (basename <$> map (fun p => (place p ++ "/" ++ p)%string) files)
    with (basename <$> files); [reflexivity|].
  induction files as [|p files IH]; simpl; [reflexivity|].
  rewrite basename_dir. f_equal. exact IH.
Qed.

(** ** The further properties on the concrete library *)

(** X1 at work: the signature is there, the runner is called on the
    inputs and its dictionary returned. *)
Lemma signature_def_sequence_witness :
  _evaluateTFLiteModelUsingSignatureDef toy 1%positive [] "serving_default"
    {["x" := 1%float]} world0
  = (Ok {["x" := 1%float]},
     mkWorld
       (<[fresh (dom (heap world0)) := InterpreterCell toy_loaded]>
          (heap world0))
       (log world0
        ++ [Event (Call_Interpreter []) (Returned R_object);
            Event (Call_get_signature_runner "serving_default")
              (Returned R_object);
            Event (Call_signature_runner {["x" := 1%float]})
              (Returned (R_dict {["x" := 1%float]}))])).
Proof.
  apply (proj2 (proj2 (proj2
           (signature_def_sequence toy 1%positive [] "serving_default"
              {["x" := 1%float]} world0)))
           toy_loaded "serving_default" {["x" := 1%float]} toy_loaded);
    reflexivity.
Defined.

(** A signature the model does not have: the lookup raises, and nothing
    is called after it. *)
Example signature_def_missing :
  _evaluateTFLiteModelUsingSignatureDef toy 1%positive [] "other"
    {["x" := 1%float]} world0
  = (Raised ValueError,
     mkWorld
       (<[2%positive := InterpreterCell toy_loaded]> (heap world0))
       [Event (Call_Interpreter []) (Returned R_object);
        Event (Call_get_signature_runner "other") (Raises ValueError)]).
Proof. vm_compute. reflexivity. Qed.

(** A call with input shapes that returns: both tensors are resized
    before allocation. *)
Example evaluate_with_shapes_returns :
  let run :=
    _evaluateTFLiteModel toy 1%positive [] [1%float; 2%float]
      (Some [([1; 4], [1; 4]); ([3], [3])]) world0 in
  fst run = Ok [3%float] /\
  log (snd run)
  = [Event (Call_Interpreter []) (Returned R_object);
     Event Call_get_input_details (Returned (R_details two_inputs));
     Event (Call_resize_tensor_input 0 [1; 4] true) (Returned R_none);
     Event (Call_resize_tensor_input 1 [3] true) (Returned R_none);
     Event Call_allocate_tensors (Returned R_none);
     Event Call_get_output_details (Returned (R_details one_output));
     Event Call_get_input_details (Returned (R_details two_inputs));
     Event (Call_set_tensor 0 1%float) (Returned R_none);
     Event (Call_set_tensor 1 2%float) (Returned R_none);
     Event Call_invoke (Returned R_none);
     Event (Call_get_tensor 2) (Returned (R_array 3%float))].
Proof. split; vm_compute; reflexivity. Qed.

Lemma evaluate_resizes_before_allocation_witness :
  let shapes := [([1; 4], [1; 4]); ([3], [3])] in
  exists i0 ins0 iR i3 rest,
    let l := fresh (dom (heap world0)) in
    let resizes := zip_with (fun d sf => resize_event d (snd sf)) ins0 shapes in
    Interpreter_init toy [] l = Ok i0 /\
    Interpreter_get_input_details toy i0 = Ok ins0 /\
    (length shapes <= length ins0)%nat /\
    (forall j sj, shapes !! j = Some sj ->
       exists dj, ins0 !! j = Some dj /\
                  np_eq_all (shape_signature dj) (fst sj) = Ok true) /\
    resized toy ins0 0 shapes i0 = (Ok iR, resizes) /\
    length (resizes : list (event float float)) = length shapes /\
    fst (evaluation toy [1%float; 2%float] iR) = Ok ([3%float], i3) /\
    snd (evaluation toy [1%float; 2%float] iR)
    = Event Call_allocate_tensors (Returned R_none) :: rest /\
    List.filter is_resize rest = [] /\
    snd (_evaluateTFLiteModel toy 1%positive [] [1%float; 2%float]
           (Some shapes) world0)
    = mkWorld (<[l := InterpreterCell i3]> (heap world0))
        (log world0
         ++ [Event (Call_Interpreter []) (Returned R_object);
             Event Call_get_input_details (Returned (R_details ins0))]
         ++ resizes
         ++ Event Call_allocate_tensors (Returned R_none) :: rest).
Proof.
  apply (evaluate_resizes_before_allocation toy 1%positive []
           [1%float; 2%float] [([1; 4], [1; 4]); ([3], [3])] world0
           (snd (_evaluateTFLiteModel toy 1%positive [] [1%float; 2%float]
                   (Some [([1; 4], [1; 4]); ([3], [3])]) world0))
           [3%float]).
  vm_compute. reflexivity.
Defined.

(** Three entries for two input tensors: both are resized, then the
    subscript fails. *)
Example too_many_input_shapes_run :
  let run :=
    _evaluateTFLiteModel toy 1%positive [] [1%float; 2%float]
      (Some [([1; 4], [1; 4]); ([3], [3]); ([5], [5])]) world0 in
  fst run = Raised IndexError /\
  log (snd run)
  = [Event (Call_Interpreter []) (Returned R_object);
     Event Call_get_input_details (Returned (R_details two_inputs));
     Event (Call_resize_tensor_input 0 [1; 4] true) (Returned R_none);
     Event (Call_resize_tensor_input 1 [3] true) (Returned R_none)].
Proof. split; vm_compute; reflexivity. Qed.

Lemma too_many_input_shapes_witness :
  exists e w' k,
    _evaluateTFLiteModel toy 1%positive [] [1%float; 2%float]
      (Some [([1; 4], [1; 4]); ([3], [3]); ([5], [5])]) world0
    = (Raised e, w') /\
    (k <= length two_inputs)%nat /\
    let opening :=
      [Event (Call_Interpreter []) (Returned R_object);
       Event Call_get_input_details (Returned (R_details two_inputs))] in
    let resized :=
      zip_with (fun d sf => resize_event d (snd sf)) two_inputs
        (take k [([1; 4], [1; 4]); ([3], [3]); ([5], [5])]) in
    ((log w' = log world0 ++ opening ++ resized /\
      (k = length two_inputs -> e = IndexError)) \/
     (exists dk sk,
        two_inputs !! k = Some dk /\
        [([1; 4], [1; 4]); ([3], [3]); ([5], [5])] !! k = Some sk /\
        log w' = log world0 ++ opening ++ resized
                 ++ [Event (Call_resize_tensor_input (index dk) (snd sk) true)
                       (Raises e)])).
Proof.
  apply (too_many_input_shapes toy 1%positive [] [1%float; 2%float]
           [([1; 4], [1; 4]); ([3], [3]); ([5], [5])] world0
           (ToyInterp two_inputs one_output (stale 2%positive) ∅) two_inputs);
    [reflexivity | reflexivity | simpl; lia].
Defined.

Lemma assign_add_accumulates_witness :
  let xs := [1%float; 2%float] in
  let ys := [4%float] in
  exists obj w0 w1 w2,
    _getSimpleModelWithVariables toy 1%positive world0 = (Ok obj, w0) /\
    variable_value w0 obj "var" = Some 0%float /\
    assign_all toy obj xs w0 = (Ok (running_sums toy 0%float xs), w1) /\
    variable_value w1 obj "var" = Some (fold_left PrimFloat.add xs 0%float) /\
    assign_all toy obj ys w1
    = (Ok (running_sums toy (fold_left PrimFloat.add xs 0%float) ys), w2) /\
    variable_value w2 obj "var"
    = Some (fold_left PrimFloat.add (xs ++ ys) 0%float) /\
    log w2 = log w0.
Proof.
  apply (assign_add_accumulates toy 1%positive world0
           [1%float; 2%float] [4%float]).
  reflexivity.
Defined.

(** The same calls, computed. *)
Example assign_add_run_example :
  fst (bind (_getSimpleModelWithVariables toy 1%positive)
         (fun obj => assign_all toy obj [1%float; 2%float; 4%float]) world0)
  = Ok [1%float; 3%float; 7%float].
Proof. vm_compute. reflexivity. Qed.

Lemma simple_models_are_independent_witness :
  exists m1 m2 w1 w2 w3,
    _getSimpleModelWithVariables toy 1%positive world0 = (Ok m1, w1) /\
    _getSimpleModelWithVariables toy 1%positive w1 = (Ok m2, w2) /\
    m1 <> m2 /\
    assign_all toy m1 [1%float; 2%float] w2
    = (Ok (running_sums toy 0%float [1%float; 2%float]), w3) /\
    variable_value w3 m1 "var"
    = Some (fold_left PrimFloat.add [1%float; 2%float] 0%float) /\
    variable_value w3 m2 "var" = Some 0%float.
Proof.
  apply (simple_models_are_independent toy 1%positive world0
           [1%float; 2%float]).
  reflexivity.
Defined.

(** A [BasicModel] as [_getMultiFunctionModel] returns it in [world0]. *)
Example fresh_basic_model :
  _getMultiFunctionModel 1%positive world0
  = (Ok 2%positive,
     mkWorld
       (<[2%positive := Instance (<["z" := VNone]> (<["y" := VNone]> ∅))]>
          (heap world0)) []).
Proof. vm_compute. reflexivity. Qed.

Lemma basic_model_creation_failure_witness :
  let w :=
    mkWorld
      (<[2%positive := Instance (<["z" := VNone]> (<["y" := VNone]> ∅))]>
         (heap world0)) [] in
  (forall e,
     needed_slot (Do_add 1%float) None None = None ->
     Variable_init toy_no_variables
       (needed_value toy_no_variables (Do_add 1%float)) = Some e ->
     perform toy_no_variables 2%positive (Do_add 1%float) w
     = (Raised e,
        mkWorld (heap w)
          (log w
           ++ [Event (Call_Variable
                        (needed_value toy_no_variables (Do_add 1%float)))
                 (Raises e)]))) /\
  (forall l,
     needed_slot (Do_add 1%float) None None = Some l ->
     perform toy_no_variables 2%positive (Do_add 1%float) w
     = (Ok (expected toy_no_variables (Do_add 1%float)), w)).
Proof.
  apply (basic_model_creation_failure toy_no_variables 2%positive None None
           (mkWorld
              (<[2%positive := Instance (<["z" := VNone]> (<["y" := VNone]> ∅))]>
                 (heap world0)) [])
           (Do_add 1%float)).
  exists (<["z" := VNone]> (<["y" := VNone]> ∅)).
  split; [reflexivity|]. split; [reflexivity|]. split; [reflexivity|].
  split; intros l [=].
Defined.

(** The constructor raises at every call, and every call tries again. *)
Example basic_model_retries :
  let run :=
    bind (_getMultiFunctionModel 1%positive)
      (fun obj =>
         try_except (perform toy_no_variables obj (Do_add 1%float))
           (fun _ => perform toy_no_variables obj (Do_add 1%float)))
      world0 in
  fst run = Raised RuntimeError /\
  log (snd run)
  = [Event (Call_Variable 2%float) (Raises RuntimeError);
     Event (Call_Variable 2%float) (Raises RuntimeError)].
Proof. split; vm_compute; reflexivity. Qed.

Lemma simple_model_f_is_pure_witness :
  let w := snd (_getSimpleVariableModel toy 1%positive world0) in
  comprehension [7%float; 1%float]
    (fun x => call_attr toy 2%positive "f" x) w
  = (Ok (map (fun x => tensor_mul toy (tensor_mul toy 3%float 2%float) x)
           [7%float; 1%float]), w).
Proof.
  apply (simple_model_f_is_pure toy 2%positive 3%positive 4%positive
           3%float 2%float
           (snd (_getSimpleVariableModel toy 1%positive world0))
           (<["f" := VFunction (Lambda_f 2%positive)]>
              (<["v2" := VRef 4%positive]> (<["v1" := VRef 3%positive]> ∅)))
           [7%float; 1%float]);
    vm_compute; reflexivity.
Defined.

(** Paths in two directories, and the bare names. *)
Example assertValidDebugInfo_directories :
  fst (_assertValidDebugInfo 1%positive
         ["a/b/lite_v2_test.py"; "c/d.py"] world0)
  = Ok tt /\
  fst (_assertValidDebugInfo 1%positive ["lite_v2_test.py"; "d.py"] world0)
  = Ok tt.
Proof. split; vm_compute; reflexivity. Qed.
